(** * The Coup rules engine: a shallow embedding and its verified properties

    The development follows the C++ sources: [Player] (base class of the six
    roles), [Game] (the match controller) and [ActionValidator] (the rule
    validator).  Mutating member functions become computations in a small
    state-and-exception monad over the [Game] aggregate.

    Modelling conventions.
    - Objects.  The roster [player_list] owns every player of the match; a
      [Player&] or a non-null [shared_ptr<Player>] is the seat index of the
      object in the roster, so pointer equality is equality of indices, and a
      nullable [shared_ptr<Player>] is an [option nat].  Every seat holds a
      player, and every player refers to a live match (the [weak_ptr] locks
      of the source succeed).
    - [int] values are integers of [Z] between [INT_MIN] and [INT_MAX]; an
      addition or subtraction that leaves the range is undefined behaviour in
      C++ and yields the outcome [Undefined], as does indexing the roster
      past its end.
    - Writes to [std::cout] are not modelled. *)

From Stdlib Require Import ZArith String Ascii DecimalString.
From stdpp Require Import base tactics option list.

Local Open Scope string_scope.
Local Open Scope Z_scope.

(** ** Exceptions (Exceptions.hpp) *)

Inductive Exn : Type :=
  | GameException (message : string)
  | IllegalMoveException (message : string)
  | NotEnoughCoinsException (message : string)
  | IllegalTargetException (message : string)
  | NotYourTurnException (message : string)
  | TooManyPlayersException (message : string)
  | PlayerNotFoundException (message : string).

Definition what (e : Exn) : string :=
  match e with
  | GameException m | IllegalMoveException m | NotEnoughCoinsException m
  | IllegalTargetException m | NotYourTurnException m
  | TooManyPlayersException m | PlayerNotFoundException m => m
  end.

(** ** Data model (Player.hpp, Roles.hpp, Game.hpp) *)

Inductive Role : Type := Governor | Spy | Baron | General | Judge | Merchant.

Record Player : Type := mkPlayer {
  name : string;
  coins : Z;
  active : bool;
  sanctioned : bool;
  own_last_arrested_player : string;
  arrest_blocked : bool;
  kind : Role
}.

(** [Player::role], overridden by each of the six classes. *)
Definition role (p : Player) : string :=
  match kind p with
  | Governor => "Governor"
  | Spy => "Spy"
  | Baron => "Baron"
  | General => "General"
  | Judge => "Judge"
  | Merchant => "Merchant"
  end.

(** [Player::Player]: no coins, active, no status effect. *)
Definition new_player (k : Role) (n : string) : Player :=
  mkPlayer n 0 true false "" false k.

Definition with_coins (c : Z) (p : Player) : Player :=
  mkPlayer (name p) c (active p) (sanctioned p) (own_last_arrested_player p)
           (arrest_blocked p) (kind p).
Definition with_active (b : bool) (p : Player) : Player :=
  mkPlayer (name p) (coins p) b (sanctioned p) (own_last_arrested_player p)
           (arrest_blocked p) (kind p).
Definition with_sanctioned (b : bool) (p : Player) : Player :=
  mkPlayer (name p) (coins p) (active p) b (own_last_arrested_player p)
           (arrest_blocked p) (kind p).
Definition with_arrest_blocked (b : bool) (p : Player) : Player :=
  mkPlayer (name p) (coins p) (active p) (sanctioned p)
           (own_last_arrested_player p) b (kind p).

Record Game : Type := mkGame {
  player_list : list Player;
  current_turn : nat;
  game_started : bool;
  treasury : Z;
  last_arrested_player : string;
  actions_remaining : Z
}.

(** [Game::Game]. *)
Definition new_game : Game := mkGame [] 0 false 50 "" 1.

Definition with_player_list (l : list Player) (g : Game) : Game :=
  mkGame l (current_turn g) (game_started g) (treasury g)
         (last_arrested_player g) (actions_remaining g).
Definition with_current_turn (i : nat) (g : Game) : Game :=
  mkGame (player_list g) i (game_started g) (treasury g)
         (last_arrested_player g) (actions_remaining g).
Definition with_game_started (b : bool) (g : Game) : Game :=
  mkGame (player_list g) (current_turn g) b (treasury g)
         (last_arrested_player g) (actions_remaining g).
Definition with_treasury (t : Z) (g : Game) : Game :=
  mkGame (player_list g) (current_turn g) (game_started g) t
         (last_arrested_player g) (actions_remaining g).
Definition with_last_arrested_player (n : string) (g : Game) : Game :=
  mkGame (player_list g) (current_turn g) (game_started g) (treasury g)
         n (actions_remaining g).
Definition with_actions_remaining (a : Z) (g : Game) : Game :=
  mkGame (player_list g) (current_turn g) (game_started g) (treasury g)
         (last_arrested_player g) a.

(** ** The monad of member functions *)

Inductive Outcome (A : Type) : Type :=
  | Ret (a : A) (g : Game)      (* normal return, in state [g] *)
  | Throw (e : Exn) (g : Game)  (* exception [e] propagates, in state [g] *)
  | Undefined.                  (* undefined behaviour of the source *)
Arguments Ret {A} a g.
Arguments Throw {A} e g.
Arguments Undefined {A}.

Definition M (A : Type) : Type := Game → Outcome A.

Definition ret {A} (a : A) : M A := λ g, Ret a g.

Definition bind {A B} (m : M A) (f : A → M B) : M B :=
  λ g, match m g with
       | Ret a g' => f a g'
       | Throw e g' => Throw e g'
       | Undefined => Undefined
       end.

Notation "x <- m ;; k" := (bind m (λ x, k))
  (at level 100, m at next level, k at level 200, right associativity,
   format "'[v' x  <-  m  ;; '/' k ']'").
Notation "m ;;; k" := (bind m (λ _, k))
  (at level 100, k at level 200, right associativity,
   format "'[v' m  ;;; '/' k ']'").

Definition get : M Game := λ g, Ret g g.
Definition put (g' : Game) : M unit := λ _, Ret tt g'.
Definition throw {A} (e : Exn) : M A := λ g, Throw e g.
Definition undefined {A} : M A := λ _, Undefined.

(** [try { m } catch (const std::exception& e) { h e }] *)
Definition try_catch {A} (m : M A) (h : Exn → M A) : M A :=
  λ g, match m g with
       | Throw e g' => h e g'
       | o => o
       end.

(** Reading and writing the player object at seat [p]. *)
Definition deref (p : nat) : M Player :=
  λ g, match player_list g !! p with
       | Some x => Ret x g
       | None => Undefined
       end.

Definition assign (p : nat) (f : Player → Player) : M unit :=
  λ g, match player_list g !! p with
       | Some _ => Ret tt (with_player_list (alter f p (player_list g)) g)
       | None => Undefined
       end.

(** ** Machine integers *)

Definition INT_MAX : Z := 2147483647.
Definition INT_MIN : Z := -2147483648.

Definition in_int (z : Z) : bool := (INT_MIN <=? z) && (z <=? INT_MAX).

(** An [int] result: defined when it is representable. *)
Definition int_result (z : Z) : M Z :=
  if in_int z then ret z else undefined.

(** [std::to_string] on an [int]. *)
Definition to_string (z : Z) : string := NilZero.string_of_int (Z.to_int z).

(** [s.find(pat) != std::string::npos] *)
Definition found (pat s : string) : bool :=
  match String.index 0 pat s with Some _ => true | None => false end.

(** ** Game: treasury and the action counter (Game.cpp, Game.hpp) *)

Definition get_treasury : M Z := g <- get ;; ret (treasury g).

Definition add_to_treasury (amount : Z) : M unit :=
  if amount <? 0 then
    throw (GameException "Cannot add negative amount to treasury")
  else
    g <- get ;;
    t <- int_result (treasury g + amount) ;;
    put (with_treasury t g).

Definition remove_from_treasury (amount : Z) : M unit :=
  if amount <? 0 then
    throw (GameException "Cannot remove negative amount from treasury")
  else
    g <- get ;;
    if treasury g <? amount then
      throw (GameException "Not enough coins in treasury")
    else
      t <- int_result (treasury g - amount) ;;
      put (with_treasury t g).

Definition get_actions_remaining : M Z := g <- get ;; ret (actions_remaining g).

Definition add_extra_actions (count : Z) : M unit :=
  g <- get ;;
  a <- int_result (actions_remaining g + count) ;;
  put (with_actions_remaining a g).

Definition consume_action : M unit :=
  g <- get ;;
  if 0 <? actions_remaining g then
    a <- int_result (actions_remaining g - 1) ;;
    put (with_actions_remaining a g)
  else ret tt.

Definition start_turn_actions : M unit :=
  g <- get ;; put (with_actions_remaining 1 g).

Definition get_last_arrested_player : M string :=
  g <- get ;; ret (last_arrested_player g).

Definition set_last_arrested_player (n : string) : M unit :=
  g <- get ;; put (with_last_arrested_player n g).

(** ** Player: accessors and coin handling (Player.hpp, Player.cpp) *)

Definition get_name (this : nat) : M string := p <- deref this ;; ret (name p).
Definition get_coins (this : nat) : M Z := p <- deref this ;; ret (coins p).
Definition is_active (this : nat) : M bool := p <- deref this ;; ret (active p).
Definition is_sanctioned (this : nat) : M bool :=
  p <- deref this ;; ret (sanctioned p).
Definition is_arrest_blocked (this : nat) : M bool :=
  p <- deref this ;; ret (arrest_blocked p).
Definition get_role (this : nat) : M string := p <- deref this ;; ret (role p).

Definition set_sanctioned (this : nat) (value : bool) : M unit :=
  assign this (with_sanctioned value).
Definition set_arrest_blocked (this : nat) (val : bool) : M unit :=
  assign this (with_arrest_blocked val).
Definition deactivate (this : nat) : M unit := assign this (with_active false).

Definition add_coins (this : nat) (amount : Z) : M unit :=
  p <- deref this ;;
  c <- int_result (coins p + amount) ;;
  assign this (with_coins c).

Definition remove_coins (this : nat) (amount : Z) : M unit :=
  p <- deref this ;;
  if coins p <? amount then
    throw (NotEnoughCoinsException "Not enough coins for action")
  else
    c <- int_result (coins p - amount) ;;
    assign this (with_coins c).

(** [Player::on_turn_start] does nothing; [Merchant::on_turn_start]
    overrides it. *)
Definition on_turn_start (this : nat) : M unit :=
  p <- deref this ;;
  match kind p with
  | Merchant =>
      if 3 <=? coins p then
        t <- get_treasury ;;
        if 1 <=? t then
          remove_from_treasury 1 ;;;
          add_coins this 1
        else ret tt
      else ret tt
  | _ => ret tt
  end.

(** ** Game: roster and turn order (Game.cpp) *)

Definition validate_player_count : M unit :=
  g <- get ;;
  if (6 <=? length (player_list g))%nat then
    throw (TooManyPlayersException "Maximum 6 players allowed")
  else ret tt.

Definition add_player (player : Player) : M unit :=
  validate_player_count ;;;
  g <- get ;;
  put (with_player_list (player_list g ++ [player]) g).

Definition start_game : M unit :=
  g <- get ;;
  if (length (player_list g) <? 2)%nat then
    throw (GameException "Not enough players to start game")
  else put (with_game_started true g).

Definition get_current_player : M (option nat) :=
  g <- get ;;
  match player_list g with
  | [] => ret None
  | _ => _ <- deref (current_turn g) ;; ret (Some (current_turn g))
  end.

Definition is_player_turn (player : nat) : M bool :=
  g <- get ;;
  match player_list g with
  | [] => ret false
  | _ => _ <- deref (current_turn g) ;; ret (current_turn g =? player)%nat
  end.

Definition validate_game_state : M unit :=
  g <- get ;;
  if negb (game_started g) then throw (GameException "Game has not started")
  else ret tt.

(** The counting loop shared by [next_turn] and [is_game_over]. *)
Fixpoint count_active (l : list Player) : Z :=
  match l with
  | [] => 0
  | player :: rest =>
      if active player then 1 + count_active rest else count_active rest
  end.

(** The [do ... while] loop of [next_turn]; [fuel] bounds the number of
    times the body runs.  After as many rounds as there are seats the index
    is back at [starting_turn], so [next_turn] gives the loop that many. *)
Fixpoint find_next_active (fuel : nat) (starting_turn : nat) : M unit :=
  match fuel with
  | O => undefined
  | S fuel' =>
      g <- get ;;
      let next := ((current_turn g + 1) mod length (player_list g))%nat in
      put (with_current_turn next g) ;;;
      if negb (next =? starting_turn)%nat then
        a <- is_active next ;;
        if negb a then find_next_active fuel' starting_turn else ret tt
      else ret tt
  end.

Definition next_turn : M unit :=
  g <- get ;;
  let active_count := count_active (player_list g) in
  if active_count <=? 1 then ret tt
  else
    currentPlayer <- get_current_player ;;
    match currentPlayer with
    | Some cp => set_sanctioned cp false ;;; set_arrest_blocked cp false
    | None => ret tt
    end ;;;
    g <- get ;;
    let starting_turn := current_turn g in
    find_next_active (length (player_list g)) starting_turn ;;;
    nextPlayer <- get_current_player ;;
    match nextPlayer with
    | Some np =>
        a <- is_active np ;;
        if a then on_turn_start np ;;; start_turn_actions else ret tt
    | None => ret tt
    end.

Definition is_game_over : M bool :=
  g <- get ;; ret (count_active (player_list g) <=? 1).

(** [Game::winner]: the first active player of the roster. *)
Definition winner : M string :=
  over <- is_game_over ;;
  if negb over then throw (GameException "Game is not over yet")
  else
    g <- get ;;
    match List.find active (player_list g) with
    | Some player => ret (name player)
    | None => throw (GameException "No winner - all players eliminated")
    end.

(** ** Player: validation helpers (Player.cpp) *)

Definition validate_action (this : nat) : M unit :=
  a <- is_active this ;;
  if negb a then throw (IllegalMoveException "Player is not active")
  else
    t <- is_player_turn this ;;
    if negb t then throw (NotYourTurnException "Not your turn")
    else validate_game_state.

Definition validate_target (target : nat) : M unit :=
  a <- is_active target ;;
  if negb a then throw (IllegalTargetException "Target player is not active")
  else ret tt.

Definition validate_coins (this : nat) (required : Z) : M unit :=
  c <- get_coins this ;;
  if c <? required then
    throw (NotEnoughCoinsException "Not enough coins for action")
  else ret tt.

(** The closing block of every turn-consuming action. *)
Definition end_of_action : M unit :=
  consume_action ;;;
  r <- get_actions_remaining ;;
  if r =? 0 then next_turn else ret tt.

(** ** Player: the six core actions (Player.cpp) *)

Definition gather (this : nat) : M unit :=
  validate_action this ;;;
  s <- is_sanctioned this ;;
  if s then throw (IllegalMoveException "Player is under sanctions")
  else
    remove_from_treasury 1 ;;;
    add_coins this 1 ;;;
    end_of_action.

Definition tax (this : nat) : M unit :=
  validate_action this ;;;
  s <- is_sanctioned this ;;
  if s then throw (IllegalMoveException "Player is under sanctions")
  else
    r <- get_role this ;;
    let tax_amount := if String.eqb r "Governor" then 3 else 2 in
    remove_from_treasury tax_amount ;;;
    add_coins this tax_amount ;;;
    end_of_action.

Definition bribe (this : nat) : M unit :=
  validate_action this ;;;
  validate_coins this 4 ;;;
  remove_coins this 4 ;;;
  add_to_treasury 4 ;;;
  add_extra_actions 2 ;;;
  end_of_action.

Definition arrest (this target : nat) : M unit :=
  validate_action this ;;;
  validate_target target ;;;
  if (target =? this)%nat then
    throw (IllegalTargetException "Cannot arrest yourself")
  else
    b <- is_arrest_blocked this ;;
    if b then
      throw (IllegalMoveException "You are blocked from using arrest this turn")
    else
      last <- get_last_arrested_player ;;
      target_name <- get_name target ;;
      if String.eqb last target_name then
        throw (IllegalMoveException
                 "Cannot arrest the same player twice in a row")
      else
        target_role <- get_role target ;;
        (if String.eqb target_role "General" then ret tt
         else if String.eqb target_role "Merchant" then
           c <- get_coins target ;;
           if 0 <? c then
             let coinsToTreasury := Z.min c 2 in
             remove_coins target coinsToTreasury ;;;
             add_to_treasury coinsToTreasury
           else ret tt
         else
           c <- get_coins target ;;
           if 0 <? c then
             remove_coins target 1 ;;;
             add_coins this 1
           else ret tt) ;;;
        target_name <- get_name target ;;
        set_last_arrested_player target_name ;;;
        end_of_action.

Definition sanction (this target : nat) : M unit :=
  validate_action this ;;;
  validate_target target ;;;
  if (target =? this)%nat then
    throw (IllegalTargetException "Cannot sanction yourself")
  else
    target_role <- get_role target ;;
    cost <- (if String.eqb target_role "Judge" then
               validate_coins this 4 ;;; ret 4
             else
               validate_coins this 3 ;;; ret 3) ;;
    remove_coins this cost ;;;
    add_to_treasury cost ;;;
    target_role <- get_role target ;;
    (if String.eqb target_role "Baron" then
       t <- get_treasury ;;
       if 1 <=? t then
         remove_from_treasury 1 ;;;
         add_coins target 1
       else ret tt
     else ret tt) ;;;
    set_sanctioned target true ;;;
    end_of_action.

Definition coup (this target : nat) : M unit :=
  validate_action this ;;;
  validate_target target ;;;
  validate_coins this 7 ;;;
  if (target =? this)%nat then
    throw (IllegalTargetException "Cannot coup yourself")
  else
    remove_coins this 7 ;;;
    add_to_treasury 7 ;;;
    deactivate target ;;;
    end_of_action.

(** ** The role classes (Roles.cpp)

    [Governor::tax], [Baron::sanction] and [Merchant::gather] call the base
    implementation and need no definition of their own. *)

(** [Spy::investigate]: reveals the target on the log, changes nothing. *)
Definition investigate (this target : nat) : M unit :=
  validate_action this ;;;
  validate_target target ;;;
  if (target =? this)%nat then
    throw (IllegalTargetException "Cannot investigate yourself")
  else ret tt.

(** [Spy::block_arrest_ability] *)
Definition block_arrest_ability (this target : nat) : M unit :=
  validate_action this ;;;
  validate_target target ;;;
  if (target =? this)%nat then
    throw (IllegalTargetException "Cannot block your own arrest ability")
  else set_arrest_blocked target true.

(** [Baron::invest] *)
Definition invest (this : nat) : M unit :=
  validate_action this ;;;
  validate_coins this 3 ;;;
  t <- get_treasury ;;
  if t <? 6 then
    throw (IllegalMoveException
             "Treasury doesn't have enough coins for investment return")
  else
    remove_coins this 3 ;;;
    add_to_treasury 3 ;;;
    remove_from_treasury 6 ;;;
    add_coins this 6 ;;;
    end_of_action.

(** ** ActionValidator (ActionValidator.hpp, ActionValidator.cpp) *)

Record ValidationResult : Type := mkValidationResult {
  isValid : bool;
  errorMessage : string
}.

Definition valid : ValidationResult := mkValidationResult true "".
Definition invalid (message : string) : ValidationResult :=
  mkValidationResult false message.

(** The static table [actionCosts]; an action that is not a key costs 0. *)
Definition getActionCost (action : string) : Z :=
  if String.eqb action "Gather" then 0
  else if String.eqb action "Tax" then 0
  else if String.eqb action "Bribe" then 4
  else if String.eqb action "Arrest" then 0
  else if String.eqb action "Coup" then 7
  else if String.eqb action "Investigate" then 0
  else if String.eqb action "Block Arrest" then 0
  else if String.eqb action "End Turn" then 0
  else if String.eqb action "Sanction" then 3
  else if String.eqb action "Invest" then 3
  else 0.

(** The static set [targetRequiredActions]. *)
Definition requiresTarget (action : string) : bool :=
  String.eqb action "Arrest" || String.eqb action "Sanction"
  || String.eqb action "Coup" || String.eqb action "Investigate"
  || String.eqb action "Block Arrest".

Definition validateCoins (action : string) (player : nat)
  : M ValidationResult :=
  let requiredCoins := getActionCost action in
  c <- get_coins player ;;
  if String.eqb action "Sanction" && (requiredCoins =? 3) then
    if c <? 3 then ret (invalid "Need at least 3 coins for sanction")
    else ret valid
  else if (0 <? requiredCoins) && (c <? requiredCoins) then
    ret (invalid ("Need " ++ to_string requiredCoins ++ " coins for "
                  ++ action)%string)
  else ret valid.

Definition validatePlayerState (player : nat) : M ValidationResult :=
  a <- is_active player ;;
  if negb a then ret (invalid "Player is not active") else ret valid.

Definition validateTarget (action : string) (actor : nat)
    (target : option nat) : M ValidationResult :=
  match target with
  | None => ret (invalid ("Target required for " ++ action)%string)
  | Some t =>
      a <- is_active t ;;
      if negb a then ret (invalid "Target player is not active")
      else if (actor =? t)%nat then
        ret (invalid ("Cannot target yourself with " ++ action)%string)
      else ret valid
  end.

Definition validateGameState (player : nat) : M ValidationResult :=
  t <- is_player_turn player ;;
  if negb t then ret (invalid "Not your turn")
  else
    try_catch (validate_game_state ;;; ret valid)
              (λ e, ret (invalid (what e))).

Definition validateRoleSpecificRequirements (action : string) (player : nat)
  : M ValidationResult :=
  p <- deref player ;;
  if (String.eqb action "Gather" || String.eqb action "Tax")
     && sanctioned p then
    ret (invalid "You are under sanctions and cannot gather or tax")
  else if String.eqb action "Arrest" && arrest_blocked p then
    ret (invalid "Your arrest ability is blocked this turn")
  else if String.eqb action "Invest" && negb (String.eqb (role p) "Baron") then
    ret (invalid "Only Baron can invest")
  else if String.eqb action "Investigate"
          && negb (String.eqb (role p) "Spy") then
    ret (invalid "Only Spy can investigate")
  else if String.eqb action "Block Arrest"
          && negb (String.eqb (role p) "Spy") then
    ret (invalid "Only Spy can block arrest abilities")
  else ret valid.

Definition getValidationResult (action : string) (actor target : option nat)
  : M ValidationResult :=
  match actor with
  | None => ret (invalid "No actor specified")
  | Some a =>
      c <- get_coins a ;;
      if (10 <=? c) && negb (String.eqb action "Coup")
         && negb (String.eqb action "End Turn") then
        ret (invalid "Must perform coup when having 10 or more coins")
      else
        playerState <- validatePlayerState a ;;
        if negb (isValid playerState) then ret playerState else
        gameState <- validateGameState a ;;
        if negb (isValid gameState) then ret gameState else
        coinCheck <- validateCoins action a ;;
        if negb (isValid coinCheck) then ret coinCheck else
        roleCheck <- validateRoleSpecificRequirements action a ;;
        if negb (isValid roleCheck) then ret roleCheck else
        if requiresTarget action then
          targetCheck <- validateTarget action a target ;;
          if negb (isValid targetCheck) then ret targetCheck else ret valid
        else ret valid
  end.

Definition validateActionExecution (action : string)
    (actor target : option nat) : M unit :=
  result <- getValidationResult action actor target ;;
  if negb (isValid result) then
    let m := errorMessage result in
    if found "coins" m then throw (NotEnoughCoinsException m)
    else if found "turn" m then throw (NotYourTurnException m)
    else if found "target" m || found "Target" m then
      throw (IllegalTargetException m)
    else if found "game" m || found "Game" m then throw (GameException m)
    else throw (IllegalMoveException m)
  else ret tt.

(** ** GUI: committing an action (GUI.cpp)

    [GUI::performAction] dispatches on the action name.  The enclosing
    [try]/[catch] of the source only reports the exception; here it
    propagates, so that the outcome tells a committed action from a failed
    one.  A targeted action without a target, or an unknown name, does
    nothing. *)
Definition performAction (action : string) (actor : nat)
    (target : option nat) : M unit :=
  if String.eqb action "Gather" then gather actor
  else if String.eqb action "Tax" then tax actor
  else if String.eqb action "Bribe" then bribe actor
  else if String.eqb action "Invest" then
    p <- deref actor ;;
    match kind p with
    | Baron => invest actor
    | _ => throw (IllegalMoveException "Only Baron can invest")
    end
  else
    match target with
    | Some t =>
        if String.eqb action "Arrest" then arrest actor t
        else if String.eqb action "Sanction" then sanction actor t
        else if String.eqb action "Coup" then coup actor t
        else ret tt
    | None => ret tt
    end.

(** [GUI::onBlockClicked]: a blocker counters the pending action.  The
    exceptions of the payments are caught and logged; the turn is passed on
    in every case. *)
Definition onBlockClicked (blockingAction : string)
    (blockingActor blocker : nat) : M unit :=
  try_catch
    (if String.eqb blockingAction "Bribe" then
       remove_coins blockingActor 4 ;;;
       add_to_treasury 4
     else if String.eqb blockingAction "Sanction" then
       remove_coins blockingActor 3 ;;;
       add_to_treasury 3
     else if String.eqb blockingAction "Coup" then
       remove_coins blockingActor 7 ;;;
       add_to_treasury 7 ;;;
       r <- get_role blocker ;;
       if String.eqb r "General" then
         remove_coins blocker 5 ;;;
         add_to_treasury 5
       else ret tt
     else ret tt)
    (λ _, ret tt) ;;;
  next_turn.

(** ** Game: queries on the roster (Game.hpp, Game.cpp) *)

(** [Game::is_active] and [Game::player_count]; the first carries the name
    of its class, [is_active] being the accessor of [Player]. *)
Definition Game_is_active : M bool := g <- get ;; ret (game_started g).

Definition player_count : M nat := g <- get ;; ret (length (player_list g)).

(** [Game::turn] *)
Definition turn : M string :=
  g <- get ;;
  match player_list g with
  | [] => throw (GameException "No players in game")
  | _ => get_name (current_turn g)
  end.

(** [Game::players]: the names of all seats, in the order of the roster. *)
Definition players : M (list string) :=
  g <- get ;; ret (map name (player_list g)).

(** [Game::all_players]: a copy of the roster, that is, all its seats. *)
Definition all_players : M (list nat) :=
  g <- get ;; ret (seq 0 (length (player_list g))).

(** [std::find_if], as the position of the first element that satisfies
    the predicate. *)
Fixpoint find_if {A} (pred : A → bool) (l : list A) : option nat :=
  match l with
  | [] => None
  | x :: rest => if pred x then Some 0%nat else S <$> find_if pred rest
  end.

(** [Game::get_player_by_name] *)
Definition get_player_by_name (n : string) : M nat :=
  g <- get ;;
  match find_if (λ p, String.eqb (name p) n) (player_list g) with
  | Some it => ret it
  | None => throw (PlayerNotFoundException ("Player not found: " ++ n))
  end.

(** The first loop of [Game::cleanup_inactive_players]: the inactive
    players among the seats in front of [current_turn]. *)
Fixpoint removed_before (current_turn : nat) (l : list Player) : nat :=
  match current_turn, l with
  | S i, p :: rest =>
      if negb (active p) then S (removed_before i rest)
      else removed_before i rest
  | _, _ => 0%nat
  end.

(** [Game::cleanup_inactive_players]: [erase]/[remove_if] keeps the active
    players in their order. *)
Definition cleanup_inactive_players : M unit :=
  g <- get ;;
  let removedBefore := removed_before (current_turn g) (player_list g) in
  let g := with_player_list
             (filter (λ p, active p = true) (player_list g)) g in
  let g :=
    if (removedBefore <=? current_turn g)%nat then
      with_current_turn (current_turn g - removedBefore) g
    else g in
  let g :=
    if (length (player_list g) <=? current_turn g)%nat
       && negb (length (player_list g) =? 0)%nat then
      with_current_turn 0 g
    else g in
  put g.

Definition force_cleanup_inactive_players : M unit :=
  cleanup_inactive_players.

(** [Game::create_random_player]; [role_index] is the number that the
    generator draws. *)
Definition create_random_player (role_index : Z) (n : string) : Player :=
  match role_index with
  | 0 => new_player Governor n
  | 1 => new_player Spy n
  | 2 => new_player Baron n
  | 3 => new_player General n
  | 4 => new_player Judge n
  | 5 => new_player Merchant n
  | _ => new_player Governor n
  end.

(** ** Roles: who can counter an action (Player.hpp, Roles.cpp) *)

(** [::tolower] in the "C" locale. *)
Definition tolower (c : ascii) : ascii :=
  let n := nat_of_ascii c in
  if (65 <=? n)%nat && (n <=? 90)%nat then ascii_of_nat (n + 32) else c.

(** [std::transform] over the characters of a string. *)
Fixpoint transform (f : ascii → ascii) (s : string) : string :=
  match s with
  | EmptyString => EmptyString
  | String c rest => String (f c) (transform f rest)
  end.

(** [Player::can_block] answers no; [Governor], [General] and [Judge]
    override it. *)
Definition can_block (this : nat) (action : string) : M bool :=
  p <- deref this ;;
  let act := transform tolower action in
  match kind p with
  | Governor => ret (String.eqb act "tax")
  | General => ret (String.eqb act "coup" && (5 <=? coins p))
  | Judge => ret (String.eqb act "bribe")
  | Spy | Baron | Merchant => ret false
  end.

(** ** ActionValidator: availability (ActionValidator.cpp) *)

Definition isActionAvailable (action : string) (player : option nat)
  : M bool :=
  match player with
  | None => ret false
  | Some _ =>
      result <- getValidationResult action player None ;;
      ret (isValid result)
  end.

Definition isActionAvailableForButton (action : string)
    (player : option nat) : M bool :=
  match player with
  | None => ret false
  | Some a =>
      c <- get_coins a ;;
      if (10 <=? c) && negb (String.eqb action "Coup")
         && negb (String.eqb action "End Turn") then ret false
      else
        playerState <- validatePlayerState a ;;
        if negb (isValid playerState) then ret false else
        gameState <- validateGameState a ;;
        if negb (isValid gameState) then ret false else
        coinCheck <- validateCoins action a ;;
        if negb (isValid coinCheck) then ret false else
        roleCheck <- validateRoleSpecificRequirements action a ;;
        if negb (isValid roleCheck) then ret false else
        ret true
  end.

(** ** GUI: an action and its report (GUI.cpp)

    [GUI::performAction] as a whole.  [performAction] is its [try] block,
    in which the exception of a refused action propagates; the handler of
    the block reports the exception and the function returns.  The summary
    of the coins that closes the block only reads the match, and the
    members that hold the messages are left out. *)
Definition GUI_performAction (action : string) (actor : nat)
    (target : option nat) : M unit :=
  try_catch (performAction action actor target) (λ _, ret tt).

(** ** GUI: the phase in which an action can be countered (GUI.cpp) *)

(** The loop of [GUI::startBlockPhase] over the roster: the actor and the
    eliminated players are skipped, and who can counter the action is
    pushed to the back of [blockers]. *)
Fixpoint collect_blockers (action : string) (actor : nat)
    (allPlayers : list nat) (blockers : list nat) : M (list nat) :=
  match allPlayers with
  | [] => ret blockers
  | player :: rest =>
      if (player =? actor)%nat then
        collect_blockers action actor rest blockers
      else
        a <- is_active player ;;
        if negb a then collect_blockers action actor rest blockers
        else
          b <- can_block player action ;;
          if b then
            collect_blockers action actor rest (blockers ++ [player])%list
          else collect_blockers action actor rest blockers
  end.

(** [GUI::startBlockPhase]; the result is the member [blockers], and
    [isBlockPhase] is left set when it is not empty.  Without a blocker the
    action is committed at once. *)
Definition startBlockPhase (action : string) (actor : nat)
    (target : option nat) : M (list nat) :=
  allPlayers <- all_players ;;
  blockers <- collect_blockers action actor allPlayers [] ;;
  match blockers with
  | [] => GUI_performAction action actor target ;;; ret blockers
  | _ => ret blockers
  end.

(** [GUI::onNoBlockClicked], for the members [isBlockPhase],
    [blockingAction], [blockingActor] and [blockingTarget]. *)
Definition onNoBlockClicked (isBlockPhase : bool) (blockingAction : string)
    (blockingActor : nat) (blockingTarget : option nat) : M unit :=
  if negb isBlockPhase then ret tt
  else GUI_performAction blockingAction blockingActor blockingTarget.

(** ** GUI: the setup phase (GUI.cpp)

    [GUI::handleEvents] takes the events of the window one by one.  The
    members of [GUI] that the setup phase reads and writes are the text
    typed so far and the flag of the phase; the messages that it shows are
    left out. *)
Record Setup : Type := mkSetup {
  currentInput : string;
  isSetupPhase : bool
}.

(** [std::string::empty], [pop_back] and [+=] with a character. *)
Definition string_empty (s : string) : bool :=
  match s with
  | EmptyString => true
  | String _ _ => false
  end.

Fixpoint pop_back (s : string) : string :=
  match s with
  | EmptyString => EmptyString
  | String c rest =>
      match rest with
      | EmptyString => EmptyString
      | String _ _ => String c (pop_back rest)
      end
  end.

Definition push_back (s : string) (c : ascii) : string :=
  (s ++ String c EmptyString)%string.

(** The event [KeyPressed] with the key [Space].  The handler of the
    exceptions only reports them: the members keep the values that they
    have when the exception is thrown, and [isSetupPhase] is cleared
    before [start_game] is called. *)
Definition handleEvents_Space (s : Setup) : M Setup :=
  if negb (isSetupPhase s) then ret s
  else
    try_catch
      (names <- players ;;
       let playerCount := length names in
       if (playerCount <? 2)%nat then
         throw (GameException "Need at least 2 players to start the game")
       else
         let s := mkSetup (currentInput s) false in
         try_catch (start_game ;;; ret s) (λ _, ret s))
      (λ _, ret s).

(** The event [TextEntered] with the character [unicode]: backspace,
    return or line feed with the name of a new player, or a character of
    the name.  [role_index] is the number that the generator draws for
    the role. *)
Definition handleEvents_TextEntered (unicode : nat) (role_index : Z)
    (s : Setup) : M Setup :=
  if negb (isSetupPhase s) then ret s
  else if negb (unicode <? 128)%nat then ret s
  else if (unicode =? 8)%nat && negb (string_empty (currentInput s)) then
    ret (mkSetup (pop_back (currentInput s)) (isSetupPhase s))
  else if (unicode =? 13)%nat || (unicode =? 10)%nat then
    try_catch
      (if string_empty (currentInput s) then
         throw (GameException "Player name cannot be empty")
       else
         existingPlayers <- players ;;
         match find_if (String.eqb (currentInput s)) existingPlayers with
         | Some _ => throw (GameException "Player name already exists")
         | None =>
             let player := create_random_player role_index (currentInput s) in
             add_player player ;;;
             let s := mkSetup EmptyString (isSetupPhase s) in
             names <- players ;;
             let playerCount := length names in
             if (playerCount <? 2)%nat then ret s
             else if (6 <=? playerCount)%nat then
               let s := mkSetup (currentInput s) false in
               try_catch (start_game ;;; ret s) (λ _, ret s)
             else ret s
         end)
      (λ _, ret s)
  else if negb (unicode =? 8)%nat then
    ret (mkSetup (push_back (currentInput s) (ascii_of_nat unicode))
           (isSetupPhase s))
  else ret s.

(** * Specification-side definitions *)

(** ** Quantities and state predicates *)

(** The turn pointer designates a seat of the roster. *)
Definition turn_in_range (g : Game) : Prop :=
  (current_turn g < length (player_list g))%nat.

(** The pointer of a match without seats rests at 0. *)
Definition turn_pointer_ok (g : Game) : Prop :=
  (player_list g = [] ∧ current_turn g = 0%nat) ∨ turn_in_range g.

(** Coins held by the participants, and in the whole system. *)
Fixpoint total_coins (l : list Player) : Z :=
  match l with
  | [] => 0
  | p :: rest => coins p + total_coins rest
  end.

Definition wealth (g : Game) : Z := treasury g + total_coins (player_list g).

(** Coins of the participant at a seat (0 for no seat). *)
Definition coins_at (g : Game) (seat : nat) : Z :=
  match player_list g !! seat with
  | Some p => coins p
  | None => 0
  end.

Definition treasury_nonneg (g : Game) : Prop := 0 ≤ treasury g.

Definition counter_nonneg (g : Game) : Prop := 0 ≤ actions_remaining g.

(** No turn-start income can overflow: the balances are below [INT_MAX]. *)
Definition room_for_income (g : Game) : Prop :=
  treasury g ≤ INT_MAX ∧ Forall (λ p, coins p < INT_MAX) (player_list g).

(** The turn pointer is [n] and [c] actions remain. *)
Definition turn_state (n : nat) (c : Z) (g : Game) : Prop :=
  current_turn g = n ∧ actions_remaining g = c.

(** The arrest record of the match names [n]. *)
Definition recorded (n : string) (g : Game) : Prop :=
  last_arrested_player g = n.

(** ** The turn-transition algorithm, after the words of the spec

    (1) at most one active participant: nothing changes; (3) the departing
    participant loses the sanctioned and arrest-blocked flags; (4) the
    pointer moves circularly to the next seat whose occupant is active and
    stops when it is back at the start; (5) a new active participant gets
    its turn-begin hook and the action counter is reset to 1.  Step (2)
    only writes a diagnostic. *)

Definition active_participants (l : list Player) : nat :=
  length (filter (λ p, active p = true) l).

Definition seat_active (l : list Player) (i : nat) : bool :=
  match l !! i with
  | Some p => active p
  | None => false
  end.

(** The seats that follow [start] in circular order, [start] excluded. *)
Definition seats_after (l : list Player) (start : nat) : list nat :=
  map (λ d, ((start + d) mod length l)%nat) (seq 1 (length l - 1)).

Definition next_active_seat (l : list Player) (start : nat) : option nat :=
  List.find (seat_active l) (seats_after l start).

Definition clear_flags (p : Player) : Player :=
  with_arrest_blocked false (with_sanctioned false p).

(** Turn-begin hook: a Merchant holding 3 coins or more takes 1 coin from a
    treasury that has one. *)
Definition turn_begin_hook (seat : nat) (g : Game) : Game :=
  match player_list g !! seat with
  | Some p =>
      match kind p with
      | Merchant =>
          if (3 <=? coins p) && (1 <=? treasury g) then
            with_player_list
              (alter (λ q, with_coins (coins q + 1) q) seat (player_list g))
              (with_treasury (treasury g - 1) g)
          else g
      | _ => g
      end
  | None => g
  end.

Definition advance_turn_spec (g : Game) : Game :=
  if (active_participants (player_list g) <=? 1)%nat then g
  else
    let departing := current_turn g in
    let g1 :=
      with_player_list (alter clear_flags departing (player_list g)) g in
    match next_active_seat (player_list g1) departing with
    | Some seat =>
        with_actions_remaining 1
          (turn_begin_hook seat (with_current_turn seat g1))
    | None => g1
    end.

(** The end of a committed action: one action is consumed if one is left,
    and the turn is passed on when none remains. *)
Definition after_action (g : Game) : Game :=
  let g1 :=
    if 0 <? actions_remaining g then
      with_actions_remaining (actions_remaining g - 1) g
    else g in
  if actions_remaining g1 =? 0 then advance_turn_spec g1 else g1.

(** ** Sessions *)

(** A sequence of committed actions: every action of the list returns. *)
Fixpoint commit_all (actions : list (string * nat * option nat)) : M unit :=
  match actions with
  | [] => ret tt
  | (action, actor, target) :: rest =>
      performAction action actor target ;;;
      commit_all rest
  end.

(** The actions that take a turn action: the six core actions but Bribe,
    and the Baron's investment. *)
Inductive turn_action : M unit → Prop :=
  | turn_action_gather this : turn_action (gather this)
  | turn_action_tax this : turn_action (tax this)
  | turn_action_arrest this target : turn_action (arrest this target)
  | turn_action_sanction this target : turn_action (sanction this target)
  | turn_action_coup this target : turn_action (coup this target)
  | turn_action_invest this : turn_action (invest this).

(** The commands of the engine, as the presentation layer issues them:
    seating a player, starting the match, committing an action, the two
    free operations of the Spy (reached through a dynamic cast to [Spy]),
    countering a pending action, and ending the turn by hand. *)
Inductive Command : Type :=
  | AddPlayer (k : Role) (n : string)
  | StartGame
  | Commit (action : string) (actor : nat) (target : option nat)
  | Investigate (spy target : nat)
  | BlockArrest (spy target : nat)
  | Block (action : string) (actor blocker : nat)
  | EndTurn.

Definition execute (c : Command) : M unit :=
  match c with
  | AddPlayer k n => add_player (new_player k n)
  | StartGame => start_game
  | Commit action actor target => performAction action actor target
  | Investigate spy target =>
      p <- deref spy ;;
      match kind p with
      | Spy => investigate spy target
      | _ => undefined
      end
  | BlockArrest spy target =>
      p <- deref spy ;;
      match kind p with
      | Spy => block_arrest_ability spy target
      | _ => ret tt
      end
  | Block action actor blocker => onBlockClicked action actor blocker
  | EndTurn => next_turn
  end.

(** A command leaves the match in the state of its return, or in the state
    in which its exception was thrown. *)
Inductive reachable : Game → Prop :=
  | reachable_new : reachable new_game
  | reachable_return g c g' :
      reachable g → execute c g = Ret tt g' → reachable g'
  | reachable_throw g c e g' :
      reachable g → execute c g = Throw e g' → reachable g'.

(** Commands issued one after the other, each returning. *)
Fixpoint play (commands : list Command) : M unit :=
  match commands with
  | [] => ret tt
  | c :: rest =>
      execute c ;;;
      play rest
  end.

(** ** Reasoning about member functions *)

(** Weakest precondition of a member function: [Q] holds on return, [E]
    when an exception propagates and [U] if the run is undefined. *)
Definition wp {A} (m : M A) (Q : A → Game → Prop) (E : Exn → Game → Prop)
    (U : Prop) (g : Game) : Prop :=
  match m g with
  | Ret a g' => Q a g'
  | Throw e g' => E e g'
  | Undefined => U
  end.

(** A computation keeps the state predicate [I], in the state it returns
    and in the state in which an exception leaves it. *)
Definition preserves (I : Game → Prop) {A} (m : M A) : Prop :=
  ∀ g, I g → wp m (λ _ g', I g') (λ _ g', I g') True g.

(** A computation keeps the coins of the system and a non-negative
    treasury, whenever it returns. *)
Definition conserves {A} (m : M A) : Prop :=
  ∀ g, wp m (λ _ g', wealth g' = wealth g
                     ∧ (0 ≤ treasury g → 0 ≤ treasury g'))
            (λ _ _, True) True g.

(** A computation that, when it returns, has closed with [end_of_action]
    from a state with the turn pointer of the start and [k] actions more. *)
Definition ends_action (k : Z) (m : M unit) : Prop :=
  ∀ g, wp m (λ _ g', ∃ g1, current_turn g1 = current_turn g
                           ∧ actions_remaining g1 = actions_remaining g + k
                           ∧ g' = after_action g1)
            (λ _ _, True) True g.

(** ** Example matches *)

(** An active player without status effects. *)
Definition seat (k : Role) (n : string) (c : Z) : Player :=
  mkPlayer n c true false "" false k.

(** Scenario A: Alice (Governor) and Bob (Spy) sit down, the match starts
    and Alice taxes. *)
Definition scenario_a : list Command :=
  [AddPlayer Governor "Alice"; AddPlayer Spy "Bob"; StartGame;
   Commit "Tax" 0%nat None].

(** Scenario B: a Baron holding 3 coins, on turn, in front of a full
    treasury. *)
Definition baron_to_invest : Game :=
  mkGame [seat Baron "Bea" 3; seat Spy "Sam" 0] 0 true 50 "" 1.

(** Scenario C: a Spy holding 4 coins, on turn, opposite a Baron. *)
Definition spy_faces_baron : Game :=
  mkGame [seat Baron "Bea" 6; seat Spy "Sam" 4] 1 true 47 "" 1.

(** Scenario D: two seats; the Governor can pay the Coup that decides the
    match. *)
Definition duel_before_coup : Game :=
  mkGame [seat Governor "Gia" 7; seat Spy "Sam" 0] 0 true 43 "" 1.

(** The match after that Coup: one active participant, no action left. *)
Definition duel_decided : Game :=
  mkGame [seat Governor "Gia" 0; with_active false (seat Spy "Sam" 0)]
         0 true 50 "" 0.

(** Scenario E: a Spy on turn opposite a Merchant holding exactly 2 coins. *)
Definition spy_faces_merchant : Game :=
  mkGame [seat Spy "Sam" 2; seat Merchant "Mia" 2] 0 true 46 "" 1.

(** A Spy holding exactly 3 coins, on turn, opposite a Judge. *)
Definition spy_faces_judge : Game :=
  mkGame [seat Spy "Sam" 3; seat Judge "Jo" 0] 0 true 47 "" 1.

(** A Governor holding 10 coins, on turn. *)
Definition rich_governor : Game :=
  mkGame [seat Governor "Gia" 10; seat Spy "Sam" 0] 0 true 40 "" 1.

(** An eliminated Governor who still holds 10 coins. *)
Definition eliminated_rich : Game :=
  mkGame [with_active false (seat Governor "Gia" 10); seat Spy "Sam" 0;
          seat Baron "Bea" 0] 1 true 40 "" 1.

(** Three seats; the Governor on turn is sanctioned and arrest-blocked, the
    Merchant after them holds 3 coins. *)
Definition table_of_three : Game :=
  mkGame [mkPlayer "Gia" 2 true true "" true Governor;
          seat Merchant "Mia" 3; seat Spy "Sam" 1] 0 true 44 "" 1.

(** A Governor who can pay a Coup, on turn; the Merchant next to them
    qualifies for the turn-start income. *)
Definition coup_table : Game :=
  mkGame [seat Governor "Gia" 8; seat Merchant "Mia" 4; seat Spy "Sam" 2]
         0 true 36 "" 1.

(** The Spy on turn; "Jo" was the target of the latest arrest. *)
Definition jo_just_arrested : Game :=
  mkGame [seat Spy "Sam" 3; seat Judge "Jo" 2; seat Baron "Bea" 1]
         0 true 44 "Jo" 1.

(** * Further specification-side definitions *)

(** ** State predicates *)

(** The roster holds at most six players, and two at least once the match
    has started. *)
Definition roster_ok (g : Game) : Prop :=
  (length (player_list g) ≤ 6)%nat
  ∧ (game_started g = true → (2 ≤ length (player_list g))%nat).

(** The state is far from the limits of [int], and the turn pointer
    designates a seat: no operation of the engine is undefined. *)
Definition LIMIT : Z := 1000000000.

Definition playable (g : Game) : Prop :=
  turn_in_range g
  ∧ - LIMIT ≤ treasury g ≤ LIMIT
  ∧ - LIMIT ≤ actions_remaining g ≤ LIMIT
  ∧ Forall (λ p, - LIMIT ≤ coins p ≤ LIMIT) (player_list g).

(** ** What the actions do

    For each action, the state that it builds before it closes with
    [end_of_action].  [p] is the actor and [q] the target. *)

(** The checks of [Player::validate_action]. *)
Definition may_act (g : Game) (this : nat) (p : Player) : bool :=
  active p && (current_turn g =? this)%nat && game_started g.

Definition set_coins (seat : nat) (c : Z) (g : Game) : Game :=
  with_player_list (alter (with_coins c) seat (player_list g)) g.

Definition gather_post (g : Game) (this : nat) (p : Player) : Game :=
  set_coins this (coins p + 1) (with_treasury (treasury g - 1) g).

Definition tax_amount (p : Player) : Z :=
  match kind p with Governor => 3 | _ => 2 end.

Definition tax_post (g : Game) (this : nat) (p : Player) : Game :=
  set_coins this (coins p + tax_amount p)
    (with_treasury (treasury g - tax_amount p) g).

Definition bribe_post (g : Game) (this : nat) (p : Player) : Game :=
  with_actions_remaining (actions_remaining g + 2)
    (with_treasury (treasury g + 4) (set_coins this (coins p - 4) g)).

Definition arrest_post (g : Game) (this target : nat) (p q : Player)
  : Game :=
  with_last_arrested_player (name q)
    match kind q with
    | General => g
    | Merchant =>
        if 0 <? coins q then
          with_treasury (treasury g + Z.min (coins q) 2)
            (set_coins target (coins q - Z.min (coins q) 2) g)
        else g
    | _ =>
        if 0 <? coins q then
          set_coins this (coins p + 1) (set_coins target (coins q - 1) g)
        else g
    end.

Definition sanction_cost (q : Player) : Z :=
  match kind q with Judge => 4 | _ => 3 end.

Definition sanction_post (g : Game) (this target : nat) (p q : Player)
  : Game :=
  let g1 :=
    with_treasury (treasury g + sanction_cost q)
      (set_coins this (coins p - sanction_cost q) g) in
  let g2 :=
    match kind q with
    | Baron =>
        if 1 <=? treasury g1 then
          set_coins target (coins q + 1)
            (with_treasury (treasury g1 - 1) g1)
        else g1
    | _ => g1
    end in
  with_player_list
    (alter (with_sanctioned true) target (player_list g2)) g2.

Definition coup_post (g : Game) (this target : nat) (p : Player) : Game :=
  let g1 :=
    with_treasury (treasury g + 7) (set_coins this (coins p - 7) g) in
  with_player_list (alter (with_active false) target (player_list g1)) g1.

Definition invest_post (g : Game) (this : nat) (p : Player) : Game :=
  set_coins this (coins p - 3 + 6)
    (with_treasury (treasury g + 3 - 6) (set_coins this (coins p - 3) g)).

(** The Spy blocks the arrests of the target. *)
Definition block_arrest_post (g : Game) (target : nat) : Game :=
  with_player_list
    (alter (with_arrest_blocked true) target (player_list g)) g.

(** ** The exception of an action

    The exception that each action raises, [None] when it commits: the
    checks of the source in their order, the first failing one decides. *)

Definition or_else (a b : option Exn) : option Exn :=
  match a with
  | Some e => Some e
  | None => b
  end.

Definition act_error (g : Game) (this : nat) (p : Player) : option Exn :=
  if negb (active p) then
    Some (IllegalMoveException "Player is not active")
  else if negb (current_turn g =? this)%nat then
    Some (NotYourTurnException "Not your turn")
  else if negb (game_started g) then
    Some (GameException "Game has not started")
  else None.

Definition target_error (q : Player) : option Exn :=
  if negb (active q) then
    Some (IllegalTargetException "Target player is not active")
  else None.

Definition coins_error (p : Player) (required : Z) : option Exn :=
  if coins p <? required then
    Some (NotEnoughCoinsException "Not enough coins for action")
  else None.

Definition treasury_error (g : Game) (amount : Z) : option Exn :=
  if treasury g <? amount then
    Some (GameException "Not enough coins in treasury")
  else None.

Definition sanctioned_error (p : Player) : option Exn :=
  if sanctioned p then Some (IllegalMoveException "Player is under sanctions")
  else None.

Definition self_error (this target : nat) (message : string) : option Exn :=
  if (target =? this)%nat then Some (IllegalTargetException message)
  else None.

Definition gather_error (g : Game) (this : nat) (p : Player) : option Exn :=
  or_else (act_error g this p)
    (or_else (sanctioned_error p) (treasury_error g 1)).

Definition tax_error (g : Game) (this : nat) (p : Player) : option Exn :=
  or_else (act_error g this p)
    (or_else (sanctioned_error p) (treasury_error g (tax_amount p))).

Definition bribe_error (g : Game) (this : nat) (p : Player) : option Exn :=
  or_else (act_error g this p) (coins_error p 4).

Definition arrest_error (g : Game) (this target : nat) (p q : Player)
  : option Exn :=
  or_else (act_error g this p)
    (or_else (target_error q)
       (or_else (self_error this target "Cannot arrest yourself")
          (if arrest_blocked p then
             Some (IllegalMoveException
                     "You are blocked from using arrest this turn")
           else if String.eqb (last_arrested_player g) (name q) then
             Some (IllegalMoveException
                     "Cannot arrest the same player twice in a row")
           else None))).

Definition sanction_error (g : Game) (this target : nat) (p q : Player)
  : option Exn :=
  or_else (act_error g this p)
    (or_else (target_error q)
       (or_else (self_error this target "Cannot sanction yourself")
          (coins_error p (sanction_cost q)))).

Definition coup_error (g : Game) (this target : nat) (p q : Player)
  : option Exn :=
  or_else (act_error g this p)
    (or_else (target_error q)
       (or_else (coins_error p 7)
          (self_error this target "Cannot coup yourself"))).

Definition invest_error (g : Game) (this : nat) (p : Player)
  : option Exn :=
  or_else (act_error g this p)
    (or_else (coins_error p 3)
       (if treasury g <? 6 then
          Some (IllegalMoveException
                  "Treasury doesn't have enough coins for investment return")
        else None)).

Definition spy_error (g : Game) (this target : nat) (p q : Player)
    (message : string) : option Exn :=
  or_else (act_error g this p)
    (or_else (target_error q) (self_error this target message)).

(** The treasury has changed by [delta]; one more coin has left it if the
    action has passed the turn to a Merchant who takes the turn-start
    income. *)
Definition treasury_moved (g g' : Game) (delta : Z) : Prop :=
  treasury g' = treasury g + delta
  ∨ (treasury g' = treasury g + delta - 1
     ∧ current_turn g' ≠ current_turn g
     ∧ ∃ m, player_list g' !! current_turn g' = Some m ∧ kind m = Merchant).

(** ** How a seat changes over time

    The player at a seat keeps name and role, does not come back once
    eliminated, and does not fall into debt. *)
Definition evolves (p p' : Player) : Prop :=
  name p' = name p ∧ kind p' = kind p
  ∧ (active p = false → active p' = false)
  ∧ (0 ≤ coins p → 0 ≤ coins p').

(** Coins have gone from players to the treasury, and nothing else has
    happened. *)
Definition paid_in (g g' : Game) : Prop :=
  wealth g' = wealth g ∧ treasury g ≤ treasury g'
  ∧ Forall2 evolves (player_list g) (player_list g')
  ∧ current_turn g' = current_turn g
  ∧ game_started g' = game_started g
  ∧ last_arrested_player g' = last_arrested_player g
  ∧ actions_remaining g' = actions_remaining g.

(** ** The verdict of the validator, as a function of the state

    The checks of [ActionValidator::getValidationResult] in their order;
    [p] is the actor. *)

Definition must_coup (action : string) (p : Player) : bool :=
  (10 <=? coins p) && negb (String.eqb action "Coup")
  && negb (String.eqb action "End Turn").

Definition coin_verdict (action : string) (p : Player) : ValidationResult :=
  if String.eqb action "Sanction" && (getActionCost action =? 3) then
    if coins p <? 3 then invalid "Need at least 3 coins for sanction"
    else valid
  else if (0 <? getActionCost action) && (coins p <? getActionCost action)
  then
    invalid ("Need " ++ to_string (getActionCost action) ++ " coins for "
             ++ action)%string
  else valid.

Definition role_verdict (action : string) (p : Player) : ValidationResult :=
  if (String.eqb action "Gather" || String.eqb action "Tax")
     && sanctioned p then
    invalid "You are under sanctions and cannot gather or tax"
  else if String.eqb action "Arrest" && arrest_blocked p then
    invalid "Your arrest ability is blocked this turn"
  else if String.eqb action "Invest"
          && negb (String.eqb (role p) "Baron") then
    invalid "Only Baron can invest"
  else if String.eqb action "Investigate"
          && negb (String.eqb (role p) "Spy") then
    invalid "Only Spy can investigate"
  else if String.eqb action "Block Arrest"
          && negb (String.eqb (role p) "Spy") then
    invalid "Only Spy can block arrest abilities"
  else valid.

Definition target_verdict (g : Game) (action : string) (actor : nat)
    (target : option nat) : ValidationResult :=
  match target with
  | None => invalid ("Target required for " ++ action)%string
  | Some t =>
      if negb (seat_active (player_list g) t) then
        invalid "Target player is not active"
      else if (actor =? t)%nat then
        invalid ("Cannot target yourself with " ++ action)%string
      else valid
  end.

(** The checks that the button of an action and its validation share. *)
Definition button (g : Game) (action : string) (actor : nat) (p : Player)
  : bool :=
  negb (must_coup action p) && active p
  && (current_turn g =? actor)%nat && game_started g
  && isValid (coin_verdict action p) && isValid (role_verdict action p).

Definition verdict (g : Game) (action : string) (actor : nat)
    (target : option nat) (p : Player) : ValidationResult :=
  if must_coup action p then
    invalid "Must perform coup when having 10 or more coins"
  else if negb (active p) then invalid "Player is not active"
  else if negb (current_turn g =? actor)%nat then invalid "Not your turn"
  else if negb (game_started g) then invalid "Game has not started"
  else if negb (isValid (coin_verdict action p)) then coin_verdict action p
  else if negb (isValid (role_verdict action p)) then role_verdict action p
  else if requiresTarget action
          && negb (isValid (target_verdict g action actor target)) then
    target_verdict g action actor target
  else valid.

(** The seat of a target, if one is given, exists. *)
Definition target_seated (g : Game) (target : option nat) : Prop :=
  ∀ t, target = Some t → is_Some (player_list g !! t).

(** The exception that [validateActionExecution] raises, [None] when it
    returns: the class goes with the check that fails. *)
Definition validation_exception (g : Game) (action : string) (actor : nat)
    (target : option nat) (p : Player) : option Exn :=
  if must_coup action p then
    Some (NotEnoughCoinsException
            "Must perform coup when having 10 or more coins")
  else if negb (active p) then
    Some (IllegalMoveException "Player is not active")
  else if negb (current_turn g =? actor)%nat then
    Some (NotYourTurnException "Not your turn")
  else if negb (game_started g) then
    Some (GameException "Game has not started")
  else if negb (isValid (coin_verdict action p)) then
    Some (NotEnoughCoinsException (errorMessage (coin_verdict action p)))
  else if negb (isValid (role_verdict action p)) then
    if String.eqb action "Arrest" then
      Some (NotYourTurnException (errorMessage (role_verdict action p)))
    else
      Some (IllegalMoveException (errorMessage (role_verdict action p)))
  else if requiresTarget action
          && negb (isValid (target_verdict g action actor target)) then
    Some (IllegalTargetException
            (errorMessage (target_verdict g action actor target)))
  else None.

(** The checks that the engine makes and the validator does not. *)
Definition engine_only (g : Game) (action : string) (p : Player)
    (target : option nat) : Prop :=
  (action = "Gather" → 1 ≤ treasury g)
  ∧ (action = "Tax" → tax_amount p ≤ treasury g)
  ∧ (action = "Invest" → 6 ≤ treasury g)
  ∧ (action = "Arrest" →
     ∀ t q, target = Some t → player_list g !! t = Some q →
            last_arrested_player g ≠ name q)
  ∧ (action = "Sanction" →
     ∀ t q, target = Some t → player_list g !! t = Some q →
            kind q = Judge → 4 ≤ coins p).

(** The actions that [GUI::performAction] commits. *)
Definition committable (action : string) : Prop :=
  action = "Gather" ∨ action = "Tax" ∨ action = "Bribe"
  ∨ action = "Invest" ∨ action = "Arrest" ∨ action = "Sanction"
  ∨ action = "Coup".

(** ** Countering an action *)

(** The player [p] can counter the action: the answer of [can_block]. *)
Definition counters (p : Player) (action : string) : bool :=
  match kind p with
  | Governor => String.eqb (transform tolower action) "tax"
  | General => String.eqb (transform tolower action) "coup" && (5 <=? coins p)
  | Judge => String.eqb (transform tolower action) "bribe"
  | Spy | Baron | Merchant => false
  end.

(** The seat is not the one of [actor], and its player is active and can
    counter the action. *)
Definition blocks (g : Game) (action : string) (actor seat : nat) : bool :=
  negb (seat =? actor)%nat
  && match player_list g !! seat with
     | Some p => active p && counters p action
     | None => false
     end.

(** The seats that are asked whether they counter the action of [actor]. *)
Definition blockers_of (g : Game) (action : string) (actor : nat)
  : list nat :=
  filter (λ seat, blocks g action actor seat = true)
    (seq 0 (length (player_list g))).

(** Two characters that are the same letter, in either case, and two
    names that differ in the case of their letters only. *)
Definition same_letter (c d : ascii) : Prop :=
  c = d
  ∨ ((65 ≤ nat_of_ascii c ≤ 90)%nat
     ∧ nat_of_ascii d = (nat_of_ascii c + 32)%nat)
  ∨ ((65 ≤ nat_of_ascii d ≤ 90)%nat
     ∧ nat_of_ascii c = (nat_of_ascii d + 32)%nat).

Fixpoint same_ignoring_case (a b : string) : Prop :=
  match a, b with
  | EmptyString, EmptyString => True
  | String c a', String d b' => same_letter c d ∧ same_ignoring_case a' b'
  | _, _ => False
  end.

(** The seat pays [n] coins to the treasury, if it holds them. *)
Definition pay (seat : nat) (n : Z) (g : Game) : Game :=
  match player_list g !! seat with
  | Some p =>
      if coins p <? n then g
      else with_treasury (treasury g + n) (set_coins seat (coins p - n) g)
  | None => g
  end.

Definition can_pay (seat : nat) (n : Z) (g : Game) : bool :=
  match player_list g !! seat with
  | Some p => n <=? coins p
  | None => false
  end.

(** The payments of a countered action: the actor loses the price of the
    action, and the General who counters a Coup pays 5 coins, unless the
    actor could not pay. *)
Definition block_post (g : Game) (action : string) (actor blocker : nat)
  : Game :=
  if String.eqb action "Bribe" then pay actor 4 g
  else if String.eqb action "Sanction" then pay actor 3 g
  else if String.eqb action "Coup" then
    if can_pay actor 7 g then
      let g1 := pay actor 7 g in
      match player_list g1 !! blocker with
      | Some b =>
          match kind b with
          | General => pay blocker 5 g1
          | _ => g1
          end
      | None => g1
      end
    else g
  else g.

(** The balances of a playable match, after payments of [b] coins at most
    to the treasury. *)
Definition bounded (b : Z) (g : Game) : Prop :=
  turn_in_range g
  ∧ - LIMIT ≤ treasury g ≤ LIMIT + b
  ∧ Forall (λ p, - LIMIT ≤ coins p ≤ LIMIT) (player_list g).

(** A Governor who can pay a Coup, opposite a General who can pay to
    counter it. *)
Definition general_counters : Game :=
  mkGame [seat Governor "Gia" 7; seat General "Gus" 5; seat Spy "Sam" 1]
         0 true 37 "" 1.

(** ** Matches that the interface sets up and plays *)

Definition started (g : Game) : Prop := game_started g = true.

(** The commands that the interface issues once the setup is over. *)
Definition in_game (c : Command) : bool :=
  match c with
  | AddPlayer _ _ | StartGame => false
  | _ => true
  end.

(** The states of the interface and of the match that a session reaches:
    the events of the setup phase, and then the clicks, each with the
    command that it gives to the engine. *)
Inductive gui_reachable : Setup → Game → Prop :=
  | gui_new : gui_reachable (mkSetup "" true) new_game
  | gui_text s g unicode role_index s' g' :
      gui_reachable s g →
      handleEvents_TextEntered unicode role_index s g = Ret s' g' →
      gui_reachable s' g'
  | gui_space s g s' g' :
      gui_reachable s g →
      handleEvents_Space s g = Ret s' g' →
      gui_reachable s' g'
  | gui_return s g c g' :
      gui_reachable s g → isSetupPhase s = false → in_game c = true →
      execute c g = Ret tt g' →
      gui_reachable s g'
  | gui_throw s g c e g' :
      gui_reachable s g → isSetupPhase s = false → in_game c = true →
      execute c g = Throw e g' →
      gui_reachable s g'.

(** What holds of every such state. *)
Definition names_ok (s : Setup) (g : Game) : Prop :=
  NoDup (map name (player_list g))
  ∧ ("" ∉ map name (player_list g))
  ∧ (length (player_list g) ≤ 6)%nat
  ∧ (if isSetupPhase s then
       game_started g = false ∧ (length (player_list g) < 6)%nat
     else game_started g = true ∧ (2 ≤ length (player_list g))%nat).

(** The match after "A" and "B" have been typed in, with the roles drawn
    as 0 and 1, and the space key has started it. *)
Definition typed_in : Game :=
  with_game_started true
    (with_player_list [new_player Governor "A"; new_player Spy "B"] new_game).

(** * Verification *)

(** ** The scenarios of the spec, run on the model *)

(** Scenario A: after Alice's tax she holds 3 coins, the treasury 47, and
    the turn is Bob's. *)
Example scenario_a_runs :
  play scenario_a new_game
  = Ret tt (mkGame [seat Governor "Alice" 3; seat Spy "Bob" 0] 1 true 47 "" 1).
Proof. by vm_compute. Qed.

(** Scenario B: the Baron ends with 6 coins, the treasury with 47. *)
Example scenario_b_runs :
  invest 0 baron_to_invest
  = Ret tt (mkGame [seat Baron "Bea" 6; seat Spy "Sam" 0] 1 true 47 "" 1).
Proof. by vm_compute. Qed.

(** Scenario C: the Spy pays 3, the Baron gains 1, the treasury nets 2. *)
Example scenario_c_runs :
  sanction 1 0 spy_faces_baron
  = Ret tt (mkGame [with_sanctioned true (seat Baron "Bea" 7);
                    seat Spy "Sam" 1] 0 true 49 "" 1).
Proof. by vm_compute. Qed.

(** Scenario D: the Coup leaves one active participant, who wins. *)
Example scenario_d_runs :
  coup 0 1 duel_before_coup = Ret tt duel_decided
  ∧ is_game_over duel_decided = Ret true duel_decided
  ∧ winner duel_decided = Ret "Gia" duel_decided.
Proof. by vm_compute. Qed.

(** Scenario E: the Merchant pays exactly 2 coins to the treasury and the
    arrester gains nothing. *)
Example scenario_e_runs :
  arrest 0 1 spy_faces_merchant
  = Ret tt (mkGame [seat Spy "Sam" 2; seat Merchant "Mia" 0] 1 true 48
                   "Mia" 1).
Proof. by vm_compute. Qed.

(** ** Running the monad *)

Lemma bind_run {A B} (m : M A) (f : A → M B) g a g' :
  m g = Ret a g' → bind m f g = f a g'.
Proof. unfold bind. by intros ->. Qed.

Lemma deref_run g p x : player_list g !! p = Some x → deref p g = Ret x g.
Proof. unfold deref. by intros ->. Qed.

Section Readers.
Context (g : Game) (this : nat) (p : Player).
Hypothesis Hthis : player_list g !! this = Some p.

Lemma get_name_run : get_name this g = Ret (name p) g.
Proof. unfold get_name. by rewrite (bind_run _ _ _ _ _ (deref_run _ _ _ Hthis)). Qed.
Lemma get_coins_run : get_coins this g = Ret (coins p) g.
Proof. unfold get_coins. by rewrite (bind_run _ _ _ _ _ (deref_run _ _ _ Hthis)). Qed.
Lemma is_active_run : is_active this g = Ret (active p) g.
Proof. unfold is_active. by rewrite (bind_run _ _ _ _ _ (deref_run _ _ _ Hthis)). Qed.
Lemma is_sanctioned_run : is_sanctioned this g = Ret (sanctioned p) g.
Proof. unfold is_sanctioned. by rewrite (bind_run _ _ _ _ _ (deref_run _ _ _ Hthis)). Qed.
Lemma is_arrest_blocked_run :
  is_arrest_blocked this g = Ret (arrest_blocked p) g.
Proof. unfold is_arrest_blocked. by rewrite (bind_run _ _ _ _ _ (deref_run _ _ _ Hthis)). Qed.
Lemma get_role_run : get_role this g = Ret (role p) g.
Proof. unfold get_role. by rewrite (bind_run _ _ _ _ _ (deref_run _ _ _ Hthis)). Qed.
End Readers.

Lemma is_player_turn_run g player :
  turn_in_range g →
  is_player_turn player g = Ret (current_turn g =? player)%nat g.
Proof.
  unfold turn_in_range, is_player_turn, bind, get. intros Hlt.
  destruct (player_list g) as [|x l] eqn:El; [simpl in Hlt; lia|].
  rewrite <- El in *. destruct (lookup_lt_is_Some_2 _ _ Hlt) as [y Hy].
  by rewrite (deref_run _ _ _ Hy).
Qed.

Lemma validatePlayerState_run g player p :
  player_list g !! player = Some p →
  validatePlayerState player g
  = Ret (if negb (active p) then invalid "Player is not active" else valid) g.
Proof.
  intros Hp. unfold validatePlayerState.
  rewrite (bind_run _ _ _ _ _ (is_active_run _ _ _ Hp)). by destruct (active p).
Qed.

Lemma validateGameState_run g player :
  turn_in_range g →
  validateGameState player g
  = Ret (if negb (current_turn g =? player)%nat then invalid "Not your turn"
         else if negb (game_started g) then invalid "Game has not started"
         else valid) g.
Proof.
  intros Hr. unfold validateGameState.
  rewrite (bind_run _ _ _ _ _ (is_player_turn_run _ _ Hr)).
  destruct (current_turn g =? player)%nat; [|done]. simpl.
  unfold try_catch, validate_game_state, bind, get. by destruct (game_started g).
Qed.

(** ** Rules of the weakest precondition *)

Section WpRules.
Context {A B : Type}.
Implicit Types (Q : A → Game → Prop) (E : Exn → Game → Prop) (U : Prop).

Lemma wp_ret (a : A) Q E U g : Q a g → wp (ret a) Q E U g.
Proof. done. Qed.

Lemma wp_throw (e : Exn) Q E U g : E e g → wp (throw e) Q E U g.
Proof. done. Qed.

Lemma wp_bind (m : M B) (f : B → M A) Q E U g :
  wp m (λ b g', wp (f b) Q E U g') E U g → wp (bind m f) Q E U g.
Proof. unfold wp, bind. by destruct (m g). Qed.

Lemma wp_mono (m : M A) Q Q' E E' (U U' : Prop) g :
  wp m Q E U g →
  (∀ a g', Q a g' → Q' a g') → (∀ e g', E e g' → E' e g') → (U → U') →
  wp m Q' E' U' g.
Proof. unfold wp. destruct (m g); eauto. Qed.

Lemma wp_Ret (m : M A) Q E U g a g' :
  wp m Q E U g → m g = Ret a g' → Q a g'.
Proof. unfold wp. intros H Heq. by rewrite Heq in H. Qed.

Lemma wp_Throw (m : M A) Q E U g e g' :
  wp m Q E U g → m g = Throw e g' → E e g'.
Proof. unfold wp. intros H Heq. by rewrite Heq in H. Qed.

Lemma wp_throws (m : M A) E g :
  wp m (λ _ _, False) E False g → ∃ e g', m g = Throw e g' ∧ E e g'.
Proof. unfold wp. destruct (m g); naive_solver. Qed.
End WpRules.

Lemma wp_get Q E U g : Q g g → wp get Q E U g.
Proof. done. Qed.

Lemma wp_put g' Q E U g : Q tt g' → wp (put g') Q E U g.
Proof. done. Qed.

Lemma wp_deref p Q E U g :
  match player_list g !! p with Some x => Q x g | None => U end →
  wp (deref p) Q E U g.
Proof. unfold wp, deref. by destruct (player_list g !! p). Qed.

Lemma wp_assign p f Q E U g :
  match player_list g !! p with
  | Some _ => Q tt (with_player_list (alter f p (player_list g)) g)
  | None => U
  end →
  wp (assign p f) Q E U g.
Proof. unfold wp, assign. by destruct (player_list g !! p). Qed.

Lemma wp_int_result z Q E U g :
  (if in_int z then Q z g else U) → wp (int_result z) Q E U g.
Proof. unfold wp, int_result. by destruct (in_int z). Qed.

(** ** The search for the next active seat, as the loop runs it *)

Lemma count_active_spec l : count_active l = Z.of_nat (active_participants l).
Proof.
  unfold active_participants. induction l as [|p l IH]; [done|].
  simpl. rewrite filter_cons. destruct (active p) eqn:Ea.
  - rewrite decide_True by done. simpl length. lia.
  - rewrite decide_False by congruence. done.
Qed.

Lemma mod_lt_twice (x n : nat) :
  (0 < n)%nat → (x < 2 * n)%nat →
  (x mod n = if (x <? n)%nat then x else x - n)%nat.
Proof.
  intros Hn Hx. destruct (Nat.ltb_spec x n).
  - by apply Nat.mod_small.
  - symmetry. apply (Nat.mod_unique x n 1); lia.
Qed.

Lemma find_next_active_run fuel start : ∀ g d,
  let l := player_list g in
  (start < length l)%nat → (d < length l)%nat →
  current_turn g = ((start + d) mod length l)%nat →
  (length l ≤ fuel + d)%nat →
  find_next_active fuel start g
  = Ret tt (with_current_turn
              (default start
                 (List.find (seat_active l)
                    (map (λ e, ((start + e) mod length l)%nat)
                         (seq (S d) (length l - 1 - d))))) g).
Proof.
  induction fuel as [|fuel IH]; intros g d l Hs Hd Hc Hf; [lia|].
  simpl. unfold bind at 1, get. unfold bind at 1, put.
  fold l. rewrite Hc.
  assert (((start + d) mod length l + 1) mod length l
          = (start + S d) mod length l)%nat as ->.
  { rewrite Nat.Div0.add_mod_idemp_l. f_equal. lia. }
  destruct (decide (S d = length l)) as [Hlast|Hmore].
  - assert ((start + S d) mod length l = start)%nat as ->.
    { rewrite mod_lt_twice by lia. destruct (Nat.ltb_spec (start + S d) (length l)); lia. }
    rewrite Nat.eqb_refl. simpl.
    replace (length l - 1 - d)%nat with 0%nat by lia. done.
  - assert ((start + S d) mod length l ≠ start)%nat as Hne.
    { rewrite mod_lt_twice by lia. destruct (Nat.ltb_spec (start + S d) (length l)); lia. }
    apply Nat.eqb_neq in Hne. rewrite Hne. cbn [negb].
    set (next := ((start + S d) mod length l)%nat).
    assert (next < length l)%nat as Hlt by (apply Nat.mod_upper_bound; lia).
    destruct (lookup_lt_is_Some_2 _ _ Hlt) as [x Hx].
    rewrite (bind_run _ _ _ _ _ (is_active_run (with_current_turn next g) next x Hx)).
    replace (length l - 1 - d)%nat with (S (length l - 1 - S d)) by lia.
    simpl seq. simpl map. simpl List.find. fold next.
    unfold seat_active at 1. rewrite Hx.
    destruct (active x); simpl.
    + done.
    + rewrite (IH (with_current_turn next g) (S d)); simpl; fold l;
        [done | lia | lia | done | lia].
Qed.

(** ** The treasury, the purses and the turn-begin hook *)

Lemma wp_run {A} (m : M A) Q E U g a g' :
  m g = Ret a g' → Q a g' → wp m Q E U g.
Proof. unfold wp. by intros ->. Qed.

Lemma wp_remove_from_treasury amount Q E U g :
  0 ≤ amount →
  (if treasury g <? amount then
     E (GameException "Not enough coins in treasury") g
   else if in_int (treasury g - amount) then
     Q tt (with_treasury (treasury g - amount) g)
   else U) →
  wp (remove_from_treasury amount) Q E U g.
Proof.
  intros Ha. unfold remove_from_treasury.
  destruct (Z.ltb_spec amount 0); [lia|].
  unfold wp, bind, get. destruct (treasury g <? amount); [done|].
  unfold int_result. by destruct (in_int _).
Qed.

Lemma wp_add_to_treasury amount Q E U g :
  0 ≤ amount →
  (if in_int (treasury g + amount) then
     Q tt (with_treasury (treasury g + amount) g)
   else U) →
  wp (add_to_treasury amount) Q E U g.
Proof.
  intros Ha. unfold add_to_treasury.
  destruct (Z.ltb_spec amount 0); [lia|].
  unfold wp, bind, get, int_result. by destruct (in_int _).
Qed.

Lemma wp_add_coins this amount p Q E U g :
  player_list g !! this = Some p →
  (if in_int (coins p + amount) then
     Q tt (with_player_list
             (alter (with_coins (coins p + amount)) this (player_list g)) g)
   else U) →
  wp (add_coins this amount) Q E U g.
Proof.
  intros Hp. unfold add_coins, wp, bind, deref, int_result, assign.
  rewrite Hp. destruct (in_int _); [|done]. simpl. by rewrite Hp.
Qed.

Lemma wp_remove_coins this amount p Q E U g :
  player_list g !! this = Some p →
  (if coins p <? amount then
     E (NotEnoughCoinsException "Not enough coins for action") g
   else if in_int (coins p - amount) then
     Q tt (with_player_list
             (alter (with_coins (coins p - amount)) this (player_list g)) g)
   else U) →
  wp (remove_coins this amount) Q E U g.
Proof.
  intros Hp. unfold remove_coins, wp, bind, deref, int_result, assign.
  rewrite Hp. destruct (coins p <? amount); [done|].
  destruct (in_int _); [|done]. simpl. by rewrite Hp.
Qed.

Lemma in_int_true z : INT_MIN ≤ z ≤ INT_MAX → in_int z = true.
Proof. unfold in_int. intros [??]. rewrite andb_true_iff, !Z.leb_le. lia. Qed.

(** The turn-begin hook of the code is the hook of the spec. *)
Lemma on_turn_start_wp seat s :
  wp (on_turn_start seat) (λ _ s', s' = turn_begin_hook seat s) (λ _ _, False)
     (∀ p, player_list s !! seat = Some p →
           ¬ (coins p < INT_MAX ∧ treasury s ≤ INT_MAX)) s.
Proof.
  unfold on_turn_start, turn_begin_hook. apply wp_bind, wp_deref.
  destruct (player_list s !! seat) as [p|] eqn:Hp; [|by intros ??].
  destruct (kind p); try by apply wp_ret.
  destruct (Z.leb_spec 3 (coins p)); [|by apply wp_ret].
  apply wp_bind. unfold get_treasury. apply wp_bind, wp_get, wp_ret.
  destruct (Z.leb_spec 1 (treasury s)); [|by apply wp_ret]. simpl.
  apply wp_bind, wp_remove_from_treasury; [done|].
  destruct (Z.ltb_spec (treasury s) 1); [lia|].
  destruct (in_int (treasury s - 1)) eqn:Ei.
  2:{ intros p' [= <-] [? ?]. rewrite in_int_true in Ei; [done|].
      unfold INT_MIN, INT_MAX in *. lia. }
  eapply wp_add_coins; [done|].
  destruct (in_int (coins p + 1)) eqn:Ec.
  2:{ intros p' [= <-] [? ?]. rewrite in_int_true in Ec; [done|].
      unfold INT_MIN, INT_MAX in *. lia. }
  simpl. unfold with_player_list, with_treasury. simpl. f_equal.
  apply list_alter_ext; [|done]. intros q Hq. simpl in Hq.
  rewrite Hp in Hq. by injection Hq as <-.
Qed.

(** ** Finding the next active seat *)

Lemma one_active l :
  (1 ≤ active_participants l)%nat →
  ∃ i p, l !! i = Some p ∧ active p = true.
Proof.
  unfold active_participants. induction l as [|x l IH]; simpl; [lia|].
  rewrite filter_cons. destruct (decide (active x = true)) as [Hx|Hx].
  - intros _. by exists 0%nat, x.
  - intros (i & p & ? & ?)%IH. by exists (S i), p.
Qed.

Lemma two_active l :
  (2 ≤ active_participants l)%nat →
  ∃ i j p q, i ≠ j ∧ l !! i = Some p ∧ active p = true
             ∧ l !! j = Some q ∧ active q = true.
Proof.
  unfold active_participants. induction l as [|x l IH]; simpl; [lia|].
  rewrite filter_cons. destruct (decide (active x = true)) as [Hx|Hx].
  - simpl. intros Hl. destruct (one_active l) as (j & q & ? & ?).
    { unfold active_participants. lia. }
    by exists 0%nat, (S j), x, q.
  - intros (i & j & p & q & ? & ? & ? & ? & ?)%IH.
    exists (S i), (S j), p, q. naive_solver.
Qed.

Lemma seats_after_elem l start k :
  (start < length l)%nat → (k < length l)%nat → k ≠ start →
  In k (seats_after l start).
Proof.
  intros Hs Hk Hne. unfold seats_after. apply in_map_iff.
  exists (if (start <? k)%nat then k - start else k + length l - start)%nat.
  destruct (Nat.ltb_spec start k).
  - split; [|apply in_seq; lia].
    replace (start + (k - start))%nat with k by lia. by apply Nat.mod_small.
  - split; [|apply in_seq; lia].
    replace (start + (k + length l - start))%nat with (k + length l)%nat by lia.
    rewrite mod_lt_twice by lia.
    destruct (Nat.ltb_spec (k + length l) (length l)); lia.
Qed.

Lemma seats_after_inv l start k :
  (start < length l)%nat → In k (seats_after l start) →
  (k < length l)%nat ∧ k ≠ start.
Proof.
  intros Hs (d & <- & [??]%in_seq)%in_map_iff.
  rewrite mod_lt_twice by lia.
  destruct (Nat.ltb_spec (start + d) (length l)); lia.
Qed.

Lemma next_active_seat_Some l start :
  (2 ≤ active_participants l)%nat → (start < length l)%nat →
  ∃ j p, next_active_seat l start = Some j ∧ j ≠ start
         ∧ l !! j = Some p ∧ active p = true.
Proof.
  intros Htwo Hs. unfold next_active_seat.
  destruct (List.find (seat_active l) (seats_after l start)) as [j|] eqn:Ef.
  - apply List.find_some in Ef as [Hin Hact].
    apply seats_after_inv in Hin as [Hj Hne]; [|done].
    unfold seat_active in Hact. destruct (l !! j) as [p|] eqn:Hp; [|done].
    by exists j, p.
  - destruct (two_active l Htwo) as (i & j & p & q & Hij & Hp & Hpa & Hq & Hqa).
    assert (∃ k r, k ≠ start ∧ l !! k = Some r ∧ active r = true)
      as (k & r & Hk & Hr & Hra).
    { destruct (decide (i = start)) as [->|]; [exists j, q|exists i, p]; done. }
    pose proof (List.find_none _ _ Ef k) as Hnone.
    unfold seat_active in Hnone. rewrite Hr in Hnone.
    rewrite Hnone in Hra; [done|].
    apply seats_after_elem; [done| |done]. by eapply lookup_lt_Some.
Qed.

Lemma get_current_player_run g x :
  player_list g !! current_turn g = Some x →
  get_current_player g = Ret (Some (current_turn g)) g.
Proof.
  intros Hx. unfold get_current_player, bind, get.
  destruct (player_list g) eqn:El; [done|].
  rewrite <- El in Hx. by rewrite (deref_run _ _ _ Hx).
Qed.

Lemma get_current_player_undefined g :
  player_list g ≠ [] → player_list g !! current_turn g = None →
  get_current_player g = Undefined.
Proof.
  intros Hne Hx. unfold get_current_player, bind, get.
  destruct (player_list g) eqn:El; [done|].
  rewrite <- El in Hx. unfold deref. by rewrite Hx.
Qed.

Lemma active_participants_alter f i l :
  (∀ p, active (f p) = active p) →
  active_participants (alter f i l) = active_participants l.
Proof.
  intros Hf. unfold active_participants.
  revert i. induction l as [|x l IH]; intros [|i]; try done.
  - change (alter f 0%nat (x :: l)) with (f x :: l).
    rewrite !filter_cons, Hf. by destruct (decide _).
  - change (alter f (S i) (x :: l)) with (x :: alter f i l).
    rewrite !filter_cons. specialize (IH i).
    destruct (decide _); cbn [length]; by rewrite IH.
Qed.

(** ** The turn transition of the code is the one of the spec *)

(** Normalises a state built from record updates. *)
Ltac gsimpl :=
  cbn [with_player_list with_current_turn with_game_started with_treasury
       with_last_arrested_player with_actions_remaining
       player_list current_turn game_started treasury last_arrested_player
       actions_remaining].

Lemma next_turn_wp g :
  wp next_turn (λ _ g', g' = advance_turn_spec g) (λ _ _, False)
     (¬ (turn_in_range g ∧ room_for_income g)) g.
Proof.
  unfold next_turn, advance_turn_spec. apply wp_bind, wp_get.
  rewrite count_active_spec.
  destruct (Nat.leb_spec (active_participants (player_list g)) 1) as [Hle|Hgt].
  { destruct (Z.leb_spec (Z.of_nat (active_participants (player_list g))) 1);
      [by apply wp_ret|lia]. }
  destruct (Z.leb_spec (Z.of_nat (active_participants (player_list g))) 1);
    [lia|].
  assert (player_list g ≠ []) as Hne.
  { intros El. rewrite El in Hgt. unfold active_participants in Hgt.
    simpl in Hgt. lia. }
  apply wp_bind.
  destruct (player_list g !! current_turn g) as [x|] eqn:Hcur.
  2:{ unfold wp. rewrite get_current_player_undefined by done.
      intros [Hr _]. apply lookup_ge_None in Hcur. unfold turn_in_range in Hr. lia. }
  eapply wp_run; [by eapply get_current_player_run|].
  apply wp_bind, wp_bind.
  unfold set_sanctioned, set_arrest_blocked.
  apply wp_assign. rewrite Hcur. apply wp_assign. simpl.
  rewrite list_lookup_alter_eq, Hcur. simpl.
  rewrite list_alter_alter_eq. gsimpl.
  change (with_arrest_blocked false ∘ with_sanctioned false) with clear_flags.
  set (l1 := alter clear_flags (current_turn g) (player_list g)).
  assert (length l1 = length (player_list g)) as Hlen by apply length_alter.
  assert (current_turn g < length l1)%nat as Hr.
  { rewrite Hlen. by eapply lookup_lt_Some. }
  apply wp_bind, wp_get. gsimpl. apply wp_bind.
  eapply wp_run.
  { apply (find_next_active_run _ _ _ 0%nat); gsimpl; try lia.
    rewrite Nat.add_0_r. symmetry. by apply Nat.mod_small. }
  gsimpl. rewrite Nat.sub_0_r.
  change (List.find _ _) with (next_active_seat l1 (current_turn g)).
  destruct (next_active_seat_Some l1 (current_turn g))
    as (j & p & -> & Hj & Hp & Hact); [|done|].
  { unfold l1. rewrite active_participants_alter; [lia|done]. }
  simpl. apply wp_bind.
  eapply wp_run; [by eapply get_current_player_run|]. simpl.
  apply wp_bind. eapply wp_run; [by eapply is_active_run|].
  rewrite Hact. apply wp_bind.
  eapply wp_mono; [apply on_turn_start_wp| | |].
  - intros _ s' ->. unfold start_turn_actions. by apply wp_bind, wp_get, wp_put.
  - done.
  - simpl. intros Hu [_ [Ht Hc]]. apply (Hu p Hp). split; [|done].
    unfold l1 in Hp. rewrite list_lookup_alter_ne in Hp by done.
    by apply (Forall_lookup_1 _ _ _ _ Hc Hp).
Qed.

Lemma end_of_action_wp g :
  wp end_of_action (λ _ g', g' = after_action g) (λ _ _, False) True g.
Proof.
  unfold end_of_action, after_action, consume_action, get_actions_remaining.
  apply wp_bind, wp_bind, wp_get.
  destruct (0 <? actions_remaining g).
  - apply wp_bind, wp_int_result. destruct (in_int _); [|done].
    apply wp_put, wp_bind, wp_bind, wp_get, wp_ret. gsimpl.
    destruct (_ =? 0); [|by apply wp_ret].
    eapply wp_mono; [apply next_turn_wp|done..].
  - apply wp_ret, wp_bind, wp_bind, wp_get, wp_ret.
    destruct (_ =? 0); [|by apply wp_ret].
    eapply wp_mono; [apply next_turn_wp|done..].
Qed.

(** ** Coins in the roster *)

Lemma total_coins_alter f i l p :
  l !! i = Some p →
  total_coins (alter f i l) = total_coins l + (coins (f p) - coins p).
Proof.
  revert i. induction l as [|x l IH]; intros [|i] Hp; try done.
  - injection Hp as ->. change (alter f 0%nat (p :: l)) with (f p :: l).
    simpl. lia.
  - change (alter f (S i) (x :: l)) with (x :: alter f i l).
    simpl. rewrite (IH i Hp). lia.
Qed.

Lemma wealth_turn_begin_hook seat g :
  wealth (turn_begin_hook seat g) = wealth g.
Proof.
  unfold turn_begin_hook.
  destruct (player_list g !! seat) as [p|] eqn:Hp; [|done].
  destruct (kind p); try done. destruct (_ && _); [|done].
  unfold wealth. gsimpl. rewrite (total_coins_alter _ _ _ _ Hp). simpl. lia.
Qed.

Lemma treasury_turn_begin_hook seat g :
  0 ≤ treasury g → 0 ≤ treasury (turn_begin_hook seat g).
Proof.
  unfold turn_begin_hook. intros Ht.
  destruct (player_list g !! seat) as [p|] eqn:Hp; [|done].
  destruct (kind p); try done.
  destruct (3 <=? coins p); [|done]. destruct (Z.leb_spec 1 (treasury g)); [|done].
  simpl. lia.
Qed.

Lemma total_coins_alter_same f i l :
  (∀ p, coins (f p) = coins p) →
  total_coins (alter f i l) = total_coins l.
Proof.
  intros Hf. revert i. induction l as [|x l IH]; intros [|i]; try done.
  - change (alter f 0%nat (x :: l)) with (f x :: l). simpl. by rewrite Hf.
  - change (alter f (S i) (x :: l)) with (x :: alter f i l).
    simpl. by rewrite IH.
Qed.

Lemma total_coins_clear_flags i l :
  total_coins (alter clear_flags i l) = total_coins l.
Proof. by apply total_coins_alter_same. Qed.

Lemma wealth_advance_turn_spec g : wealth (advance_turn_spec g) = wealth g.
Proof.
  unfold advance_turn_spec. destruct (_ <=? 1)%nat; [done|].
  gsimpl. destruct (next_active_seat _ _) as [seat|].
  - change (wealth (with_actions_remaining 1 ?s)) with (wealth s).
    rewrite wealth_turn_begin_hook. unfold wealth. gsimpl.
    by rewrite total_coins_clear_flags.
  - unfold wealth. gsimpl. by rewrite total_coins_clear_flags.
Qed.

Lemma treasury_advance_turn_spec g :
  0 ≤ treasury g → 0 ≤ treasury (advance_turn_spec g).
Proof.
  intros Ht. unfold advance_turn_spec. destruct (_ <=? 1)%nat; [done|].
  gsimpl. destruct (next_active_seat _ _) as [seat|]; [|done].
  change (treasury (with_actions_remaining 1 ?s)) with (treasury s).
  by apply treasury_turn_begin_hook.
Qed.

Lemma wealth_after_action g : wealth (after_action g) = wealth g.
Proof.
  unfold after_action. destruct (0 <? _); gsimpl;
    (destruct (_ =? 0); [by rewrite wealth_advance_turn_spec|done]).
Qed.

Lemma treasury_after_action g :
  0 ≤ treasury g → 0 ≤ treasury (after_action g).
Proof.
  intros Ht. unfold after_action. destruct (0 <? _); gsimpl;
    (destruct (_ =? 0); [by apply treasury_advance_turn_spec|done]).
Qed.

(** ** The checks that open an action read the state only *)

Lemma is_player_turn_wp player g :
  wp (is_player_turn player)
     (λ b g', g' = g ∧ (b = true → current_turn g = player))
     (λ _ _, False) True g.
Proof.
  unfold is_player_turn. apply wp_bind, wp_get.
  destruct (player_list g); [by apply wp_ret|].
  apply wp_bind, wp_deref. destruct (_ !! current_turn g); [|done].
  apply wp_ret. split; [done|]. by intros ?%Nat.eqb_eq.
Qed.

Lemma validate_action_wp this g :
  wp (validate_action this)
     (λ _ g', g' = g ∧ ∃ p, player_list g !! this = Some p ∧ active p = true
                            ∧ current_turn g = this ∧ game_started g = true)
     (λ _ g', g' = g) True g.
Proof.
  unfold validate_action, is_active. apply wp_bind, wp_bind, wp_deref.
  destruct (player_list g !! this) as [p|] eqn:Hp; [|done]. apply wp_ret.
  destruct (active p) eqn:Ha; [|by apply wp_throw]. simpl.
  apply wp_bind. eapply wp_mono; [apply is_player_turn_wp| |done..].
  intros [|] g' [-> Ht]; [|by apply wp_throw]. simpl.
  unfold validate_game_state. apply wp_bind, wp_get.
  destruct (game_started g) eqn:Es; [|by apply wp_throw].
  apply wp_ret. eauto 10.
Qed.

Lemma validate_target_wp target g :
  wp (validate_target target)
     (λ _ g', g' = g ∧ ∃ p, player_list g !! target = Some p ∧ active p = true)
     (λ _ g', g' = g) True g.
Proof.
  unfold validate_target, is_active. apply wp_bind, wp_bind, wp_deref.
  destruct (player_list g !! target) as [p|] eqn:Hp; [|done]. apply wp_ret.
  destruct (active p) eqn:Ha; [|by apply wp_throw]. apply wp_ret. eauto.
Qed.

Lemma validate_coins_wp this required g :
  wp (validate_coins this required)
     (λ _ g', g' = g ∧ ∃ p, player_list g !! this = Some p ∧ required ≤ coins p)
     (λ _ g', g' = g) True g.
Proof.
  unfold validate_coins, get_coins. apply wp_bind, wp_bind, wp_deref.
  destruct (player_list g !! this) as [p|] eqn:Hp; [|done]. apply wp_ret.
  destruct (Z.ltb_spec (coins p) required); [by apply wp_throw|].
  apply wp_ret. eauto.
Qed.

(** ** Actions move coins between the purses and the treasury *)

(** A check in front of a computation. *)
Lemma wp_check {A B} (m : M A) (f : A → M B) (P : Prop) Q E U g :
  wp m (λ _ g', g' = g ∧ P) (λ _ g', g' = g) U g →
  (∀ e, E e g) →
  (∀ a, P → wp (f a) Q E U g) →
  wp (bind m f) Q E U g.
Proof.
  intros Hm HE Hf. apply wp_bind. eapply wp_mono; [exact Hm| | |done].
  - intros a g' [-> HP]. by apply Hf.
  - intros e g' ->. apply HE.
Qed.

Lemma conserves_gather this : conserves (gather this).
Proof.
  intros g. unfold gather.
  eapply wp_check; [apply validate_action_wp|done|].
  intros _ (p & Hp & Ha & Hc & Hs).
  apply wp_bind. eapply wp_run; [by eapply is_sanctioned_run|].
  destruct (sanctioned p); [by apply wp_throw|].
  apply wp_bind, wp_remove_from_treasury; [done|].
  destruct (Z.ltb_spec (treasury g) 1); [done|]. destruct (in_int _); [|done].
  apply wp_bind. eapply wp_add_coins; [done|]. destruct (in_int _); [|done].
  eapply wp_mono; [apply end_of_action_wp| |done..].
  intros _ g' ->. rewrite wealth_after_action. split;
    [|intros; apply treasury_after_action; gsimpl; lia].
  unfold wealth. gsimpl. rewrite (total_coins_alter _ _ _ _ Hp). simpl. lia.
Qed.

(** Seats of a roster under update. *)
Ltac lookup_solve :=
  gsimpl;
  repeat (rewrite list_lookup_alter_ne by done);
  first [ eassumption
        | rewrite list_lookup_alter_eq;
          repeat (rewrite list_lookup_alter_ne by done);
          match goal with
          | H : ?l !! ?i = Some _ |- context [?l !! ?i] => rewrite H
          end; reflexivity ].

Ltac conserves_end :=
  eapply wp_mono; [apply end_of_action_wp| |done..];
  intros _ ? ->; rewrite wealth_after_action;
  split; [unfold wealth; gsimpl
         |intros; apply treasury_after_action; gsimpl; lia].

Lemma conserves_tax this : conserves (tax this).
Proof.
  intros g. unfold tax.
  eapply wp_check; [apply validate_action_wp|done|].
  intros _ (p & Hp & Ha & Hc & Hs).
  apply wp_bind. eapply wp_run; [by eapply is_sanctioned_run|].
  destruct (sanctioned p); [by apply wp_throw|].
  apply wp_bind. eapply wp_run; [by eapply get_role_run|].
  set (tax_amount := if String.eqb (role p) "Governor" then 3 else 2).
  assert (0 ≤ tax_amount) by (unfold tax_amount; destruct (String.eqb _ _); lia).
  apply wp_bind, wp_remove_from_treasury; [done|].
  destruct (Z.ltb_spec (treasury g) tax_amount); [done|].
  destruct (in_int _); [|done].
  apply wp_bind. eapply wp_add_coins; [lookup_solve|]. destruct (in_int _); [|done].
  conserves_end. rewrite (total_coins_alter _ _ _ _ Hp). simpl. lia.
Qed.

Lemma conserves_bribe this : conserves (bribe this).
Proof.
  intros g. unfold bribe.
  eapply wp_check; [apply validate_action_wp|done|].
  intros _ (p & Hp & Ha & Hc & Hs).
  eapply wp_check; [apply validate_coins_wp|done|]. intros _ _.
  apply wp_bind. eapply wp_remove_coins; [lookup_solve|].
  destruct (coins p <? 4); [done|]. destruct (in_int _); [|done].
  apply wp_bind, wp_add_to_treasury; [done|]. destruct (in_int _); [|done].
  apply wp_bind. unfold add_extra_actions.
  apply wp_bind, wp_get, wp_bind, wp_int_result. destruct (in_int _); [|done].
  apply wp_put.
  conserves_end. rewrite (total_coins_alter _ _ _ _ Hp). simpl. lia.
Qed.

Lemma conserves_coup this target : conserves (coup this target).
Proof.
  intros g. unfold coup.
  eapply wp_check; [apply validate_action_wp|done|].
  intros _ (p & Hp & Ha & Hc & Hs).
  eapply wp_check; [apply validate_target_wp|done|].
  intros _ (q & Hq & Hqa).
  eapply wp_check; [apply validate_coins_wp|done|]. intros _ _.
  destruct (Nat.eqb_spec target this) as [->|Hne]; [by apply wp_throw|].
  apply wp_bind. eapply wp_remove_coins; [lookup_solve|].
  destruct (coins p <? 7); [done|]. destruct (in_int _); [|done].
  apply wp_bind, wp_add_to_treasury; [done|]. destruct (in_int _); [|done].
  apply wp_bind. unfold deactivate. apply wp_assign. gsimpl.
  rewrite list_lookup_alter_ne, Hq by done.
  conserves_end. rewrite total_coins_alter_same by done.
  rewrite (total_coins_alter _ _ _ _ Hp). simpl. lia.
Qed.

Lemma conserves_invest this : conserves (invest this).
Proof.
  intros g. unfold invest.
  eapply wp_check; [apply validate_action_wp|done|].
  intros _ (p & Hp & Ha & Hc & Hs).
  eapply wp_check; [apply validate_coins_wp|done|]. intros _ _.
  apply wp_bind. unfold get_treasury. apply wp_bind, wp_get, wp_ret.
  destruct (Z.ltb_spec (treasury g) 6); [by apply wp_throw|].
  apply wp_bind. eapply wp_remove_coins; [lookup_solve|].
  destruct (coins p <? 3); [done|]. destruct (in_int _); [|done].
  apply wp_bind, wp_add_to_treasury; [done|]. destruct (in_int _); [|done].
  apply wp_bind, wp_remove_from_treasury; [done|]. gsimpl.
  destruct (Z.ltb_spec (treasury g + 3) 6); [done|]. destruct (in_int _); [|done].
  apply wp_bind. eapply wp_add_coins; [lookup_solve|]. simpl.
  destruct (in_int _); [|done].
  conserves_end. rewrite list_alter_alter_eq.
  rewrite (total_coins_alter _ _ _ _ Hp). simpl. lia.
Qed.

Lemma conserves_sanction this target : conserves (sanction this target).
Proof.
  intros g. unfold sanction.
  eapply wp_check; [apply validate_action_wp|done|].
  intros _ (p & Hp & Ha & Hc & Hs).
  eapply wp_check; [apply validate_target_wp|done|].
  intros _ (q & Hq & Hqa).
  destruct (Nat.eqb_spec target this) as [->|Hne]; [by apply wp_throw|].
  apply wp_bind. eapply wp_run; [by eapply get_role_run|].
  apply wp_bind.
  eapply (wp_mono _ (λ cost g', g' = g ∧ (cost = 3 ∨ cost = 4)));
    [| |by intros ?? H; exact H|by intros H; exact H].
  { destruct (String.eqb (role q) "Judge").
    - eapply wp_check; [apply validate_coins_wp|done|].
      intros _ _. apply wp_ret. auto.
    - eapply wp_check; [apply validate_coins_wp|done|].
      intros _ _. apply wp_ret. auto. }
  intros cost g' [-> Hcost].
  apply wp_bind. eapply wp_remove_coins; [lookup_solve|].
  destruct (coins p <? cost); [done|]. destruct (in_int _); [|done].
  apply wp_bind, wp_add_to_treasury; [lia|]. destruct (in_int _); [|done].
  apply wp_bind. eapply wp_run; [eapply get_role_run; lookup_solve|].
  apply wp_bind.
  eapply (wp_mono _ (λ _ g',
            wealth g' = wealth g ∧ (0 ≤ treasury g → 0 ≤ treasury g')
            ∧ ∃ q', player_list g' !! target = Some q'));
    [| |by intros ?? H; exact H|by intros H; exact H].
  { destruct (String.eqb (role q) "Baron").
    - unfold get_treasury. apply wp_bind, wp_bind, wp_get, wp_ret. gsimpl.
      destruct (Z.leb_spec 1 (treasury g + cost)).
      + apply wp_bind, wp_remove_from_treasury; [done|]. gsimpl.
        destruct (Z.ltb_spec (treasury g + cost) 1); [done|].
        destruct (in_int _); [|done].
        eapply wp_add_coins; [lookup_solve|]. destruct (in_int _); [|done].
        unfold wealth. gsimpl. split; [|split; [lia|]].
        * erewrite total_coins_alter by lookup_solve.
          rewrite (total_coins_alter _ _ _ _ Hp). simpl. lia.
        * eexists. lookup_solve.
      + apply wp_ret. unfold wealth. gsimpl. split; [|split; [lia|]].
        * rewrite (total_coins_alter _ _ _ _ Hp). simpl. lia.
        * eexists. lookup_solve.
    - apply wp_ret. unfold wealth. gsimpl. split; [|split; [lia|]].
      + rewrite (total_coins_alter _ _ _ _ Hp). simpl. lia.
      + eexists. lookup_solve. }
  intros _ g' (Hw & Ht & q' & Hq').
  apply wp_bind. unfold set_sanctioned. apply wp_assign. rewrite Hq'.
  eapply wp_mono; [apply end_of_action_wp| |done..].
  intros _ ? ->. rewrite wealth_after_action. split.
  - unfold wealth in *. gsimpl. by rewrite total_coins_alter_same.
  - intros. apply treasury_after_action. gsimpl. auto.
Qed.

Lemma conserves_arrest this target : conserves (arrest this target).
Proof.
  intros g. unfold arrest.
  eapply wp_check; [apply validate_action_wp|done|].
  intros _ (p & Hp & Ha & Hc & Hs).
  eapply wp_check; [apply validate_target_wp|done|].
  intros _ (q & Hq & Hqa).
  destruct (Nat.eqb_spec target this) as [->|Hne]; [by apply wp_throw|].
  apply wp_bind. eapply wp_run; [by eapply is_arrest_blocked_run|].
  destruct (arrest_blocked p); [by apply wp_throw|].
  apply wp_bind. unfold get_last_arrested_player. apply wp_bind, wp_get, wp_ret.
  apply wp_bind. eapply wp_run; [by eapply get_name_run|].
  destruct (String.eqb _ (name q)); [by apply wp_throw|].
  apply wp_bind. eapply wp_run; [by eapply get_role_run|].
  apply wp_bind.
  eapply (wp_mono _ (λ _ g',
            wealth g' = wealth g ∧ (0 ≤ treasury g → 0 ≤ treasury g')
            ∧ ∃ q', player_list g' !! target = Some q'));
    [| |by intros ?? H; exact H|by intros H; exact H].
  { destruct (String.eqb (role q) "General"); [apply wp_ret; eauto|].
    destruct (String.eqb (role q) "Merchant").
    - apply wp_bind. eapply wp_run; [by eapply get_coins_run|].
      destruct (Z.ltb_spec 0 (coins q)); [|apply wp_ret; eauto].
      apply wp_bind. eapply wp_remove_coins; [lookup_solve|].
      destruct (Z.ltb_spec (coins q) (Z.min (coins q) 2)); [done|].
      destruct (in_int _); [|done].
      apply wp_add_to_treasury; [lia|]. destruct (in_int _); [|done].
      unfold wealth. gsimpl. split; [|split; [lia|]].
      + rewrite (total_coins_alter _ _ _ _ Hq). simpl. lia.
      + eexists. lookup_solve.
    - apply wp_bind. eapply wp_run; [by eapply get_coins_run|].
      destruct (Z.ltb_spec 0 (coins q)); [|apply wp_ret; eauto].
      apply wp_bind. eapply wp_remove_coins; [lookup_solve|].
      destruct (Z.ltb_spec (coins q) 1); [done|]. destruct (in_int _); [|done].
      eapply wp_add_coins; [lookup_solve|]. destruct (in_int _); [|done].
      unfold wealth. gsimpl. split; [|split; [lia|]].
      + erewrite total_coins_alter by lookup_solve.
        rewrite (total_coins_alter _ _ _ _ Hq). simpl. lia.
      + eexists. lookup_solve. }
  intros _ g' (Hw & Ht & q' & Hq').
  apply wp_bind. eapply wp_run; [by eapply get_name_run|].
  apply wp_bind. unfold set_last_arrested_player. apply wp_bind, wp_get, wp_put.
  eapply wp_mono; [apply end_of_action_wp| |done..].
  intros _ ? ->. rewrite wealth_after_action. split; [done|].
  intros. apply treasury_after_action. gsimpl. auto.
Qed.

Lemma conserves_performAction action actor target :
  conserves (performAction action actor target).
Proof.
  unfold performAction.
  destruct (String.eqb action "Gather"); [apply conserves_gather|].
  destruct (String.eqb action "Tax"); [apply conserves_tax|].
  destruct (String.eqb action "Bribe"); [apply conserves_bribe|].
  destruct (String.eqb action "Invest").
  { intros g. apply wp_bind, wp_deref. destruct (_ !! actor) as [p|]; [|done].
    destruct (kind p); try by apply wp_throw. apply conserves_invest. }
  destruct target as [t|]; [|by intros g; apply wp_ret].
  destruct (String.eqb action "Arrest"); [apply conserves_arrest|].
  destruct (String.eqb action "Sanction"); [apply conserves_sanction|].
  destruct (String.eqb action "Coup"); [apply conserves_coup|].
  by intros g; apply wp_ret.
Qed.

Lemma conserves_commit_all actions : conserves (commit_all actions).
Proof.
  induction actions as [|[[action actor] target] rest IH]; intros g.
  - by apply wp_ret.
  - simpl. apply wp_bind.
    eapply wp_mono; [apply conserves_performAction| |done..].
    intros _ g1 [Hw Ht].
    eapply wp_mono; [apply IH| |done..].
    intros _ g' [Hw' Ht']. split; [congruence|auto].
Qed.

(** ** Invariants that do not read the seats, the treasury or the arrest
    record *)

Section Preserves.
Variable I : Game → Prop.
Hypothesis I_player_list :
  ∀ l g, length l = length (player_list g) → I g → I (with_player_list l g).
Hypothesis I_treasury : ∀ t g, I g → I (with_treasury t g).
Hypothesis I_last_arrested :
  ∀ n g, I g → I (with_last_arrested_player n g).

Lemma preserves_ret {A} (a : A) : preserves I (ret a).
Proof. by intros g Hg. Qed.

Lemma preserves_throw {A} e : preserves I (@throw A e).
Proof. by intros g Hg. Qed.

Lemma preserves_bind {A B} (m : M A) (f : A → M B) :
  preserves I m → (∀ a, preserves I (f a)) → preserves I (bind m f).
Proof.
  intros Hm Hf g Hg. apply wp_bind.
  eapply wp_mono; [by apply Hm| |done..]. intros a g' Hg'. by apply Hf.
Qed.

Lemma preserves_deref p : preserves I (deref p).
Proof. intros g Hg. apply wp_deref. by destruct (_ !! p). Qed.

Lemma preserves_assign p f : preserves I (assign p f).
Proof.
  intros g Hg. apply wp_assign. destruct (_ !! p); [|done].
  apply I_player_list; [apply length_alter|done].
Qed.

Lemma preserves_int_result z : preserves I (int_result z).
Proof. intros g Hg. apply wp_int_result. by destruct (in_int z). Qed.

Lemma preserves_get_treasury : preserves I get_treasury.
Proof. by intros g Hg. Qed.

Lemma preserves_get_actions_remaining : preserves I get_actions_remaining.
Proof. by intros g Hg. Qed.

Lemma preserves_get_last_arrested_player :
  preserves I get_last_arrested_player.
Proof. by intros g Hg. Qed.

Lemma preserves_set_last_arrested_player n :
  preserves I (set_last_arrested_player n).
Proof. intros g Hg. unfold wp. simpl. auto. Qed.

Lemma preserves_add_to_treasury amount : preserves I (add_to_treasury amount).
Proof.
  intros g Hg. unfold add_to_treasury. destruct (amount <? 0); [done|].
  apply wp_bind, wp_get, wp_bind, wp_int_result.
  destruct (in_int _); [|done]. apply wp_put. auto.
Qed.

Lemma preserves_remove_from_treasury amount :
  preserves I (remove_from_treasury amount).
Proof.
  intros g Hg. unfold remove_from_treasury. destruct (amount <? 0); [done|].
  apply wp_bind, wp_get. destruct (_ <? amount); [done|].
  apply wp_bind, wp_int_result. destruct (in_int _); [|done].
  apply wp_put. auto.
Qed.

Lemma preserves_is_player_turn player : preserves I (is_player_turn player).
Proof.
  intros g Hg. eapply wp_mono; [apply is_player_turn_wp| |done..].
  by intros _ g' [-> _].
Qed.

Lemma preserves_validate_game_state : preserves I validate_game_state.
Proof.
  intros g Hg. unfold validate_game_state. apply wp_bind, wp_get.
  by destruct (game_started g).
Qed.
End Preserves.

Create HintDb preserves.
#[local] Hint Resolve preserves_ret preserves_throw preserves_deref
  preserves_assign preserves_int_result preserves_get_treasury
  preserves_get_actions_remaining preserves_get_last_arrested_player
  preserves_set_last_arrested_player preserves_add_to_treasury
  preserves_remove_from_treasury preserves_is_player_turn
  preserves_validate_game_state : preserves.

(** Splits a computation along its binds and branches. *)
Ltac preserves_step :=
  match goal with
  | |- preserves _ (bind _ _) => apply preserves_bind; [|intros ?]
  | |- preserves _ (if ?b then _ else _) => destruct b
  | |- preserves _ (match ?x with _ => _ end) => destruct x
  | |- preserves _ _ => solve [eauto with preserves]
  end.

Ltac preserves_auto := repeat preserves_step.

Section PreservesPlayer.
Variable I : Game → Prop.
Hypothesis I_player_list :
  ∀ l g, length l = length (player_list g) → I g → I (with_player_list l g).
Hypothesis I_treasury : ∀ t g, I g → I (with_treasury t g).
Hypothesis I_last_arrested :
  ∀ n g, I g → I (with_last_arrested_player n g).

Lemma preserves_get_name p : preserves I (get_name p).
Proof. unfold get_name. preserves_auto. Qed.
Lemma preserves_get_coins p : preserves I (get_coins p).
Proof. unfold get_coins. preserves_auto. Qed.
Lemma preserves_is_active p : preserves I (is_active p).
Proof. unfold is_active. preserves_auto. Qed.
Lemma preserves_is_sanctioned p : preserves I (is_sanctioned p).
Proof. unfold is_sanctioned. preserves_auto. Qed.
Lemma preserves_is_arrest_blocked p : preserves I (is_arrest_blocked p).
Proof. unfold is_arrest_blocked. preserves_auto. Qed.
Lemma preserves_get_role p : preserves I (get_role p).
Proof. unfold get_role. preserves_auto. Qed.
Lemma preserves_set_sanctioned p b : preserves I (set_sanctioned p b).
Proof. unfold set_sanctioned. preserves_auto. Qed.
Lemma preserves_set_arrest_blocked p b :
  preserves I (set_arrest_blocked p b).
Proof. unfold set_arrest_blocked. preserves_auto. Qed.
Lemma preserves_deactivate p : preserves I (deactivate p).
Proof. unfold deactivate. preserves_auto. Qed.
Lemma preserves_add_coins p n : preserves I (add_coins p n).
Proof. unfold add_coins. preserves_auto. Qed.
Lemma preserves_remove_coins p n : preserves I (remove_coins p n).
Proof. unfold remove_coins. preserves_auto. Qed.

#[local] Hint Resolve preserves_get_name preserves_get_coins
  preserves_is_active preserves_is_sanctioned preserves_is_arrest_blocked
  preserves_get_role preserves_set_sanctioned preserves_set_arrest_blocked
  preserves_deactivate preserves_add_coins preserves_remove_coins
  : preserves.

Lemma preserves_validate_action this : preserves I (validate_action this).
Proof. unfold validate_action. preserves_auto. Qed.
Lemma preserves_validate_target target :
  preserves I (validate_target target).
Proof. unfold validate_target. preserves_auto. Qed.
Lemma preserves_validate_coins this n :
  preserves I (validate_coins this n).
Proof. unfold validate_coins. preserves_auto. Qed.
Lemma preserves_on_turn_start this : preserves I (on_turn_start this).
Proof. unfold on_turn_start. preserves_auto. Qed.
Lemma preserves_investigate this target :
  preserves I (investigate this target).
Proof.
  pose proof preserves_validate_action. pose proof preserves_validate_target.
  unfold investigate. preserves_auto.
Qed.
Lemma preserves_block_arrest_ability this target :
  preserves I (block_arrest_ability this target).
Proof.
  pose proof preserves_validate_action. pose proof preserves_validate_target.
  unfold block_arrest_ability. preserves_auto.
Qed.
End PreservesPlayer.

#[local] Hint Resolve preserves_get_name preserves_get_coins
  preserves_is_active preserves_is_sanctioned preserves_is_arrest_blocked
  preserves_get_role preserves_set_sanctioned preserves_set_arrest_blocked
  preserves_deactivate preserves_add_coins preserves_remove_coins
  preserves_validate_action preserves_validate_target preserves_validate_coins
  preserves_on_turn_start preserves_investigate preserves_block_arrest_ability
  : preserves.

(** ** The action counter is never negative *)

Lemma actions_remaining_advance_turn_spec g :
  actions_remaining (advance_turn_spec g) = actions_remaining g
  ∨ actions_remaining (advance_turn_spec g) = 1.
Proof.
  unfold advance_turn_spec. destruct (_ <=? 1)%nat; [by left|].
  destruct (next_active_seat _ _); [by right|by left].
Qed.

Lemma counter_nonneg_after_action g :
  counter_nonneg g → counter_nonneg (after_action g).
Proof.
  unfold counter_nonneg, after_action. intros Hg.
  destruct (Z.ltb_spec 0 (actions_remaining g)); gsimpl.
  - destruct (_ =? 0); gsimpl; [|lia].
    destruct (actions_remaining_advance_turn_spec
                (with_actions_remaining (actions_remaining g - 1) g)) as [->| ->];
      gsimpl; lia.
  - destruct (_ =? 0); [|done].
    destruct (actions_remaining_advance_turn_spec g) as [->| ->]; lia.
Qed.

Lemma preserves_counter_next_turn : preserves counter_nonneg next_turn.
Proof.
  intros g Hg. eapply wp_mono; [apply next_turn_wp| |done..].
  intros _ g' ->. unfold counter_nonneg in *.
  destruct (actions_remaining_advance_turn_spec g) as [->| ->]; lia.
Qed.

Lemma preserves_counter_end_of_action : preserves counter_nonneg end_of_action.
Proof.
  intros g Hg. eapply wp_mono; [apply end_of_action_wp| |done..].
  intros _ g' ->. by apply counter_nonneg_after_action.
Qed.

Lemma preserves_counter_add_extra_actions count :
  0 ≤ count → preserves counter_nonneg (add_extra_actions count).
Proof.
  intros Hc g Hg. unfold add_extra_actions.
  apply wp_bind, wp_get, wp_bind, wp_int_result. destruct (in_int _); [|done].
  apply wp_put. unfold counter_nonneg in *. gsimpl. lia.
Qed.

Lemma preserves_try_catch I {A} (m : M A) h :
  preserves I m → (∀ e, preserves I (h e)) → preserves I (try_catch m h).
Proof.
  intros Hm Hh g Hg. specialize (Hm g Hg). unfold wp, try_catch in *.
  destruct (m g) as [a g'|e g'|]; [done| |done]. by apply Hh.
Qed.

#[local] Hint Resolve preserves_counter_next_turn
  preserves_counter_end_of_action : preserves.

Lemma preserves_counter_execute c : preserves counter_nonneg (execute c).
Proof.
  assert (preserves counter_nonneg (add_extra_actions 2))
    by by apply preserves_counter_add_extra_actions.
  destruct c as [k n| |action actor target|spy target|spy target
                |action actor blocker|]; simpl.
  - intros g Hg. unfold add_player, validate_player_count.
    apply wp_bind, wp_bind, wp_get. destruct (6 <=? _)%nat; [done|].
    by apply wp_ret, wp_bind, wp_get, wp_put.
  - intros g Hg. unfold start_game. apply wp_bind, wp_get.
    by destruct (_ <? 2)%nat.
  - unfold performAction, gather, tax, bribe, invest, arrest, sanction, coup.
    preserves_auto.
  - preserves_auto; by intros g Hg.
  - preserves_auto.
  - unfold onBlockClicked. apply preserves_bind; [|intros; eauto with preserves].
    apply preserves_try_catch; [|intros ?]; preserves_auto.
  - eauto with preserves.
Qed.

Lemma reachable_play commands : ∀ g g',
  reachable g → play commands g = Ret tt g' → reachable g'.
Proof.
  induction commands as [|c rest IH]; intros g g' Hg Hrun.
  - by injection Hrun as <-.
  - simpl in Hrun. unfold bind in Hrun.
    destruct (execute c g) as [[] g1| |] eqn:Hc; [|done..].
    eapply IH; [|exact Hrun]. by eapply reachable_return.
Qed.

Lemma reachable_counter_nonneg g : reachable g → counter_nonneg g.
Proof.
  induction 1 as [|g c g' _ IH Hc|g c e g' _ IH Hc].
  - unfold counter_nonneg. simpl. lia.
  - exact (wp_Ret _ _ _ _ _ _ _ (preserves_counter_execute c g IH) Hc).
  - exact (wp_Throw _ _ _ _ _ _ _ (preserves_counter_execute c g IH) Hc).
Qed.

(** ** The validator reads the state only *)

Lemma validateCoins_run g action player p :
  player_list g !! player = Some p →
  validateCoins action player g
  = Ret (if String.eqb action "Sanction" && (getActionCost action =? 3) then
           if coins p <? 3 then invalid "Need at least 3 coins for sanction"
           else valid
         else if (0 <? getActionCost action)
                 && (coins p <? getActionCost action) then
           invalid ("Need " ++ to_string (getActionCost action)
                    ++ " coins for " ++ action)%string
         else valid) g.
Proof.
  intros Hp. unfold validateCoins.
  rewrite (bind_run _ _ _ _ _ (get_coins_run _ _ _ Hp)).
  destruct (_ && _); [by destruct (_ <? 3)|]. by destruct (_ && _).
Qed.

Lemma validateRoleSpecificRequirements_run g action player p :
  player_list g !! player = Some p →
  validateRoleSpecificRequirements action player g
  = Ret (if (String.eqb action "Gather" || String.eqb action "Tax")
            && sanctioned p then
           invalid "You are under sanctions and cannot gather or tax"
         else if String.eqb action "Arrest" && arrest_blocked p then
           invalid "Your arrest ability is blocked this turn"
         else if String.eqb action "Invest"
                 && negb (String.eqb (role p) "Baron") then
           invalid "Only Baron can invest"
         else if String.eqb action "Investigate"
                 && negb (String.eqb (role p) "Spy") then
           invalid "Only Spy can investigate"
         else if String.eqb action "Block Arrest"
                 && negb (String.eqb (role p) "Spy") then
           invalid "Only Spy can block arrest abilities"
         else valid) g.
Proof.
  intros Hp. unfold validateRoleSpecificRequirements.
  rewrite (bind_run _ _ _ _ _ (deref_run _ _ _ Hp)).
  repeat (destruct (_ && _); [done|]). done.
Qed.


Lemma requiresTarget_cases action :
  requiresTarget action = true →
  action = "Arrest" ∨ action = "Sanction" ∨ action = "Coup"
  ∨ action = "Investigate" ∨ action = "Block Arrest".
Proof.
  unfold requiresTarget. rewrite !orb_true_iff, !String.eqb_eq. tauto.
Qed.






(** ** What a turn transition does to the seats *)

Lemma seat_active_alter f i l j :
  (∀ p, active (f p) = active p) →
  seat_active (alter f i l) j = seat_active l j.
Proof.
  intros Hf. unfold seat_active. rewrite list_lookup_alter.
  destruct (decide (i = j)) as [->|]; [|done].
  destruct (l !! j); simpl; [apply Hf|done].
Qed.

Lemma next_active_seat_alter f i l start :
  (∀ p, active (f p) = active p) →
  next_active_seat (alter f i l) start = next_active_seat l start.
Proof.
  intros Hf. unfold next_active_seat, seats_after. rewrite length_alter.
  induction (map _ _) as [|j js IH]; [done|].
  simpl. rewrite seat_active_alter by done. by rewrite IH.
Qed.

Lemma next_active_seat_inv l start j :
  next_active_seat l start = Some j →
  j ≠ start ∧ (j < length l)%nat ∧ seat_active l j = true.
Proof.
  unfold next_active_seat. intros [Hin Hact]%List.find_some.
  split; [|split; [|done]].
  - destruct (decide (start < length l)%nat) as [Hs|Hs].
    + by apply (seats_after_inv l start j Hs).
    + unfold seat_active in Hact. destruct (l !! j) eqn:Hj; [|done].
      apply lookup_lt_Some in Hj. lia.
  - unfold seat_active in Hact. destruct (l !! j) eqn:Hj; [|done].
    by eapply lookup_lt_Some.
Qed.

Lemma turn_begin_hook_lookup_ne seat g i :
  i ≠ seat →
  player_list (turn_begin_hook seat g) !! i = player_list g !! i.
Proof.
  intros Hne. unfold turn_begin_hook.
  destruct (player_list g !! seat) as [p|]; [|done].
  destruct (kind p); try done. destruct (_ && _); [|done].
  gsimpl. by rewrite list_lookup_alter_ne.
Qed.

Lemma turn_begin_hook_lookup seat g i p :
  player_list g !! i = Some p →
  ∃ c, player_list (turn_begin_hook seat g) !! i = Some (with_coins c p)
       ∧ coins p ≤ c ≤ coins p + 1
       ∧ (kind p ≠ Merchant → c = coins p).
Proof.
  intros Hp. destruct (decide (i = seat)) as [->|Hne].
  - unfold turn_begin_hook. rewrite Hp.
    assert (Some p = Some (with_coins (coins p) p)) as Hid by by destruct p.
    destruct (kind p) eqn:Hk;
      try (exists (coins p); rewrite Hp; split; [done|split; [lia|done]]).
    destruct (_ && _).
    + exists (coins p + 1). gsimpl. rewrite list_lookup_alter_eq, Hp.
      split; [done|]. split; [lia|done].
    + exists (coins p). rewrite Hp. split; [done|]. split; [lia|done].
  - rewrite turn_begin_hook_lookup_ne by done. exists (coins p).
    rewrite Hp. split; [by destruct p|]. split; [lia|done].
Qed.

Lemma current_turn_turn_begin_hook seat g :
  current_turn (turn_begin_hook seat g) = current_turn g.
Proof.
  unfold turn_begin_hook. destruct (_ !! seat) as [x|]; [|done].
  destruct (kind x); try done. by destruct (_ && _).
Qed.

(** ** The effect of single actions *)

Lemma wp_Ret_unit (m : M unit) (P : Game → Prop) g :
  wp m (λ _ g', P g') (λ _ _, True) True g → ∀ g', m g = Ret tt g' → P g'.
Proof. intros Hwp g' Hm. exact (wp_Ret _ _ _ _ _ _ _ Hwp Hm). Qed.

(** Turns a goal about the state an action returns into a [wp] goal. *)
Ltac by_wp H :=
  match type of H with
  | _ ?g = Ret tt ?g' =>
      pattern g'; revert g' H; apply wp_Ret_unit; cbv beta
  end.

Lemma coup_effect this target g g' :
  coup this target g = Ret tt g' →
  ∃ p q, player_list g !! this = Some p ∧ player_list g !! target = Some q
         ∧ target ≠ this ∧ current_turn g = this ∧ 7 ≤ coins p
         ∧ g' = after_action
                  (with_player_list
                     (alter (with_active false) target
                        (alter (with_coins (coins p - 7)) this (player_list g)))
                     (with_treasury (treasury g + 7) g)).
Proof.
  intros H. by_wp H. unfold coup.
  eapply wp_check; [apply validate_action_wp|done|].
  intros _ (p & Hp & Ha & Hc & Hs).
  eapply wp_check; [apply validate_target_wp|done|].
  intros _ (q & Hq & Hqa).
  eapply wp_check; [apply validate_coins_wp|done|].
  intros _ (p' & Hp' & H7). rewrite Hp in Hp'. injection Hp' as <-.
  destruct (Nat.eqb_spec target this) as [->|Hne]; [by apply wp_throw|].
  apply wp_bind. eapply wp_remove_coins; [lookup_solve|].
  destruct (coins p <? 7); [done|]. destruct (in_int _); [|done].
  apply wp_bind, wp_add_to_treasury; [done|]. destruct (in_int _); [|done].
  apply wp_bind. unfold deactivate. apply wp_assign. gsimpl.
  rewrite list_lookup_alter_ne, Hq by done.
  eapply wp_mono; [apply end_of_action_wp| |done..].
  intros _ ? ->. by exists p, q.
Qed.

Lemma bribe_effect this g g' :
  bribe this g = Ret tt g' →
  ∃ p, player_list g !! this = Some p ∧ current_turn g = this ∧ 4 ≤ coins p
       ∧ g' = after_action
                (with_actions_remaining (actions_remaining g + 2)
                   (with_player_list
                      (alter (with_coins (coins p - 4)) this (player_list g))
                      (with_treasury (treasury g + 4) g))).
Proof.
  intros H. by_wp H. unfold bribe.
  eapply wp_check; [apply validate_action_wp|done|].
  intros _ (p & Hp & Ha & Hc & Hs).
  eapply wp_check; [apply validate_coins_wp|done|].
  intros _ (p' & Hp' & H4). rewrite Hp in Hp'. injection Hp' as <-.
  apply wp_bind. eapply wp_remove_coins; [lookup_solve|].
  destruct (coins p <? 4); [done|]. destruct (in_int _); [|done].
  apply wp_bind, wp_add_to_treasury; [done|]. destruct (in_int _); [|done].
  apply wp_bind. unfold add_extra_actions.
  apply wp_bind, wp_get, wp_bind, wp_int_result. destruct (in_int _); [|done].
  apply wp_put.
  eapply wp_mono; [apply end_of_action_wp| |done..].
  intros _ ? ->. by exists p.
Qed.

Lemma sanction_baron_effect this target g g' q :
  player_list g !! target = Some q → kind q = Baron → 0 ≤ treasury g →
  sanction this target g = Ret tt g' →
  ∃ p, player_list g !! this = Some p ∧ target ≠ this ∧ current_turn g = this
       ∧ 3 ≤ coins p
       ∧ g' = after_action
                (with_player_list
                   (alter (with_sanctioned true) target
                      (alter (with_coins (coins q + 1)) target
                         (alter (with_coins (coins p - 3)) this
                            (player_list g))))
                   (with_treasury (treasury g + 3 - 1) g)).
Proof.
  intros Hq Hk Ht H. by_wp H. unfold sanction.
  eapply wp_check; [apply validate_action_wp|done|].
  intros _ (p & Hp & Ha & Hc & Hs).
  eapply wp_check; [apply validate_target_wp|done|]. intros _ _.
  destruct (Nat.eqb_spec target this) as [->|Hne]; [by apply wp_throw|].
  apply wp_bind. eapply wp_run; [by eapply get_role_run|].
  unfold role at 1. rewrite Hk. cbn [String.eqb Ascii.eqb Bool.eqb].
  apply wp_bind.
  eapply wp_check; [apply validate_coins_wp|done|].
  intros _ (p' & Hp' & H3). rewrite Hp in Hp'. injection Hp' as <-.
  apply wp_ret.
  apply wp_bind. eapply wp_remove_coins; [lookup_solve|].
  destruct (coins p <? 3); [done|]. destruct (in_int _); [|done].
  apply wp_bind, wp_add_to_treasury; [lia|]. destruct (in_int _); [|done].
  apply wp_bind. eapply wp_run; [eapply get_role_run; lookup_solve|].
  unfold role. rewrite Hk. cbn [String.eqb Ascii.eqb Bool.eqb].
  apply wp_bind.
  unfold get_treasury. apply wp_bind, wp_bind, wp_get, wp_ret. gsimpl.
  destruct (Z.leb_spec 1 (treasury g + 3)); [|lia].
  apply wp_bind, wp_remove_from_treasury; [done|]. gsimpl.
  destruct (Z.ltb_spec (treasury g + 3) 1); [lia|].
  destruct (in_int _); [|done].
  eapply wp_add_coins; [lookup_solve|]. destruct (in_int _); [|done].
  apply wp_bind. unfold set_sanctioned. apply wp_assign. gsimpl.
  rewrite list_lookup_alter_eq, list_lookup_alter_ne, Hq by done. simpl.
  eapply wp_mono; [apply end_of_action_wp| |done..].
  intros _ ? ->. by exists p.
Qed.

(** ** Balances across the end of an action *)

Lemma coins_alter_same f (i : nat) (l : list Player) (j : nat) :
  (∀ p, coins (f p) = coins p) →
  match alter f i l !! j with Some p => coins p | None => 0 end
  = match l !! j with Some p => coins p | None => 0 end.
Proof.
  intros Hc. rewrite list_lookup_alter.
  destruct (decide (i = j)) as [->|]; destruct (l !! j); simpl; auto.
Qed.

Lemma lookup_alter_Some f (i : nat) (l : list Player) (j : nat) p :
  l !! j = Some p →
  alter f i l !! j = Some (if decide (i = j) then f p else p).
Proof.
  intros Hp. rewrite list_lookup_alter.
  destruct (decide (i = j)) as [->|]; by rewrite Hp.
Qed.

Lemma turn_begin_hook_treasury seat g :
  treasury (turn_begin_hook seat g) = treasury g
  ∨ (treasury (turn_begin_hook seat g) = treasury g - 1
     ∧ ∃ q, player_list (turn_begin_hook seat g) !! seat = Some q
            ∧ kind q = Merchant).
Proof.
  unfold turn_begin_hook. destruct (player_list g !! seat) as [p|] eqn:Hp;
    [|by left].
  destruct (kind p) eqn:Hk; try by left.
  destruct (_ && _); [|by left]. right. split; [done|].
  gsimpl. rewrite list_lookup_alter_eq, Hp. by eexists.
Qed.

Section AdvanceTurn.
Variable g : Game.

Lemma advance_turn_spec_departing_coins :
  coins_at (advance_turn_spec g) (current_turn g) = coins_at g (current_turn g).
Proof.
  unfold advance_turn_spec, coins_at.
  destruct (_ <=? 1)%nat; [done|]. gsimpl.
  destruct (next_active_seat _ _) as [seat|] eqn:Hseat; gsimpl.
  - apply next_active_seat_inv in Hseat as (Hne & _).
    rewrite turn_begin_hook_lookup_ne by done. gsimpl.
    by apply coins_alter_same.
  - by apply coins_alter_same.
Qed.

Lemma advance_turn_spec_coins_not_merchant i p :
  player_list g !! i = Some p → kind p ≠ Merchant →
  coins_at (advance_turn_spec g) i = coins_at g i.
Proof.
  intros Hp Hk. unfold advance_turn_spec, coins_at.
  destruct (_ <=? 1)%nat; [done|]. gsimpl. rewrite Hp.
  pose proof (lookup_alter_Some clear_flags (current_turn g) _ i p Hp) as Hp1.
  destruct (next_active_seat _ _) as [seat|] eqn:Hseat; gsimpl.
  - set (s := with_current_turn seat _).
    destruct (turn_begin_hook_lookup seat s i _ Hp1) as (c & -> & _ & Hsame).
    simpl. rewrite Hsame; by destruct (decide _).
  - rewrite Hp1. by destruct (decide _).
Qed.

Lemma advance_turn_spec_treasury :
  treasury (advance_turn_spec g) = treasury g
  ∨ (treasury (advance_turn_spec g) = treasury g - 1
     ∧ current_turn (advance_turn_spec g) ≠ current_turn g
     ∧ ∃ q, player_list (advance_turn_spec g)
              !! current_turn (advance_turn_spec g) = Some q
            ∧ kind q = Merchant).
Proof.
  unfold advance_turn_spec.
  destruct (_ <=? 1)%nat; [by left|]. gsimpl.
  destruct (next_active_seat _ _) as [seat|] eqn:Hseat; [|by left]. gsimpl.
  apply next_active_seat_inv in Hseat as (Hne & _).
  set (s := with_current_turn seat _).
  destruct (turn_begin_hook_treasury seat s) as [->|(-> & q & Hq & Hk)];
    [by left|right].
  rewrite current_turn_turn_begin_hook. unfold s at 1 2 3. gsimpl.
  split; [done|]. split; [done|]. by exists q.
Qed.
End AdvanceTurn.

Section AfterAction.
Variable g : Game.

Lemma after_action_departing_coins :
  coins_at (after_action g) (current_turn g) = coins_at g (current_turn g).
Proof.
  unfold after_action. destruct (0 <? _); gsimpl.
  - destruct (_ =? 0); [|done].
    apply (advance_turn_spec_departing_coins (with_actions_remaining _ g)).
  - destruct (_ =? 0); [|done]. apply advance_turn_spec_departing_coins.
Qed.

Lemma after_action_coins_not_merchant i p :
  player_list g !! i = Some p → kind p ≠ Merchant →
  coins_at (after_action g) i = coins_at g i.
Proof.
  intros Hp Hk. unfold after_action. destruct (0 <? _); gsimpl.
  - destruct (_ =? 0); [|done].
    by apply (advance_turn_spec_coins_not_merchant
                (with_actions_remaining _ g) i p).
  - destruct (_ =? 0); [|done].
    by apply (advance_turn_spec_coins_not_merchant g i p).
Qed.

Lemma after_action_treasury :
  treasury (after_action g) = treasury g
  ∨ (treasury (after_action g) = treasury g - 1
     ∧ current_turn (after_action g) ≠ current_turn g
     ∧ ∃ q, player_list (after_action g) !! current_turn (after_action g)
            = Some q ∧ kind q = Merchant).
Proof.
  unfold after_action. destruct (0 <? _); gsimpl.
  - destruct (_ =? 0); [|by left].
    apply (advance_turn_spec_treasury (with_actions_remaining _ g)).
  - destruct (_ =? 0); [|by left]. apply advance_turn_spec_treasury.
Qed.

Lemma after_action_more_actions :
  1 < actions_remaining g →
  after_action g = with_actions_remaining (actions_remaining g - 1) g.
Proof.
  intros Hc. unfold after_action.
  destruct (Z.ltb_spec 0 (actions_remaining g)); [|lia]. gsimpl.
  by destruct (Z.eqb_spec (actions_remaining g - 1) 0); [lia|].
Qed.
End AfterAction.

(** ** The arrest record *)

Lemma last_arrested_turn_begin_hook seat g :
  last_arrested_player (turn_begin_hook seat g) = last_arrested_player g.
Proof.
  unfold turn_begin_hook. destruct (_ !! seat) as [x|]; [|done].
  destruct (kind x); try done. by destruct (_ && _).
Qed.

Lemma last_arrested_advance_turn_spec g :
  last_arrested_player (advance_turn_spec g) = last_arrested_player g.
Proof.
  unfold advance_turn_spec. destruct (_ <=? 1)%nat; [done|].
  destruct (next_active_seat _ _); [|done]. gsimpl.
  by rewrite last_arrested_turn_begin_hook.
Qed.

Lemma last_arrested_after_action g :
  last_arrested_player (after_action g) = last_arrested_player g.
Proof.
  unfold after_action. destruct (0 <? _); gsimpl;
    (destruct (_ =? 0); [by rewrite last_arrested_advance_turn_spec|done]).
Qed.

Section ArrestRecord.
Variable n : string.

Lemma preserves_record_next_turn : preserves (recorded n) next_turn.
Proof.
  intros g Hg. eapply wp_mono; [apply next_turn_wp| |done..].
  intros _ g' ->. unfold recorded. by rewrite last_arrested_advance_turn_spec.
Qed.

Lemma preserves_record_end_of_action : preserves (recorded n) end_of_action.
Proof.
  intros g Hg. eapply wp_mono; [apply end_of_action_wp| |done..].
  intros _ g' ->. unfold recorded. by rewrite last_arrested_after_action.
Qed.

Lemma preserves_record_add_extra_actions count :
  preserves (recorded n) (add_extra_actions count).
Proof.
  intros g Hg. unfold add_extra_actions.
  apply wp_bind, wp_get, wp_bind, wp_int_result. destruct (in_int _); [|done].
  by apply wp_put.
Qed.

Lemma preserves_record_execute c :
  (∀ actor target, c ≠ Commit "Arrest" actor (Some target)) →
  preserves (recorded n) (execute c).
Proof.
  pose proof preserves_record_next_turn.
  pose proof preserves_record_end_of_action.
  pose proof preserves_record_add_extra_actions.
  intros Hc.
  destruct c as [k name| |action actor target|spy target|spy target
                |action actor blocker|]; simpl.
  - intros g Hg. unfold add_player, validate_player_count.
    apply wp_bind, wp_bind, wp_get. destruct (6 <=? _)%nat; [done|].
    by apply wp_ret, wp_bind, wp_get, wp_put.
  - intros g Hg. unfold start_game. apply wp_bind, wp_get.
    by destruct (_ <? 2)%nat.
  - unfold performAction.
    destruct target as [t|].
    + destruct (String.eqb_spec action "Arrest") as [->|Hne];
        [by destruct (Hc actor t)|].
      unfold gather, tax, bribe, invest, sanction, coup. preserves_auto.
    + unfold gather, tax, bribe, invest. preserves_auto.
  - preserves_auto; by intros g Hg.
  - preserves_auto.
  - unfold onBlockClicked. apply preserves_bind; [|intros; eauto with preserves].
    apply preserves_try_catch; [|intros ?]; preserves_auto.
  - eauto with preserves.
Qed.
End ArrestRecord.

Lemma arrest_records_target this target g g' q :
  player_list g !! target = Some q →
  arrest this target g = Ret tt g' →
  last_arrested_player g' = name q.
Proof.
  intros Hq H. by_wp H. unfold arrest.
  eapply wp_check; [apply validate_action_wp|done|].
  intros _ (p & Hp & Ha & Hc & Hs).
  eapply wp_check; [apply validate_target_wp|done|]. intros _ _.
  destruct (Nat.eqb_spec target this) as [->|Hne]; [by apply wp_throw|].
  apply wp_bind. eapply wp_run; [by eapply is_arrest_blocked_run|].
  destruct (arrest_blocked p); [by apply wp_throw|].
  apply wp_bind. unfold get_last_arrested_player. apply wp_bind, wp_get, wp_ret.
  apply wp_bind. eapply wp_run; [by eapply get_name_run|].
  destruct (String.eqb _ (name q)); [by apply wp_throw|].
  apply wp_bind. eapply wp_run; [by eapply get_role_run|].
  apply wp_bind.
  eapply (wp_mono _ (λ _ g', ∃ q', player_list g' !! target = Some q'
                                   ∧ name q' = name q));
    [| |by intros ?? H'; exact H'|by intros H'; exact H'].
  { destruct (String.eqb (role q) "General"); [apply wp_ret; eauto|].
    destruct (String.eqb (role q) "Merchant").
    - apply wp_bind. eapply wp_run; [by eapply get_coins_run|].
      destruct (Z.ltb_spec 0 (coins q)); [|apply wp_ret; eauto].
      apply wp_bind. eapply wp_remove_coins; [lookup_solve|].
      destruct (_ <? _); [done|]. destruct (in_int _); [|done].
      apply wp_add_to_treasury; [lia|]. destruct (in_int _); [|done].
      eexists. split; [lookup_solve|done].
    - apply wp_bind. eapply wp_run; [by eapply get_coins_run|].
      destruct (0 <? coins q); [|apply wp_ret; eauto].
      apply wp_bind. eapply wp_remove_coins; [lookup_solve|].
      destruct (_ <? _); [done|]. destruct (in_int _); [|done].
      eapply wp_add_coins; [lookup_solve|]. destruct (in_int _); [|done].
      eexists. split; [lookup_solve|done]. }
  intros _ g1 (q' & Hq' & Hname).
  apply wp_bind. eapply wp_run; [by eapply get_name_run|].
  apply wp_bind. unfold set_last_arrested_player. apply wp_bind, wp_get, wp_put.
  eapply wp_mono; [apply end_of_action_wp| |done..].
  intros _ ? ->. by rewrite last_arrested_after_action.
Qed.

Lemma repeated_arrest_throws this target g p q :
  player_list g !! this = Some p → player_list g !! target = Some q →
  turn_in_range g → last_arrested_player g = name q →
  wp (arrest this target) (λ _ _, False)
     (λ e g', g' = g
              ∧ (active p = true → current_turn g = this →
                 game_started g = true → active q = true → target ≠ this →
                 arrest_blocked p = false →
                 e = IllegalMoveException
                       "Cannot arrest the same player twice in a row"))
     False g.
Proof.
  intros Hp Hq Hr Hlast. unfold arrest, validate_action, validate_target.
  apply wp_bind, wp_bind. eapply wp_run; [by eapply is_active_run|].
  destruct (active p); [|by apply wp_throw]. cbn [negb].
  apply wp_bind. eapply wp_run; [by apply is_player_turn_run|].
  destruct (Nat.eqb_spec (current_turn g) this);
    [|by apply wp_throw]. cbn [negb].
  unfold validate_game_state. apply wp_bind, wp_get.
  destruct (game_started g); [|by apply wp_throw]. cbn [negb].
  apply wp_ret, wp_bind, wp_bind.
  eapply wp_run; [by eapply is_active_run|].
  destruct (active q); [|by apply wp_throw]. cbn [negb]. apply wp_ret.
  destruct (Nat.eqb_spec target this); [by apply wp_throw|].
  apply wp_bind. eapply wp_run; [by eapply is_arrest_blocked_run|].
  destruct (arrest_blocked p); [by apply wp_throw|].
  apply wp_bind. unfold get_last_arrested_player. apply wp_bind, wp_get, wp_ret.
  apply wp_bind. eapply wp_run; [by eapply get_name_run|].
  rewrite Hlast, String.eqb_refl. by apply wp_throw.
Qed.

(** With two active participants or more the pointer leaves the departing
    seat for the next active one. *)
Lemma advance_turn_spec_moves g p :
  (2 ≤ active_participants (player_list g))%nat →
  player_list g !! current_turn g = Some p →
  ∃ seat,
    next_active_seat (player_list g) (current_turn g) = Some seat
    ∧ seat ≠ current_turn g
    ∧ current_turn (advance_turn_spec g) = seat
    ∧ seat_active (player_list (advance_turn_spec g)) seat = true
    ∧ actions_remaining (advance_turn_spec g) = 1
    ∧ player_list (advance_turn_spec g) !! current_turn g
      = Some (clear_flags p).
Proof.
  intros Htwo Hp. unfold advance_turn_spec.
  destruct (Nat.leb_spec (active_participants (player_list g)) 1); [lia|].
  gsimpl. rewrite next_active_seat_alter by done.
  destruct (next_active_seat_Some (player_list g) (current_turn g))
    as (seat & q & -> & Hne & Hq & Hact); [done|by eapply lookup_lt_Some|].
  exists seat. split; [done|]. split; [done|].
  set (s := with_current_turn seat
              (with_player_list
                 (alter clear_flags (current_turn g) (player_list g)) g)).
  assert (player_list s !! seat = Some q) as Hq'.
  { unfold s. gsimpl. by rewrite list_lookup_alter_ne. }
  destruct (turn_begin_hook_lookup seat s seat q Hq') as (c & Hc & _).
  repeat split.
  + gsimpl. by rewrite current_turn_turn_begin_hook.
  + gsimpl. unfold seat_active. by rewrite Hc.
  + gsimpl. rewrite turn_begin_hook_lookup_ne by done.
    unfold s. gsimpl. by rewrite list_lookup_alter_eq, Hp.
Qed.

(** The turn-begin hook of a turn transition, by the fields of the
    participant who comes on turn. *)
Lemma advance_turn_spec_hook g p :
  (2 ≤ active_participants (player_list g))%nat →
  player_list g !! current_turn g = Some p →
  ∃ q q',
    player_list g !! current_turn (advance_turn_spec g) = Some q
    ∧ player_list (advance_turn_spec g) !! current_turn (advance_turn_spec g)
      = Some q'
    ∧ active q = true
    ∧ name q' = name q ∧ kind q' = kind q ∧ active q' = active q
    ∧ sanctioned q' = sanctioned q ∧ arrest_blocked q' = arrest_blocked q
    ∧ (if match kind q with Merchant => true | _ => false end
          && (3 <=? coins q) && (1 <=? treasury g)
       then coins q' = coins q + 1
            ∧ treasury (advance_turn_spec g) = treasury g - 1
       else coins q' = coins q
            ∧ treasury (advance_turn_spec g) = treasury g).
Proof.
  intros Htwo Hp. unfold advance_turn_spec.
  destruct (Nat.leb_spec (active_participants (player_list g)) 1); [lia|].
  gsimpl. rewrite next_active_seat_alter by done.
  destruct (next_active_seat_Some (player_list g) (current_turn g))
    as (seat & q & -> & Hne & Hq & Hact); [done|by eapply lookup_lt_Some|].
  gsimpl. rewrite current_turn_turn_begin_hook. gsimpl.
  set (s := with_current_turn seat
              (with_player_list
                 (alter clear_flags (current_turn g) (player_list g)) g)).
  assert (player_list s !! seat = Some q) as Hq'.
  { unfold s. gsimpl. by rewrite list_lookup_alter_ne. }
  assert (treasury s = treasury g) as Ht by done.
  exists q. unfold turn_begin_hook. rewrite Hq', Ht.
  destruct (kind q) eqn:Hk; cbn [andb];
    try (exists q; by rewrite Hq', Ht).
  destruct ((3 <=? coins q) && (1 <=? treasury g)).
  - exists (with_coins (coins q + 1) q). gsimpl.
    rewrite list_lookup_alter_eq, Hq'. by repeat split.
  - exists q. by rewrite Hq', Ht.
Qed.

(** ** Actions and the action counter *)

Lemma ends_bind {A} (m : M A) (f : A → M unit) k :
  (∀ n c, preserves (turn_state n c) m) → (∀ a, ends_action k (f a)) →
  ends_action k (bind m f).
Proof.
  intros Hm Hf g. apply wp_bind.
  eapply wp_mono;
    [by apply (Hm (current_turn g) (actions_remaining g))| |done..].
  intros a g1 [Hn Hc]. eapply wp_mono; [apply Hf| |done..].
  intros _ g' (g2 & Hn2 & Hc2 & ->). exists g2. by rewrite Hn2, Hc2, Hn, Hc.
Qed.

Lemma ends_throw k e : ends_action k (throw e).
Proof. by intros g. Qed.

Lemma ends_end_of_action : ends_action 0 end_of_action.
Proof.
  intros g. eapply wp_mono; [apply end_of_action_wp| |done..].
  intros _ g' ->. exists g. split; [done|]. split; [lia|done].
Qed.

Ltac ends_step :=
  match goal with
  | |- ends_action _ (bind _ _) =>
      apply ends_bind; [intros ??; preserves_auto|intros ?]
  | |- ends_action _ (if ?b then _ else _) => destruct b
  | |- ends_action _ (throw _) => apply ends_throw
  | |- ends_action _ end_of_action => apply ends_end_of_action
  end.

Lemma ends_turn_action m : turn_action m → ends_action 0 m.
Proof.
  destruct 1; unfold gather, tax, arrest, sanction, coup, invest;
    repeat ends_step.
Qed.

Lemma ends_bribe this : ends_action 2 (bribe this).
Proof.
  unfold bribe. do 4 ends_step. intros g. apply wp_bind.
  unfold add_extra_actions.
  apply wp_bind, wp_get, wp_bind, wp_int_result. destruct (in_int _); [|done].
  apply wp_put.
  eapply wp_mono; [apply end_of_action_wp| |done..].
  intros _ g' ->. eexists. split; [|split; [|reflexivity]]; done.
Qed.

(** ** Reachable states are well formed *)

Lemma preserves_treasury_add_to_treasury amount :
  preserves treasury_nonneg (add_to_treasury amount).
Proof.
  intros g Hg. unfold add_to_treasury.
  destruct (Z.ltb_spec amount 0); [done|].
  apply wp_bind, wp_get, wp_bind, wp_int_result. destruct (in_int _); [|done].
  apply wp_put. unfold treasury_nonneg in *. gsimpl. lia.
Qed.

Lemma preserves_treasury_remove_from_treasury amount :
  preserves treasury_nonneg (remove_from_treasury amount).
Proof.
  intros g Hg. unfold remove_from_treasury.
  destruct (Z.ltb_spec amount 0); [done|].
  apply wp_bind, wp_get. destruct (Z.ltb_spec (treasury g) amount); [done|].
  apply wp_bind, wp_int_result. destruct (in_int _); [|done].
  apply wp_put. unfold treasury_nonneg in *. gsimpl. lia.
Qed.

Lemma preserves_treasury_next_turn : preserves treasury_nonneg next_turn.
Proof.
  intros g Hg. eapply wp_mono; [apply next_turn_wp| |done..].
  intros _ g' ->. by apply treasury_advance_turn_spec.
Qed.

Lemma preserves_treasury_end_of_action :
  preserves treasury_nonneg end_of_action.
Proof.
  intros g Hg. eapply wp_mono; [apply end_of_action_wp| |done..].
  intros _ g' ->. by apply treasury_after_action.
Qed.

Lemma length_turn_begin_hook seat g :
  length (player_list (turn_begin_hook seat g)) = length (player_list g).
Proof.
  unfold turn_begin_hook. destruct (_ !! seat) as [x|]; [|done].
  destruct (kind x); try done. destruct (_ && _); [|done].
  gsimpl. apply length_alter.
Qed.

Lemma turn_pointer_advance_turn_spec g :
  turn_pointer_ok g → turn_pointer_ok (advance_turn_spec g).
Proof.
  intros Hg. unfold advance_turn_spec. destruct (_ <=? 1)%nat; [done|].
  gsimpl. destruct (next_active_seat _ _) as [seat|] eqn:Hseat.
  - apply next_active_seat_inv in Hseat as (_ & Hlt & _).
    rewrite length_alter in Hlt. right. unfold turn_in_range. gsimpl.
    rewrite current_turn_turn_begin_hook, length_turn_begin_hook. by gsimpl;
      rewrite length_alter.
  - destruct Hg as [[Hl Hc]|Hr]; [left|right].
    + gsimpl. by rewrite Hl.
    + unfold turn_in_range in *. gsimpl. by rewrite length_alter.
Qed.

Lemma turn_pointer_after_action g :
  turn_pointer_ok g → turn_pointer_ok (after_action g).
Proof.
  intros Hg. unfold after_action. destruct (0 <? _); gsimpl;
    (destruct (_ =? 0); [by apply turn_pointer_advance_turn_spec|done]).
Qed.

Lemma turn_pointer_same_length l g :
  length l = length (player_list g) →
  turn_pointer_ok g → turn_pointer_ok (with_player_list l g).
Proof.
  intros Hl [[Hnil Hc]|Hr]; [left|right].
  - gsimpl. split; [|done]. rewrite Hnil in Hl. by destruct l.
  - unfold turn_in_range in *. gsimpl. by rewrite Hl.
Qed.

Lemma preserves_pointer_next_turn : preserves turn_pointer_ok next_turn.
Proof.
  intros g Hg. eapply wp_mono; [apply next_turn_wp| |done..].
  intros _ g' ->. by apply turn_pointer_advance_turn_spec.
Qed.

Lemma preserves_pointer_end_of_action :
  preserves turn_pointer_ok end_of_action.
Proof.
  intros g Hg. eapply wp_mono; [apply end_of_action_wp| |done..].
  intros _ g' ->. by apply turn_pointer_after_action.
Qed.

Lemma preserves_add_extra_actions I count :
  (∀ a g, I g → I (with_actions_remaining a g)) →
  preserves I (add_extra_actions count).
Proof.
  intros HI g Hg. unfold add_extra_actions.
  apply wp_bind, wp_get, wp_bind, wp_int_result. destruct (in_int _); [|done].
  apply wp_put. auto.
Qed.

Lemma preserves_treasury_execute c : preserves treasury_nonneg (execute c).
Proof.
  pose proof preserves_treasury_add_to_treasury.
  pose proof preserves_treasury_remove_from_treasury.
  pose proof preserves_treasury_next_turn.
  pose proof preserves_treasury_end_of_action.
  assert (∀ n, preserves treasury_nonneg (add_extra_actions n))
    by (intros; by apply preserves_add_extra_actions).
  destruct c as [k n| |action actor target|spy target|spy target
                |action actor blocker|]; simpl.
  - intros g Hg. unfold add_player, validate_player_count.
    apply wp_bind, wp_bind, wp_get. destruct (6 <=? _)%nat; [done|].
    by apply wp_ret, wp_bind, wp_get, wp_put.
  - intros g Hg. unfold start_game. apply wp_bind, wp_get.
    by destruct (_ <? 2)%nat.
  - unfold performAction, gather, tax, bribe, invest, arrest, sanction, coup,
      on_turn_start.
    preserves_auto.
  - preserves_auto; by intros g Hg.
  - preserves_auto.
  - unfold onBlockClicked. apply preserves_bind; [|intros; eauto with preserves].
    apply preserves_try_catch; [|intros ?]; preserves_auto.
  - eauto with preserves.
Qed.

Lemma preserves_pointer_execute c : preserves turn_pointer_ok (execute c).
Proof.
  pose proof turn_pointer_same_length.
  pose proof preserves_pointer_next_turn.
  pose proof preserves_pointer_end_of_action.
  assert (∀ n, preserves turn_pointer_ok (add_extra_actions n))
    by (intros; by apply preserves_add_extra_actions).
  destruct c as [k n| |action actor target|spy target|spy target
                |action actor blocker|]; simpl.
  - intros g Hg. unfold add_player, validate_player_count.
    apply wp_bind, wp_bind, wp_get.
    destruct (6 <=? _)%nat; [done|].
    apply wp_ret, wp_bind, wp_get, wp_put. right.
    unfold turn_in_range. gsimpl. rewrite length_app. simpl.
    destruct Hg as [[_ ->]|Hr]; [lia|]. unfold turn_in_range in Hr. lia.
  - intros g Hg. unfold start_game. apply wp_bind, wp_get.
    by destruct (_ <? 2)%nat.
  - unfold performAction, gather, tax, bribe, invest, arrest, sanction, coup.
    preserves_auto.
  - preserves_auto; by intros g Hg.
  - preserves_auto.
  - unfold onBlockClicked. apply preserves_bind; [|intros; eauto with preserves].
    apply preserves_try_catch; [|intros ?]; preserves_auto.
  - eauto with preserves.
Qed.

(** In every reachable state the treasury and the action counter are not
    negative and the turn pointer designates a seat as soon as there is
    one. *)
Lemma reachable_well_formed g :
  reachable g →
  0 ≤ treasury g ∧ 0 ≤ actions_remaining g
  ∧ (player_list g ≠ [] → turn_in_range g).
Proof.
  intros Hg.
  enough (treasury_nonneg g ∧ counter_nonneg g ∧ turn_pointer_ok g)
    as (? & ? & [[? _]|?]); [done..|].
  induction Hg as [|g c g' _ (Ht & Hc & Hp) Hrun|g c e g' _ (Ht & Hc & Hp) Hrun].
  - split; [done|]. split; [done|]. by left.
  - split; [|split].
    + exact (wp_Ret _ _ _ _ _ _ _ (preserves_treasury_execute c g Ht) Hrun).
    + exact (wp_Ret _ _ _ _ _ _ _ (preserves_counter_execute c g Hc) Hrun).
    + exact (wp_Ret _ _ _ _ _ _ _ (preserves_pointer_execute c g Hp) Hrun).
  - split; [|split].
    + exact (wp_Throw _ _ _ _ _ _ _ (preserves_treasury_execute c g Ht) Hrun).
    + exact (wp_Throw _ _ _ _ _ _ _ (preserves_counter_execute c g Hc) Hrun).
    + exact (wp_Throw _ _ _ _ _ _ _ (preserves_pointer_execute c g Hp) Hrun).
Qed.

(** * The claims *)

(** ** The rule validator *)

(** C1 (the code departs from the claim).  The claim wants the coin check of
    [evaluate("Sanction", actor, target)] to ask for 4 coins when the target
    is a Judge.  [validateCoins] never sees the target: it compares the
    actor's coins with 3 for every Sanction.  For a Spy holding exactly 3
    coins and a Judge as target the validator accepts the action, and
    [Player::sanction], which does ask for 4 coins, then refuses it. *)
Theorem sanction_judge_coin_check_divergence :
  (∀ g player p,
      player_list g !! player = Some p →
      validateCoins "Sanction" player g
      = Ret (if coins p <? 3 then invalid "Need at least 3 coins for sanction"
             else valid) g)
  ∧ getValidationResult "Sanction" (Some 0%nat) (Some 1%nat) spy_faces_judge
    = Ret valid spy_faces_judge
  ∧ validateActionExecution "Sanction" (Some 0%nat) (Some 1%nat)
      spy_faces_judge
    = Ret tt spy_faces_judge
  ∧ sanction 0 1 spy_faces_judge
    = Throw (NotEnoughCoinsException "Not enough coins for action")
        spy_faces_judge.
Proof.
  split; [|by vm_compute].
  intros g player p Hp. by rewrite (validateCoins_run _ _ _ _ Hp).
Qed.

(** C3.  An actor who holds 10 coins or more is refused every action other
    than "Coup" and "End Turn" with the fixed diagnostic, whatever the
    target and the rest of the state. *)
Theorem mandatory_coup g action actor target p :
  player_list g !! actor = Some p →
  10 ≤ coins p →
  action ≠ "Coup" → action ≠ "End Turn" →
  getValidationResult action (Some actor) target g
  = Ret (invalid "Must perform coup when having 10 or more coins") g.
Proof.
  intros Hp Hc Hcoup Hend. unfold getValidationResult.
  rewrite (bind_run _ _ _ _ _ (get_coins_run _ _ _ Hp)).
  apply String.eqb_neq in Hcoup, Hend. rewrite Hcoup, Hend.
  by destruct (Z.leb_spec 10 (coins p)); [|lia].
Qed.

Lemma mandatory_coup_witness :
  getValidationResult "Gather" (Some 0%nat) None rich_governor
  = Ret (invalid "Must perform coup when having 10 or more coins")
      rich_governor.
Proof.
  apply (mandatory_coup rich_governor "Gather" 0%nat None
           (seat Governor "Gia" 10)).
  - reflexivity.
  - simpl. lia.
  - discriminate.
  - discriminate.
Defined.







(** ** Turn order *)

(** C4.  [next_turn] runs the turn-transition algorithm of the spec,
    [advance_turn_spec]: with at most one active participant it returns
    without changing anything; otherwise, from a state whose turn pointer
    designates a seat, it clears the two flags of the departing participant,
    moves the pointer circularly to the next active seat, runs the turn-begin
    hook of the participant found there and resets the action counter to 1.
    With two active participants or more the search always ends on an
    active seat other than the departing one, and in the state that
    [next_turn] returns the departing participant is neither sanctioned nor
    arrest-blocked and is otherwise as before, while the participant who
    comes on turn has had the turn-begin hook: a Merchant who holds 3 coins
    or more has taken 1 coin from a treasury that holds one, and nobody
    else has gained or lost anything. *)
Theorem next_turn_follows_spec :
  (∀ g, (active_participants (player_list g) ≤ 1)%nat →
        next_turn g = Ret tt g)
  ∧ (∀ g, turn_in_range g → room_for_income g →
          next_turn g = Ret tt (advance_turn_spec g))
  ∧ (∀ g p,
        (2 ≤ active_participants (player_list g))%nat →
        player_list g !! current_turn g = Some p →
        ∃ seat,
          next_active_seat (player_list g) (current_turn g) = Some seat
          ∧ seat ≠ current_turn g
          ∧ current_turn (advance_turn_spec g) = seat
          ∧ seat_active (player_list (advance_turn_spec g)) seat = true
          ∧ actions_remaining (advance_turn_spec g) = 1
          ∧ player_list (advance_turn_spec g) !! current_turn g
            = Some (clear_flags p))
  ∧ (∀ g g' p,
        (2 ≤ active_participants (player_list g))%nat →
        player_list g !! current_turn g = Some p →
        next_turn g = Ret tt g' →
        ∃ p', player_list g' !! current_turn g = Some p'
              ∧ sanctioned p' = false ∧ arrest_blocked p' = false
              ∧ name p' = name p ∧ coins p' = coins p
              ∧ active p' = active p ∧ kind p' = kind p
              ∧ own_last_arrested_player p' = own_last_arrested_player p)
  ∧ (∀ g g' p,
        (2 ≤ active_participants (player_list g))%nat →
        player_list g !! current_turn g = Some p →
        next_turn g = Ret tt g' →
        ∃ q q',
          player_list g !! current_turn g' = Some q
          ∧ player_list g' !! current_turn g' = Some q'
          ∧ active q = true
          ∧ name q' = name q ∧ kind q' = kind q ∧ active q' = active q
          ∧ sanctioned q' = sanctioned q
          ∧ arrest_blocked q' = arrest_blocked q
          ∧ (if match kind q with Merchant => true | _ => false end
                && (3 <=? coins q) && (1 <=? treasury g)
             then coins q' = coins q + 1 ∧ treasury g' = treasury g - 1
             else coins q' = coins q ∧ treasury g' = treasury g)).
Proof.
  split; [|split; [|split; [|split]]].
  - intros g Hle. unfold next_turn, bind, get. rewrite count_active_spec.
    by destruct (Z.leb_spec (Z.of_nat (active_participants (player_list g))) 1);
      [|lia].
  - intros g Hr Hroom. pose proof (next_turn_wp g) as Hwp. unfold wp in Hwp.
    destruct (next_turn g) as [[] g'|e g'|]; [by subst|done|].
    by destruct Hwp.
  - apply advance_turn_spec_moves.
  - intros g g' p Htwo Hp Hrun.
    rewrite (wp_Ret _ _ _ _ _ _ _ (next_turn_wp g) Hrun).
    destruct (advance_turn_spec_moves g p Htwo Hp)
      as (seat & _ & _ & _ & _ & _ & Hdeparting).
    exists (clear_flags p). split; [exact Hdeparting|].
    unfold clear_flags, with_arrest_blocked, with_sanctioned.
    cbn [sanctioned arrest_blocked name coins active kind
         own_last_arrested_player].
    by repeat split.
  - intros g g' p Htwo Hp Hrun.
    rewrite (wp_Ret _ _ _ _ _ _ _ (next_turn_wp g) Hrun).
    by apply (advance_turn_spec_hook g p).
Qed.

Lemma next_turn_follows_spec_witness :
  next_turn table_of_three = Ret tt (advance_turn_spec table_of_three)
  ∧ current_turn (advance_turn_spec table_of_three) = 1%nat
  ∧ actions_remaining (advance_turn_spec table_of_three) = 1
  ∧ (∃ p', player_list (advance_turn_spec table_of_three) !! 0%nat = Some p'
           ∧ sanctioned p' = false ∧ arrest_blocked p' = false
           ∧ name p' = "Gia" ∧ coins p' = 2)
  ∧ (∃ q', player_list (advance_turn_spec table_of_three) !! 1%nat = Some q'
           ∧ name q' = "Mia" ∧ coins q' = 4)
  ∧ treasury (advance_turn_spec table_of_three) = 43.
Proof.
  assert (next_turn table_of_three
          = Ret tt (advance_turn_spec table_of_three)) as Hrun.
  { apply (proj1 (proj2 next_turn_follows_spec) table_of_three).
    + unfold turn_in_range. simpl. lia.
    + split; [by vm_compute|]. by repeat constructor. }
  assert (2 ≤ active_participants (player_list table_of_three))%nat as Htwo
    by (vm_compute; lia).
  destruct next_turn_follows_spec as (_ & _ & Hmoves & Hdeparting & Hhook).
  destruct (Hmoves table_of_three
              (mkPlayer "Gia" 2 true true "" true Governor) Htwo eq_refl)
    as (seat & Hseat & _ & Hturn & _ & Hcount & _).
  assert (seat = 1%nat) as ->
    by (vm_compute in Hseat; by injection Hseat as <-).
  destruct (Hdeparting table_of_three (advance_turn_spec table_of_three)
              (mkPlayer "Gia" 2 true true "" true Governor) Htwo eq_refl Hrun)
    as (p' & Hp' & Hs & Hb & Hn & Hc & _).
  destruct (Hhook table_of_three (advance_turn_spec table_of_three)
              (mkPlayer "Gia" 2 true true "" true Governor) Htwo eq_refl Hrun)
    as (q & q' & Hq & Hq' & _ & Hnq & _ & _ & _ & _ & Hincome).
  rewrite Hturn in Hq, Hq'. injection Hq as <-.
  destruct Hincome as [Hcoins Htreasury].
  split; [exact Hrun|]. split; [exact Hturn|]. split; [exact Hcount|].
  split; [by exists p'|]. split; [by exists q'|exact Htreasury].
Defined.

(** ** The treasury *)

(** C2.  Along every sequence of committed actions the treasury stays
    non-negative and the coins of the system, treasury plus balances of all
    participants, keep their total.  A committed Bribe moves 4 coins from
    the actor to the treasury.  A committed Coup moves 7 coins from the
    actor to the treasury; when the Coup ends the turn and the next
    participant is a Merchant who takes the turn-start income, that coin has
    left the treasury again. *)
Theorem treasury_invariant :
  (∀ actions g g',
      0 ≤ treasury g → commit_all actions g = Ret tt g' →
      0 ≤ treasury g' ∧ wealth g' = wealth g)
  ∧ (∀ this g g',
        0 ≤ actions_remaining g → bribe this g = Ret tt g' →
        coins_at g' this = coins_at g this - 4
        ∧ treasury g' = treasury g + 4
        ∧ wealth g' = wealth g)
  ∧ (∀ this target g g',
        coup this target g = Ret tt g' →
        coins_at g' this = coins_at g this - 7
        ∧ wealth g' = wealth g
        ∧ (treasury g' = treasury g + 7
           ∨ (treasury g' = treasury g + 7 - 1
              ∧ current_turn g' ≠ this
              ∧ ∃ q, player_list g' !! current_turn g' = Some q
                     ∧ kind q = Merchant))).
Proof.
  split; [|split].
  - intros actions g g' Ht Hrun.
    destruct (wp_Ret _ _ _ _ _ _ _ (conserves_commit_all actions g) Hrun).
    auto.
  - intros this g g' Hc Hrun.
    pose proof (wp_Ret _ _ _ _ _ _ _ (conserves_bribe this g) Hrun) as [Hw _].
    destruct (bribe_effect _ _ _ Hrun) as (p & Hp & Hturn & H4 & ->).
    rewrite after_action_more_actions in * by (gsimpl; lia).
    split; [|done]. unfold coins_at at 1 2. gsimpl.
    by rewrite list_lookup_alter_eq, Hp.
  - intros this target g g' Hrun.
    pose proof (wp_Ret _ _ _ _ _ _ _ (conserves_coup this target g) Hrun)
      as [Hw _].
    destruct (coup_effect _ _ _ _ Hrun)
      as (p & q & Hp & Hq & Hne & Hturn & H7 & ->).
    set (g1 := with_player_list _ _) in *.
    split; [|split; [done|]].
    + rewrite <- Hturn at 1.
      change (current_turn g) with (current_turn g1).
      rewrite after_action_departing_coins. unfold g1, coins_at. gsimpl.
      rewrite Hturn, list_lookup_alter_ne, list_lookup_alter_eq, Hp by done.
      done.
    + destruct (after_action_treasury g1) as [->|(-> & Hmoved & Hq')];
        [by left|right].
      split; [done|]. split; [|done]. by rewrite <- Hturn.
Qed.

Lemma treasury_invariant_witness :
  (∃ g', commit_all [("Coup", 0%nat, Some 2%nat); ("Gather", 1%nat, None)]
           coup_table = Ret tt g'
         ∧ 0 ≤ treasury g' ∧ wealth g' = wealth coup_table)
  ∧ (∃ g', bribe 0 coup_table = Ret tt g'
           ∧ coins_at g' 0 = coins_at coup_table 0 - 4
           ∧ treasury g' = treasury coup_table + 4)
  ∧ (∃ g', coup 0 2 coup_table = Ret tt g'
           ∧ coins_at g' 0 = coins_at coup_table 0 - 7
           ∧ wealth g' = wealth coup_table).
Proof.
  split; [|split].
  - eexists. split; [by vm_compute|].
    apply (proj1 treasury_invariant
             [("Coup", 0%nat, Some 2%nat); ("Gather", 1%nat, None)]
             coup_table); by vm_compute.
  - eexists. split; [by vm_compute|].
    destruct (proj1 (proj2 treasury_invariant) 0%nat coup_table _
                ltac:(by vm_compute) eq_refl) as (Hc & Ht & _).
    by split.
  - eexists. split; [by vm_compute|].
    destruct (proj2 (proj2 treasury_invariant) 0%nat 2%nat coup_table _
                eq_refl) as (Hc & Hw & _).
    by split.
Defined.

(** ** Arrests and sanctions *)

(** C7.  A committed arrest records the name of its target in the match;
    no other command touches the record; and while a participant is the
    recorded target, an arrest attempt against them throws, whoever the
    actor is, and leaves the whole state as it was: balances, record and
    turn state included.  When nothing else is wrong with the attempt the
    exception is the repeat-arrest [IllegalMoveException]. *)
Theorem global_arrest_restriction :
  (∀ this target g g' q,
      player_list g !! target = Some q →
      arrest this target g = Ret tt g' →
      last_arrested_player g' = name q)
  ∧ (∀ c g,
        (∀ actor target, c ≠ Commit "Arrest" actor (Some target)) →
        (∀ g', execute c g = Ret tt g' →
               last_arrested_player g' = last_arrested_player g)
        ∧ (∀ e g', execute c g = Throw e g' →
                   last_arrested_player g' = last_arrested_player g))
  ∧ (∀ this target g p q,
        player_list g !! this = Some p → player_list g !! target = Some q →
        turn_in_range g →
        last_arrested_player g = name q →
        ∃ e, arrest this target g = Throw e g
             ∧ (active p = true → current_turn g = this →
                game_started g = true → active q = true → target ≠ this →
                arrest_blocked p = false →
                e = IllegalMoveException
                      "Cannot arrest the same player twice in a row")).
Proof.
  split; [|split].
  - apply arrest_records_target.
  - intros c g Hc.
    pose proof (preserves_record_execute (last_arrested_player g) c Hc g
                  eq_refl) as Hwp.
    split.
    + intros g' Hrun. exact (wp_Ret _ _ _ _ _ _ _ Hwp Hrun).
    + intros e g' Hrun. exact (wp_Throw _ _ _ _ _ _ _ Hwp Hrun).
  - intros this target g p q Hp Hq Hr Hlast.
    destruct (wp_throws _ _ _ (repeated_arrest_throws _ _ _ _ _ Hp Hq Hr Hlast))
      as (e & g' & Hrun & -> & He).
    by exists e.
Qed.

Lemma global_arrest_restriction_witness :
  (∃ g', arrest 0 2 jo_just_arrested = Ret tt g'
         ∧ last_arrested_player g' = "Bea")
  ∧ (∃ g', execute (Commit "Gather" 0%nat None) jo_just_arrested = Ret tt g'
           ∧ last_arrested_player g' = "Jo")
  ∧ arrest 0 1 jo_just_arrested
    = Throw (IllegalMoveException
               "Cannot arrest the same player twice in a row")
        jo_just_arrested.
Proof.
  split; [|split].
  - eexists. split; [by vm_compute|].
    apply (proj1 global_arrest_restriction 0%nat 2%nat jo_just_arrested _
             (seat Baron "Bea" 1)); by vm_compute.
  - eexists. split; [by vm_compute|].
    apply (proj1 (proj2 global_arrest_restriction)
             (Commit "Gather" 0%nat None) jo_just_arrested);
      [discriminate|by vm_compute].
  - destruct (proj2 (proj2 global_arrest_restriction) 0%nat 1%nat
                jo_just_arrested (seat Spy "Sam" 3) (seat Judge "Jo" 2))
      as (e & Hrun & He).
    + reflexivity.
    + reflexivity.
    + unfold turn_in_range. simpl. lia.
    + reflexivity.
    + rewrite Hrun. f_equal. apply He; try reflexivity. discriminate.
Defined.

(** C8.  A committed sanction against a Baron, from a treasury that is not
    in debt, always pays the compensation: the actor has paid the cost of 3
    coins, the Baron holds 1 coin more, and the treasury has gained 3 and
    paid 1 (net 2).  Only when the sanction ends the turn and the next
    participant is a Merchant who takes the turn-start income has one more
    coin left the treasury. *)
Theorem baron_compensation this target g g' q :
  player_list g !! target = Some q → kind q = Baron → 0 ≤ treasury g →
  sanction this target g = Ret tt g' →
  coins_at g' target = coins_at g target + 1
  ∧ coins_at g' this = coins_at g this - 3
  ∧ (treasury g' = treasury g + 3 - 1
     ∨ (treasury g' = treasury g + 3 - 1 - 1
        ∧ current_turn g' ≠ this
        ∧ ∃ m, player_list g' !! current_turn g' = Some m
               ∧ kind m = Merchant)).
Proof.
  intros Hq Hk Ht Hrun.
  destruct (sanction_baron_effect _ _ _ _ _ Hq Hk Ht Hrun)
    as (p & Hp & Hne & Hturn & H3 & ->).
  set (g1 := with_player_list _ _).
  assert (player_list g1 !! target
          = Some (with_sanctioned true (with_coins (coins q + 1) q))) as Hq1.
  { unfold g1. gsimpl.
    by rewrite !list_lookup_alter_eq, list_lookup_alter_ne, Hq by done. }
  assert (player_list g1 !! this = Some (with_coins (coins p - 3) p)) as Hp1.
  { unfold g1. gsimpl.
    by rewrite !list_lookup_alter_ne, list_lookup_alter_eq, Hp by done. }
  split; [|split].
  - rewrite (after_action_coins_not_merchant g1 target _ Hq1)
      by (simpl; congruence).
    unfold coins_at. by rewrite Hq1, Hq.
  - rewrite <- Hturn at 1. change (current_turn g) with (current_turn g1).
    rewrite after_action_departing_coins.
    unfold coins_at. change (current_turn g1) with (current_turn g).
    by rewrite Hturn, Hp1, Hp.
  - destruct (after_action_treasury g1) as [->|(-> & Hmoved & Hm)];
      [by left|right].
    split; [done|]. split; [|done]. by rewrite <- Hturn.
Qed.

Lemma baron_compensation_witness :
  ∃ g', sanction 1 0 spy_faces_baron = Ret tt g'
        ∧ coins_at g' 0 = coins_at spy_faces_baron 0 + 1
        ∧ coins_at g' 1 = coins_at spy_faces_baron 1 - 3
        ∧ treasury g' = treasury spy_faces_baron + 2.
Proof.
  eexists. split; [by vm_compute|].
  destruct (baron_compensation 1 0 spy_faces_baron _ (seat Baron "Bea" 6)
              eq_refl eq_refl ltac:(by vm_compute) eq_refl)
    as (Hb & Ha & _).
  split; [exact Hb|]. split; [exact Ha|]. by vm_compute.
Defined.

(** ** The action counter *)

(** C5, as the spec states it, fails: once a Coup has decided the match the
    counter is 0, and a Gather committed then consumes no action. *)
Lemma gather_after_decision_consumes_nothing :
  coup 0 1 duel_before_coup = Ret tt duel_decided
  ∧ actions_remaining duel_decided = 0
  ∧ ∃ g', gather 0 duel_decided = Ret tt g'
          ∧ coins_at g' 0 = coins_at duel_decided 0 + 1
          ∧ actions_remaining g' = actions_remaining duel_decided.
Proof. split; [by vm_compute|]. split; [done|]. eexists. by vm_compute. Qed.

(** C5, amended.  The counter is 1 in a new match and after every turn
    transition between two or more active participants.  A committed Bribe
    adds 2 actions and consumes 1, and does not end the turn.  Each of
    Gather, Tax, Arrest, Sanction, Coup and Invest, committed while the
    counter is positive, consumes exactly 1; committed with the counter at 0
    it consumes nothing.  After the consumption the turn transition runs
    exactly when the counter is 0, and the turn pointer stays otherwise.
    The two operations of the Spy, Investigate and Block Arrest, consume
    nothing and leave the turn pointer alone. *)
Theorem action_economy :
  actions_remaining new_game = 1
  ∧ (∀ g p,
        (2 ≤ active_participants (player_list g))%nat →
        player_list g !! current_turn g = Some p →
        actions_remaining (advance_turn_spec g) = 1)
  ∧ (∀ this g g',
        0 ≤ actions_remaining g → bribe this g = Ret tt g' →
        actions_remaining g' = actions_remaining g + 2 - 1
        ∧ current_turn g' = current_turn g)
  ∧ (∀ m g g',
        turn_action m → m g = Ret tt g' →
        (1 < actions_remaining g →
         actions_remaining g' = actions_remaining g - 1
         ∧ current_turn g' = current_turn g)
        ∧ (actions_remaining g = 1 ∨ actions_remaining g = 0 →
           ∃ g0, current_turn g0 = current_turn g
                 ∧ actions_remaining g0 = 0
                 ∧ g' = advance_turn_spec g0))
  ∧ (∀ this target g g',
        investigate this target g = Ret tt g'
        ∨ block_arrest_ability this target g = Ret tt g' →
        actions_remaining g' = actions_remaining g
        ∧ current_turn g' = current_turn g).
Proof.
  split; [done|]. split; [|split; [|split]].
  - intros g p Htwo Hp.
    by destruct (advance_turn_spec_moves g p Htwo Hp) as (? & _ & _ & _ & _ & ? & _).
  - intros this g g' Hc Hrun.
    destruct (wp_Ret _ _ _ _ _ _ _ (ends_bribe this g) Hrun)
      as (g1 & Hn & Hc1 & ->).
    rewrite after_action_more_actions by lia. gsimpl. split; [lia|done].
  - intros m g g' Hm Hrun.
    destruct (wp_Ret _ _ _ _ _ _ _ (ends_turn_action m Hm g) Hrun)
      as (g1 & Hn & Hc1 & ->).
    rewrite Z.add_0_r in Hc1. split.
    + intros Hc. rewrite after_action_more_actions by lia. gsimpl.
      split; [lia|done].
    + intros [Hc|Hc]; unfold after_action; rewrite Hc1, Hc; simpl.
      * by exists (with_actions_remaining 0 g1).
      * rewrite Hc1, Hc. simpl. exists g1. by rewrite Hc1, Hc.
  - intros this target g g' [Hrun|Hrun].
    + assert (preserves (turn_state (current_turn g) (actions_remaining g))
                (investigate this target)) as Hpres
        by (apply preserves_investigate; done).
      by destruct (wp_Ret _ _ _ _ _ _ _ (Hpres g ltac:(done)) Hrun).
    + assert (preserves (turn_state (current_turn g) (actions_remaining g))
                (block_arrest_ability this target)) as Hpres
        by (apply preserves_block_arrest_ability; done).
      by destruct (wp_Ret _ _ _ _ _ _ _ (Hpres g ltac:(done)) Hrun).
Qed.

Lemma action_economy_witness :
  actions_remaining (advance_turn_spec table_of_three) = 1
  ∧ (∃ g', bribe 0 coup_table = Ret tt g'
           ∧ actions_remaining g' = 2 ∧ current_turn g' = 0%nat)
  ∧ (∃ g', gather 0 (with_actions_remaining 2 coup_table) = Ret tt g'
           ∧ actions_remaining g' = 1 ∧ current_turn g' = 0%nat)
  ∧ (∃ g' g0, gather 0 coup_table = Ret tt g'
              ∧ actions_remaining g0 = 0 ∧ g' = advance_turn_spec g0)
  ∧ (∃ g', block_arrest_ability 0 1 jo_just_arrested = Ret tt g'
           ∧ actions_remaining g' = 1 ∧ current_turn g' = 0%nat).
Proof.
  destruct action_economy as (_ & Hstart & Hbribe & Hturn & Hspy).
  split; [|split; [|split; [|split]]].
  - apply (Hstart table_of_three (mkPlayer "Gia" 2 true true "" true Governor)).
    + vm_compute. lia.
    + reflexivity.
  - eexists. split; [by vm_compute|].
    apply (Hbribe 0%nat coup_table); by vm_compute.
  - eexists. split; [by vm_compute|].
    apply (Hturn (gather 0) (with_actions_remaining 2 coup_table));
      [constructor|by vm_compute|by vm_compute].
  - assert (∃ g', gather 0 coup_table = Ret tt g') as [g' Hrun]
      by (eexists; by vm_compute).
    destruct (proj2 (Hturn (gather 0) coup_table g' (turn_action_gather 0)
                       Hrun)) as (g0 & _ & Hc & Hg'); [by left|].
    by exists g', g0.
  - eexists. split; [by vm_compute|].
    apply (Hspy 0%nat 1%nat jo_just_arrested). right. by vm_compute.
Defined.

(** C10, as it is stated, fails: [add_extra_actions] adds its argument
    without looking at it, and a negative count makes the counter
    negative. *)
Lemma add_extra_actions_negative_count :
  ∃ g', add_extra_actions (- 3) new_game = Ret tt g'
        ∧ actions_remaining new_game = 1
        ∧ actions_remaining g' = - 2.
Proof. eexists. by vm_compute. Qed.

(** C10, amended.  [consume_action] leaves a counter at 0 where it is and
    takes 1 from a positive counter only; [add_extra_actions] with a count
    that is not negative (Bribe, its only caller, passes 2) and
    [start_turn_actions] keep the counter from going below 0; and the
    counter is not negative in any state the commands of the engine reach
    from a new match, be it by returning or by throwing. *)
Theorem actions_remaining_never_negative :
  (∀ g, actions_remaining g = 0 → consume_action g = Ret tt g)
  ∧ (∀ g g',
        consume_action g = Ret tt g' →
        actions_remaining g'
        = if 0 <? actions_remaining g then actions_remaining g - 1
          else actions_remaining g)
  ∧ (∀ count g g',
        0 ≤ count → 0 ≤ actions_remaining g →
        add_extra_actions count g = Ret tt g' →
        0 ≤ actions_remaining g')
  ∧ (∀ g, start_turn_actions g = Ret tt (with_actions_remaining 1 g))
  ∧ (∀ g, reachable g → 0 ≤ actions_remaining g).
Proof.
  split; [|split; [|split; [|split]]].
  - intros g Hc. unfold consume_action, bind, get. by rewrite Hc.
  - intros g g'. unfold consume_action, bind, get, int_result.
    destruct (0 <? actions_remaining g); [|by intros [= <-]].
    destruct (in_int _); [|done]. by intros [= <-].
  - intros count g g' Hcount Hg Hrun.
    exact (wp_Ret _ _ _ _ _ _ _
             (preserves_counter_add_extra_actions count Hcount g Hg) Hrun).
  - done.
  - apply reachable_counter_nonneg.
Qed.

Lemma actions_remaining_never_negative_witness :
  ∃ g, play scenario_a new_game = Ret tt g
       ∧ coins_at g 0 = 3 ∧ treasury g = 47 ∧ current_turn g = 1%nat
       ∧ 0 ≤ actions_remaining g.
Proof.
  destruct actions_remaining_never_negative as (_ & _ & _ & _ & Hreach).
  assert (∃ g, play scenario_a new_game = Ret tt g) as [g Hg]
    by (eexists; by vm_compute).
  exists g. split; [exact Hg|].
  assert (reachable g) as Hr
    by exact (reachable_play scenario_a new_game g reachable_new Hg).
  vm_compute in Hg. injection Hg as <-.
  split; [reflexivity|]. split; [reflexivity|]. split; [reflexivity|].
  exact (Hreach _ Hr).
Defined.

(** * Further properties of the engine *)

(** ** Looking players up by name *)

Lemma map_fmap {A B} (f : A → B) (l : list A) : map f l = f <$> l.
Proof. induction l as [|x l IH]; [done|]. simpl. by rewrite IH. Qed.

Lemma find_if_Some {A} (pred : A → bool) (l : list A) i :
  find_if pred l = Some i →
  ∃ x, l !! i = Some x ∧ pred x = true
       ∧ ∀ j y, (j < i)%nat → l !! j = Some y → pred y = false.
Proof.
  revert i. induction l as [|x l IH]; intros i; [done|]. simpl.
  destruct (pred x) eqn:Hx.
  - intros [= <-]. exists x. split; [done|]. split; [done|]. lia.
  - destruct (find_if pred l) as [k|]; [|done]. intros [= <-].
    destruct (IH k eq_refl) as (y & Hy & Hpy & Hbefore).
    exists y. split; [done|]. split; [done|].
    intros [|j] z Hj; simpl; [by intros [= <-]|].
    apply Hbefore. lia.
Qed.

Lemma find_if_None {A} (pred : A → bool) (l : list A) :
  find_if pred l = None → Forall (λ x, pred x = false) l.
Proof.
  induction l as [|x l IH]; [by constructor|]. simpl.
  destruct (pred x) eqn:Hx; [done|].
  destruct (find_if pred l); [done|]. intros _. constructor; auto.
Qed.

Lemma find_if_is_Some {A} (pred : A → bool) (l : list A) i x :
  l !! i = Some x → pred x = true → is_Some (find_if pred l).
Proof.
  intros Hx Hp. destruct (find_if pred l) eqn:Hf; [done|].
  apply find_if_None in Hf.
  rewrite (Forall_lookup_1 _ _ _ _ Hf Hx) in Hp. done.
Qed.

Lemma get_player_by_name_first g n i g' :
  get_player_by_name n g = Ret i g' →
  g' = g
  ∧ ∃ p, player_list g !! i = Some p ∧ name p = n
         ∧ ∀ j q, (j < i)%nat → player_list g !! j = Some q → name q ≠ n.
Proof.
  unfold get_player_by_name, bind, get.
  destruct (find_if _ _) as [k|] eqn:Hf; [|done]. intros [= <- <-].
  split; [done|].
  destruct (find_if_Some _ _ _ Hf) as (p & Hp & Hn & Hbefore).
  exists p. split; [done|]. split; [by apply String.eqb_eq|].
  intros j q Hj Hq. apply String.eqb_neq. eauto.
Qed.

Lemma get_player_by_name_missing g n :
  n ∉ map name (player_list g) →
  get_player_by_name n g
  = Throw (PlayerNotFoundException ("Player not found: " ++ n)) g.
Proof.
  intros Hn. unfold get_player_by_name, bind, get.
  destruct (find_if _ _) as [k|] eqn:Hf; [|done].
  destruct (find_if_Some _ _ _ Hf) as (p & Hp & Hpn & _).
  apply String.eqb_eq in Hpn. destruct Hn. subst n.
  rewrite map_fmap. apply list_elem_of_fmap. exists p. split; [done|].
  by eapply list_elem_of_lookup_2.
Qed.

Lemma get_player_by_name_seat g i p :
  NoDup (map name (player_list g)) →
  player_list g !! i = Some p →
  get_player_by_name (name p) g = Ret i g.
Proof.
  rewrite map_fmap. intros Hnd Hp. unfold get_player_by_name, bind, get.
  destruct (find_if_is_Some (λ q, String.eqb (name q) (name p))
              (player_list g) i p Hp (String.eqb_refl _)) as [k Hk].
  rewrite Hk. destruct (find_if_Some _ _ _ Hk) as (q & Hq & Hn & _).
  apply String.eqb_eq in Hn. f_equal.
  eapply NoDup_lookup; [exact Hnd| |].
  - rewrite list_lookup_fmap, Hq. simpl. by rewrite Hn.
  - by rewrite list_lookup_fmap, Hp.
Qed.


(** ** The winner *)

Lemma active_participants_cons p l :
  active_participants (p :: l)
  = if active p then S (active_participants l) else active_participants l.
Proof.
  unfold active_participants. rewrite filter_cons.
  destruct (active p); by destruct (decide _).
Qed.

Lemma find_active_None l :
  active_participants l = 0%nat → List.find active l = None.
Proof.
  induction l as [|p l IH]; [done|]. rewrite active_participants_cons. simpl.
  destruct (active p); [done|]. exact IH.
Qed.

Lemma find_active_unique l : ∀ i p,
  l !! i = Some p → active p = true → active_participants l = 1%nat →
  List.find active l = Some p.
Proof.
  induction l as [|x l IH]; intros i p Hp Ha; [done|].
  rewrite active_participants_cons. simpl. destruct i as [|i]; simpl in Hp.
  - injection Hp as ->. by rewrite Ha.
  - destruct (active x) eqn:Hx; [|by apply (IH i)].
    intros [= H0]. assert (p ∈ filter (λ p, active p = true) l) as Hin.
    { apply list_elem_of_filter. split; [done|].
      by eapply list_elem_of_lookup_2. }
    unfold active_participants in H0.
    destruct (filter _ l); [|done]. by apply not_elem_of_nil in Hin.
Qed.

Lemma is_game_over_run g :
  is_game_over g = Ret (active_participants (player_list g) <=? 1)%nat g.
Proof.
  unfold is_game_over, bind, get, ret. rewrite count_active_spec. f_equal.
  destruct (Nat.leb_spec (active_participants (player_list g)) 1);
    [apply Z.leb_le|apply Z.leb_gt]; lia.
Qed.

Lemma winner_last_active g i p :
  player_list g !! i = Some p → active p = true →
  active_participants (player_list g) = 1%nat →
  winner g = Ret (name p) g.
Proof.
  intros Hp Ha H1. unfold winner.
  rewrite (bind_run _ _ _ _ _ (is_game_over_run g)), H1. simpl.
  unfold bind, get. by rewrite (find_active_unique _ _ _ Hp Ha H1).
Qed.

(** ** The size of the roster *)

Lemma length_advance_turn_spec g :
  length (player_list (advance_turn_spec g)) = length (player_list g).
Proof.
  unfold advance_turn_spec. destruct (_ <=? 1)%nat; [done|]. gsimpl.
  destruct (next_active_seat _ _); gsimpl;
    rewrite ?length_turn_begin_hook; gsimpl; apply length_alter.
Qed.

Lemma game_started_turn_begin_hook seat g :
  game_started (turn_begin_hook seat g) = game_started g.
Proof.
  unfold turn_begin_hook. destruct (_ !! seat) as [x|]; [|done].
  destruct (kind x); try done. by destruct (_ && _).
Qed.

Lemma game_started_advance_turn_spec g :
  game_started (advance_turn_spec g) = game_started g.
Proof.
  unfold advance_turn_spec. destruct (_ <=? 1)%nat; [done|]. gsimpl.
  destruct (next_active_seat _ _); gsimpl; [|done].
  by rewrite game_started_turn_begin_hook.
Qed.

Lemma length_after_action g :
  length (player_list (after_action g)) = length (player_list g).
Proof.
  unfold after_action. destruct (0 <? _); gsimpl;
    (destruct (_ =? 0); [by rewrite length_advance_turn_spec|done]).
Qed.

Lemma game_started_after_action g :
  game_started (after_action g) = game_started g.
Proof.
  unfold after_action. destruct (0 <? _); gsimpl;
    (destruct (_ =? 0); [by rewrite game_started_advance_turn_spec|done]).
Qed.

Lemma roster_ok_same_length l g :
  length l = length (player_list g) →
  roster_ok g → roster_ok (with_player_list l g).
Proof. unfold roster_ok. gsimpl. by intros ->. Qed.

Lemma preserves_roster_next_turn : preserves roster_ok next_turn.
Proof.
  intros g Hg. eapply wp_mono; [apply next_turn_wp| |done..].
  intros _ g' ->. unfold roster_ok in *.
  by rewrite length_advance_turn_spec, game_started_advance_turn_spec.
Qed.

Lemma preserves_roster_end_of_action : preserves roster_ok end_of_action.
Proof.
  intros g Hg. eapply wp_mono; [apply end_of_action_wp| |done..].
  intros _ g' ->. unfold roster_ok in *.
  by rewrite length_after_action, game_started_after_action.
Qed.

Lemma preserves_roster_execute c : preserves roster_ok (execute c).
Proof.
  pose proof roster_ok_same_length.
  pose proof preserves_roster_next_turn.
  pose proof preserves_roster_end_of_action.
  assert (∀ n, preserves roster_ok (add_extra_actions n))
    by (intros; by apply preserves_add_extra_actions).
  destruct c as [k n| |action actor target|spy target|spy target
                |action actor blocker|]; simpl.
  - intros g [Hsix Htwo]. unfold add_player, validate_player_count.
    apply wp_bind, wp_bind, wp_get.
    destruct (Nat.leb_spec 6 (length (player_list g))); [done|].
    apply wp_ret, wp_bind, wp_get, wp_put. unfold roster_ok. gsimpl.
    rewrite length_app. simpl. split; [lia|]. intros Hs.
    specialize (Htwo Hs). lia.
  - intros g [Hsix Htwo]. unfold start_game. apply wp_bind, wp_get.
    destruct (Nat.ltb_spec (length (player_list g)) 2); [done|].
    apply wp_put. by split.
  - unfold performAction, gather, tax, bribe, invest, arrest, sanction, coup.
    preserves_auto.
  - preserves_auto; by intros g Hg.
  - preserves_auto.
  - unfold onBlockClicked. apply preserves_bind; [|intros; eauto with preserves].
    apply preserves_try_catch; [|intros ?]; preserves_auto.
  - eauto with preserves.
Qed.

Lemma reachable_roster_ok g : reachable g → roster_ok g.
Proof.
  induction 1 as [|g c g' _ IH Hc|g c e g' _ IH Hc].
  - split; [simpl; lia|done].
  - exact (wp_Ret _ _ _ _ _ _ _ (preserves_roster_execute c g IH) Hc).
  - exact (wp_Throw _ _ _ _ _ _ _ (preserves_roster_execute c g IH) Hc).
Qed.

(** ** Removing the eliminated players *)

Lemma removed_before_spec l : ∀ ct,
  (removed_before ct l
   + length (filter (λ p, active p = true) (take ct l))
   = ct `min` length l)%nat.
Proof.
  induction l as [|p l IH]; intros [|ct]; simpl; try done.
  rewrite filter_cons. specialize (IH ct).
  destruct (active p); destruct (decide _); try done; simpl; lia.
Qed.

Lemma removed_before_all_active l : ∀ ct,
  Forall (λ p, active p = true) l → removed_before ct l = 0%nat.
Proof.
  induction l as [|p l IH]; intros [|ct] Hl; simpl; try done.
  apply Forall_cons in Hl as [-> Hl]. simpl. by apply IH.
Qed.

Lemma filter_all_active l :
  Forall (λ p : Player, active p = true) l →
  filter (λ p, active p = true) l = l.
Proof.
  induction l as [|p l IH]; [done|]. intros [Hp Hl]%Forall_cons.
  rewrite filter_cons. destruct (decide _); [|done]. by rewrite IH.
Qed.

Lemma Forall_filter_active (l : list Player) :
  Forall (λ p, active p = true) (filter (λ p, active p = true) l).
Proof. apply Forall_forall. by intros p [? _]%list_elem_of_filter. Qed.

Lemma total_coins_filter_active l :
  total_coins (filter (λ p, active p = true) l)
  = total_coins l - total_coins (filter (λ p, active p = false) l).
Proof.
  induction l as [|p l IH]; [done|]. rewrite !filter_cons.
  destruct (active p); repeat destruct (decide _); try done; simpl; lia.
Qed.

(** The pointer that the clean-up leaves. *)
Lemma cleanup_pointer l ct :
  let l' := filter (λ p, active p = true) l in
  let ct1 := (ct - removed_before ct l)%nat in
  let ct' := if (length l' <=? ct1)%nat && negb (length l' =? 0)%nat
             then 0%nat else ct1 in
  l' !! ct' = head (filter (λ p, active p = true) (drop ct l ++ l)%list)
  ∧ (l' ≠ [] → (ct' < length l')%nat)
  ∧ ((length l' <=? ct')%nat && negb (length l' =? 0)%nat = false).
Proof.
  intros l' ct1 ct'. rewrite filter_app. fold l'.
  pose proof (removed_before_spec l ct) as Hr.
  set (A := filter (λ p, active p = true) (take ct l)) in *.
  set (B := filter (λ p, active p = true) (drop ct l)).
  assert (l' = (A ++ B)%list) as Hl'.
  { unfold l', A, B. by rewrite <- filter_app, take_drop. }
  assert (length A ≤ ct1)%nat as HA by (unfold ct1; lia).
  assert (B ≠ [] → ct1 = length A) as HB.
  { intros HB. assert (ct < length l)%nat; [|unfold ct1; lia].
    destruct (decide (ct < length l)%nat); [done|].
    unfold B in HB. rewrite drop_ge in HB by lia. done. }
  destruct B as [|b B'].
  - rewrite app_nil_r in Hl'. rewrite app_nil_l. unfold ct'.
    destruct (Nat.leb_spec (length l') ct1); [|rewrite Hl' in *; lia].
    destruct (Nat.eqb_spec (length l') 0) as [H0|H0]; simpl.
    + destruct l'; [|done]. done.
    + rewrite head_lookup. split; [done|]. split; [lia|].
      destruct (Nat.leb_spec (length l') 0); [lia|done].
  - specialize (HB ltac:(done)). unfold ct'.
    assert (length l' = length A + S (length B'))%nat as Hlen
      by (rewrite Hl', length_app; done).
    destruct (Nat.leb_spec (length l') ct1); [lia|]. simpl.
    split; [|split; [lia|]].
    + rewrite Hl', HB, lookup_app_r, Nat.sub_diag by lia. done.
    + destruct (Nat.leb_spec (length l') ct1); [lia|done].
Qed.

Lemma cleanup_inactive_players_run g :
  cleanup_inactive_players g
  = Ret tt
      (let l' := filter (λ p, active p = true) (player_list g) in
       let ct1 :=
         (current_turn g - removed_before (current_turn g) (player_list g))%nat
       in
       with_current_turn
         (if (length l' <=? ct1)%nat && negb (length l' =? 0)%nat
          then 0%nat else ct1)
         (with_player_list l' g)).
Proof.
  unfold cleanup_inactive_players, bind, get, put. gsimpl.
  pose proof (removed_before_spec (player_list g) (current_turn g)).
  destruct (Nat.leb_spec (removed_before (current_turn g) (player_list g))
              (current_turn g)); [|lia].
  gsimpl. by destruct (_ && _).
Qed.

(** ** The actions, check by check *)

(** A check that reads the state: it raises the exception [err], if any,
    and establishes [P] otherwise. *)
Lemma wp_guard {A B} (m : M A) (f : A → M B) (err : option Exn) (P : Prop)
    Q E (U U' : Prop) g :
  wp m (λ _ g', g' = g ∧ err = None ∧ P) (λ e g', g' = g ∧ err = Some e)
     U' g →
  (U' → U) →
  (∀ e, err = Some e → E e g) →
  (err = None → P → ∀ a, wp (f a) Q E U g) →
  wp (bind m f) Q E U g.
Proof.
  intros Hm HU HE Hf. apply wp_bind. eapply wp_mono; [exact Hm| | |exact HU].
  - intros a g' (-> & Herr & HP). by apply Hf.
  - intros e g' [-> Herr]. by apply HE.
Qed.

Lemma validate_action_checks g this p :
  player_list g !! this = Some p →
  wp (validate_action this)
     (λ _ g', g' = g ∧ act_error g this p = None ∧ may_act g this p = true)
     (λ e g', g' = g ∧ act_error g this p = Some e) (¬ turn_in_range g) g.
Proof.
  intros Hp. unfold validate_action, act_error, may_act.
  apply wp_bind. eapply wp_run; [by eapply is_active_run|].
  destruct (active p); [|by apply wp_throw]. simpl.
  apply wp_bind. unfold is_player_turn. apply wp_bind, wp_get.
  destruct (player_list g) eqn:El; [done|]. rewrite <- El in Hp. clear El.
  apply wp_bind, wp_deref.
  destruct (player_list g !! current_turn g) eqn:Hc.
  2:{ intros Hr. apply lookup_ge_None in Hc. unfold turn_in_range in Hr. lia. }
  apply wp_ret. destruct (current_turn g =? this)%nat; [|by apply wp_throw].
  simpl. unfold validate_game_state. apply wp_bind, wp_get.
  destruct (game_started g); [by apply wp_ret|by apply wp_throw].
Qed.

Lemma validate_target_checks g target q :
  player_list g !! target = Some q →
  wp (validate_target target)
     (λ _ g', g' = g ∧ target_error q = None ∧ active q = true)
     (λ e g', g' = g ∧ target_error q = Some e) False g.
Proof.
  intros Hq. unfold validate_target, target_error.
  apply wp_bind. eapply wp_run; [by eapply is_active_run|].
  destruct (active q); [by apply wp_ret|by apply wp_throw].
Qed.

Lemma validate_coins_checks g this p required :
  player_list g !! this = Some p →
  wp (validate_coins this required)
     (λ _ g', g' = g ∧ coins_error p required = None ∧ required ≤ coins p)
     (λ e g', g' = g ∧ coins_error p required = Some e) False g.
Proof.
  intros Hp. unfold validate_coins, coins_error.
  apply wp_bind. eapply wp_run; [by eapply get_coins_run|].
  destruct (Z.ltb_spec (coins p) required); [by apply wp_throw|].
  by apply wp_ret.
Qed.

Lemma end_of_action_returns g :
  wp end_of_action (λ _ g', g' = after_action g) (λ _ _, False)
     (¬ (turn_in_range g ∧ room_for_income g
         ∧ actions_remaining g ≤ INT_MAX)) g.
Proof.
  unfold end_of_action, after_action, consume_action, get_actions_remaining.
  apply wp_bind, wp_bind, wp_get.
  destruct (Z.ltb_spec 0 (actions_remaining g)).
  - apply wp_bind, wp_int_result. destruct (in_int _) eqn:Hi.
    2:{ intros (_ & _ & Ha). rewrite in_int_true in Hi; [done|].
        unfold INT_MIN, INT_MAX in *. lia. }
    apply wp_put, wp_bind, wp_bind, wp_get, wp_ret. gsimpl.
    destruct (_ =? 0); [|by apply wp_ret].
    eapply wp_mono; [apply next_turn_wp|done..|].
    intros Hu (Hr & Hroom & _). by apply Hu.
  - apply wp_ret, wp_bind, wp_bind, wp_get, wp_ret.
    destruct (_ =? 0); [|by apply wp_ret].
    eapply wp_mono; [apply next_turn_wp|done..|].
    intros Hu (Hr & Hroom & _). by apply Hu.
Qed.

(** Facts of arithmetic behind the comparisons in the context. *)
Ltac zfacts :=
  repeat match goal with
    | H : (?a <? ?b) = true |- _ =>
        lazymatch goal with
        | _ : a < b |- _ => fail
        | _ => pose proof (proj1 (Z.ltb_lt a b) H)
        end
    | H : (?a <? ?b) = false |- _ =>
        lazymatch goal with
        | _ : b ≤ a |- _ => fail
        | _ => pose proof (proj1 (Z.ltb_ge a b) H)
        end
    | H : (?a <=? ?b) = true |- _ =>
        lazymatch goal with
        | _ : a ≤ b |- _ => fail
        | _ => pose proof (proj1 (Z.leb_le a b) H)
        end
    | H : (?a <=? ?b) = false |- _ =>
        lazymatch goal with
        | _ : b < a |- _ => fail
        | _ => pose proof (proj1 (Z.leb_gt a b) H)
        end
    end.

(** The balances of the seats in the context are within the limits. *)
Ltac coin_bounds :=
  repeat match goal with
    | Hc : Forall _ (player_list ?g), Hp : player_list ?g !! _ = Some ?p |- _ =>
        lazymatch goal with
        | _ : - LIMIT ≤ coins p ≤ LIMIT |- _ => fail
        | _ => assert (- LIMIT ≤ coins p ≤ LIMIT)
                 by exact (Forall_lookup_1 _ _ _ _ Hc Hp)
        end
    end.

Lemma tax_amount_bounds p : 2 ≤ tax_amount p ≤ 3.
Proof. unfold tax_amount. destruct (kind p); lia. Qed.

Lemma sanction_cost_bounds q : 3 ≤ sanction_cost q ≤ 4.
Proof. unfold sanction_cost. destruct (kind q); lia. Qed.

Ltac cost_bounds :=
  repeat match goal with
    | p : Player |- _ =>
        lazymatch goal with
        | _ : 2 ≤ tax_amount p ≤ 3 |- _ => fail
        | _ => pose proof (tax_amount_bounds p);
               pose proof (sanction_cost_bounds p)
        end
    end.

Ltac limits :=
  coin_bounds; cost_bounds; zfacts;
  unfold INT_MIN, INT_MAX, LIMIT in *; lia.

(** Closes the case in which an [int] operation overflows. *)
Ltac undef :=
  let H := fresh in
  intros H; destruct H as (? & ? & ? & ?);
  match goal with
  | Hi : in_int _ = false |- _ =>
      rewrite in_int_true in Hi; [done|gsimpl; limits]
  end.

(** An [int] operation: it is defined in a playable state. *)
Ltac int_ok :=
  match goal with
  | |- context [if in_int ?z then _ else _] =>
      destruct (in_int z) eqn:?; [|undef]
  end.

(** The state before [end_of_action] leaves room for the turn-start
    income. *)
Ltac room_from H :=
  destruct H as (? & ? & ? & ?);
  split; [|split];
  [ unfold turn_in_range in *; gsimpl; by rewrite ?length_alter
  | split;
    [ gsimpl; limits
    | gsimpl;
      repeat (apply Forall_alter; [|intros ? _ ?; cbn in *; limits]);
      eapply Forall_impl; [eassumption|cbn; intros; limits] ]
  | gsimpl; limits ].

Ltac room :=
  let H := fresh in
  let Hu := fresh in
  intros Hu H; apply Hu; room_from H.

(** The exception of the action, decided by the checks in the context. *)
Ltac err_solve :=
  unfold gather_error, tax_error, bribe_error, arrest_error, sanction_error,
    coup_error, invest_error, spy_error, sanctioned_error, treasury_error,
    self_error;
  repeat match goal with
    | H : ?b = _ |- context [?b] => rewrite H
    end;
  reflexivity.

(** The state that the action has built is the one announced. *)
Ltac post_solve :=
  unfold gather_post, tax_post, bribe_post, arrest_post, sanction_post,
    coup_post, invest_post, block_arrest_post, set_coins;
  cbv zeta; gsimpl;
  repeat match goal with
    | H : ?b = _ |- context [?b] => rewrite H
    end;
  reflexivity.

Ltac close_action :=
  eapply wp_mono;
  [ apply end_of_action_returns
  | intros _ ? ->; split; [err_solve|post_solve]
  | done
  | room ].

Ltac throws := apply wp_throw; split; [err_solve|done].

Ltac guard_action :=
  eapply wp_guard;
  [ by apply validate_action_checks
  | by intros ? [? _]
  | intros ? ?; split; [err_solve|done]
  | intros ? ? _ ].

Ltac guard_target :=
  eapply wp_guard;
  [ by apply validate_target_checks
  | done
  | intros ? ?; split; [err_solve|done]
  | intros ? ? _ ].

Ltac guard_coins :=
  eapply wp_guard;
  [ by apply validate_coins_checks
  | done
  | intros ? ?; split; [err_solve|done]
  | intros ? ? _ ].

Ltac gsimpl_all :=
  cbn [with_player_list with_current_turn with_game_started with_treasury
       with_last_arrested_player with_actions_remaining
       player_list current_turn game_started treasury last_arrested_player
       actions_remaining coins with_coins] in *.

(** A payment that the checks before it have secured. *)
Ltac paid :=
  match goal with
  | |- context [if ?a <? ?b then _ else _] =>
      destruct (Z.ltb_spec a b); [exfalso; gsimpl_all; limits|]
  end.

Ltac role_of Hk :=
  unfold role; rewrite ?Hk; cbn [String.eqb Ascii.eqb Bool.eqb].

Lemma gather_checks g this p :
  player_list g !! this = Some p →
  wp (gather this)
     (λ _ g', gather_error g this p = None
              ∧ g' = after_action (gather_post g this p))
     (λ e g', gather_error g this p = Some e ∧ g' = g) (¬ playable g) g.
Proof.
  intros Hp. unfold gather. guard_action.
  apply wp_bind. eapply wp_run; [by eapply is_sanctioned_run|].
  destruct (sanctioned p) eqn:Hs; [throws|].
  apply wp_bind, wp_remove_from_treasury; [done|].
  destruct (treasury g <? 1) eqn:Ht; [split; [err_solve|done]|].
  int_ok. apply wp_bind. eapply wp_add_coins; [lookup_solve|]. int_ok.
  close_action.
Qed.

Lemma tax_amount_role p :
  (if String.eqb (role p) "Governor" then 3 else 2) = tax_amount p.
Proof. unfold role, tax_amount. by destruct (kind p). Qed.

Lemma tax_checks g this p :
  player_list g !! this = Some p →
  wp (tax this)
     (λ _ g', tax_error g this p = None
              ∧ g' = after_action (tax_post g this p))
     (λ e g', tax_error g this p = Some e ∧ g' = g) (¬ playable g) g.
Proof.
  intros Hp. unfold tax. guard_action.
  apply wp_bind. eapply wp_run; [by eapply is_sanctioned_run|].
  destruct (sanctioned p) eqn:Hs; [throws|].
  apply wp_bind. eapply wp_run; [by eapply get_role_run|].
  cbv zeta. rewrite tax_amount_role. pose proof (tax_amount_bounds p).
  apply wp_bind, wp_remove_from_treasury; [lia|].
  destruct (treasury g <? tax_amount p) eqn:Ht; [split; [err_solve|done]|].
  int_ok. apply wp_bind. eapply wp_add_coins; [lookup_solve|]. int_ok.
  close_action.
Qed.

Lemma bribe_checks g this p :
  player_list g !! this = Some p →
  wp (bribe this)
     (λ _ g', bribe_error g this p = None
              ∧ g' = after_action (bribe_post g this p))
     (λ e g', bribe_error g this p = Some e ∧ g' = g) (¬ playable g) g.
Proof.
  intros Hp. unfold bribe. guard_action. guard_coins.
  apply wp_bind. eapply wp_remove_coins; [lookup_solve|]. paid. int_ok.
  apply wp_bind, wp_add_to_treasury; [done|]. int_ok.
  apply wp_bind. unfold add_extra_actions.
  apply wp_bind, wp_get, wp_bind, wp_int_result. int_ok. apply wp_put.
  close_action.
Qed.

Lemma coup_checks g this target p q :
  player_list g !! this = Some p → player_list g !! target = Some q →
  wp (coup this target)
     (λ _ g', coup_error g this target p q = None
              ∧ g' = after_action (coup_post g this target p))
     (λ e g', coup_error g this target p q = Some e ∧ g' = g)
     (¬ playable g) g.
Proof.
  intros Hp Hq. unfold coup. guard_action. guard_target. guard_coins.
  destruct (target =? this)%nat eqn:Hself; [throws|].
  pose proof (proj1 (Nat.eqb_neq _ _) Hself).
  apply wp_bind. eapply wp_remove_coins; [lookup_solve|]. paid. int_ok.
  apply wp_bind, wp_add_to_treasury; [done|]. int_ok.
  apply wp_bind. unfold deactivate. apply wp_assign. gsimpl.
  rewrite list_lookup_alter_ne, Hq by done.
  close_action.
Qed.

Lemma invest_checks g this p :
  player_list g !! this = Some p →
  wp (invest this)
     (λ _ g', invest_error g this p = None
              ∧ g' = after_action (invest_post g this p))
     (λ e g', invest_error g this p = Some e ∧ g' = g) (¬ playable g) g.
Proof.
  intros Hp. unfold invest. guard_action. guard_coins.
  apply wp_bind. unfold get_treasury. apply wp_bind, wp_get, wp_ret.
  destruct (treasury g <? 6) eqn:Ht; [throws|].
  apply wp_bind. eapply wp_remove_coins; [lookup_solve|]. paid. int_ok.
  apply wp_bind, wp_add_to_treasury; [done|]. int_ok.
  apply wp_bind, wp_remove_from_treasury; [done|]. paid. int_ok.
  apply wp_bind. eapply wp_add_coins; [lookup_solve|]. cbn [coins with_coins].
  int_ok. close_action.
Qed.

Lemma investigate_checks g this target p q :
  player_list g !! this = Some p → player_list g !! target = Some q →
  wp (investigate this target)
     (λ _ g', spy_error g this target p q "Cannot investigate yourself"
              = None ∧ g' = g)
     (λ e g', spy_error g this target p q "Cannot investigate yourself"
              = Some e ∧ g' = g)
     (¬ turn_in_range g) g.
Proof.
  intros Hp Hq. unfold investigate.
  eapply wp_guard; [by apply validate_action_checks|done|
                    intros ? ?; split; [err_solve|done]|intros ? ? _].
  guard_target.
  destruct (target =? this)%nat eqn:Hself; [throws|].
  apply wp_ret. split; [err_solve|done].
Qed.

Lemma block_arrest_ability_checks g this target p q :
  player_list g !! this = Some p → player_list g !! target = Some q →
  wp (block_arrest_ability this target)
     (λ _ g', spy_error g this target p q
                "Cannot block your own arrest ability" = None
              ∧ g' = block_arrest_post g target)
     (λ e g', spy_error g this target p q
                "Cannot block your own arrest ability" = Some e ∧ g' = g)
     (¬ turn_in_range g) g.
Proof.
  intros Hp Hq. unfold block_arrest_ability.
  eapply wp_guard; [by apply validate_action_checks|done|
                    intros ? ?; split; [err_solve|done]|intros ? ? _].
  guard_target.
  destruct (target =? this)%nat eqn:Hself; [throws|].
  unfold set_arrest_blocked. apply wp_assign. rewrite Hq.
  split; [err_solve|done].
Qed.

Lemma sanction_cost_role this q :
  (if String.eqb (role q) "Judge" then validate_coins this 4 ;;; ret 4
   else validate_coins this 3 ;;; ret 3)
  = (validate_coins this (sanction_cost q) ;;; ret (sanction_cost q)).
Proof. unfold role, sanction_cost. by destruct (kind q). Qed.

Lemma sanction_checks g this target p q :
  player_list g !! this = Some p → player_list g !! target = Some q →
  wp (sanction this target)
     (λ _ g', sanction_error g this target p q = None
              ∧ g' = after_action (sanction_post g this target p q))
     (λ e g', sanction_error g this target p q = Some e ∧ g' = g)
     (¬ playable g) g.
Proof.
  intros Hp Hq. unfold sanction. guard_action. guard_target.
  destruct (target =? this)%nat eqn:Hself; [throws|].
  pose proof (proj1 (Nat.eqb_neq _ _) Hself).
  apply wp_bind. eapply wp_run; [by eapply get_role_run|].
  rewrite sanction_cost_role. pose proof (sanction_cost_bounds q).
  apply wp_bind. guard_coins. apply wp_ret.
  apply wp_bind. eapply wp_remove_coins; [lookup_solve|]. paid. int_ok.
  apply wp_bind, wp_add_to_treasury; [lia|]. int_ok.
  apply wp_bind. eapply wp_run; [eapply get_role_run; lookup_solve|].
  apply wp_bind. gsimpl.
  destruct (kind q) eqn:Hk; role_of Hk;
    try (apply wp_ret; unfold set_sanctioned; apply wp_bind, wp_assign; gsimpl;
         rewrite list_lookup_alter_ne, Hq by done; close_action).
  unfold get_treasury. apply wp_bind, wp_bind, wp_get, wp_ret. gsimpl.
  destruct (1 <=? treasury g + sanction_cost q) eqn:Ht.
  - apply wp_bind, wp_remove_from_treasury; [done|]. paid. int_ok.
    eapply wp_add_coins; [lookup_solve|]. int_ok.
    unfold set_sanctioned. apply wp_bind, wp_assign. gsimpl.
    rewrite list_lookup_alter_eq, list_lookup_alter_ne, Hq by done.
    cbn [fmap option_fmap option_map]. close_action.
  - apply wp_ret. unfold set_sanctioned. apply wp_bind, wp_assign. gsimpl.
    rewrite list_lookup_alter_ne, Hq by done. close_action.
Qed.

Lemma arrest_checks g this target p q :
  player_list g !! this = Some p → player_list g !! target = Some q →
  wp (arrest this target)
     (λ _ g', arrest_error g this target p q = None
              ∧ g' = after_action (arrest_post g this target p q))
     (λ e g', arrest_error g this target p q = Some e ∧ g' = g)
     (¬ playable g) g.
Proof.
  intros Hp Hq. unfold arrest. guard_action. guard_target.
  destruct (target =? this)%nat eqn:Hself; [throws|].
  pose proof (proj1 (Nat.eqb_neq _ _) Hself).
  apply wp_bind. eapply wp_run; [by eapply is_arrest_blocked_run|].
  destruct (arrest_blocked p) eqn:Hb; [throws|].
  apply wp_bind. unfold get_last_arrested_player.
  apply wp_bind, wp_get, wp_ret.
  apply wp_bind. eapply wp_run; [by eapply get_name_run|].
  destruct (String.eqb (last_arrested_player g) (name q)) eqn:Hlast;
    [throws|].
  apply wp_bind. eapply wp_run; [by eapply get_role_run|].
  apply wp_bind.
  assert (∀ g1 q1,
            player_list g1 !! target = Some q1 → name q1 = name q →
            after_action (with_last_arrested_player (name q) g1)
            = after_action (arrest_post g this target p q) →
            (playable g → turn_in_range g1 ∧ room_for_income g1
                          ∧ actions_remaining g1 ≤ INT_MAX) →
            wp (target_name <- get_name target ;;
                set_last_arrested_player target_name ;;;
                end_of_action)
               (λ _ g', arrest_error g this target p q = None
                        ∧ g' = after_action (arrest_post g this target p q))
               (λ e g', arrest_error g this target p q = Some e ∧ g' = g)
               (¬ playable g) g1) as Hrest.
  { intros g1 q1 Hq1 Hn Hpost Hroom.
    apply wp_bind. eapply wp_run; [by eapply get_name_run|]. rewrite Hn.
    apply wp_bind. unfold set_last_arrested_player.
    apply wp_bind, wp_get, wp_put.
    eapply wp_mono; [apply end_of_action_returns| |done|].
    - intros _ ? ->. split; [err_solve|done].
    - intros Hu Hplay. by apply Hu, Hroom. }
  destruct (kind q) eqn:Hk; role_of Hk.
  4:{ (* General *)
      apply wp_ret. eapply Hrest; [exact Hq|done|post_solve|].
      intros Hplay. room_from Hplay. }
  5:{ (* Merchant *)
      apply wp_bind. eapply wp_run; [by eapply get_coins_run|].
      destruct (0 <? coins q) eqn:Hpos.
      - apply wp_bind. eapply wp_remove_coins; [lookup_solve|]. paid. int_ok.
        apply wp_add_to_treasury; [lia|]. int_ok.
        eapply Hrest; [lookup_solve|done|post_solve|].
        intros Hplay. room_from Hplay.
      - apply wp_ret. eapply Hrest; [exact Hq|done|post_solve|].
        intros Hplay. room_from Hplay. }
  all: apply wp_bind; (eapply wp_run; [by eapply get_coins_run|]);
    destruct (0 <? coins q) eqn:Hpos;
    [ apply wp_bind; (eapply wp_remove_coins; [lookup_solve|]); paid; int_ok;
      (eapply wp_add_coins; [lookup_solve|]); int_ok;
      (eapply Hrest; [lookup_solve|done|post_solve|]);
      intros Hplay; room_from Hplay
    | apply wp_ret; (eapply Hrest; [exact Hq|done|post_solve|]);
      intros Hplay; room_from Hplay ].
Qed.

(** ** The outcome of an action *)

Lemma checks_outcome (m : M unit) (err : option Exn) (post : Game)
    (U : Prop) g :
  wp m (λ _ g', err = None ∧ g' = post) (λ e g', err = Some e ∧ g' = g)
     (¬ U) g →
  U →
  m g = match err with
        | None => Ret tt post
        | Some e => Throw e g
        end.
Proof.
  unfold wp. destruct (m g) as [[] g'|e g'|]; intros H HU.
  - by destruct H as [-> ->].
  - by destruct H as [-> ->].
  - done.
Qed.

Lemma playable_turn_in_range g : playable g → turn_in_range g.
Proof. by intros [? _]. Qed.

(** An action on a seat that does not exist is undefined. *)
Lemma actor_missing this (k : M unit) g :
  player_list g !! this = None → (validate_action this ;;; k) g = Undefined.
Proof.
  intros Hp. unfold validate_action, is_active, bind, deref. by rewrite Hp.
Qed.

Lemma target_missing this target (k : M unit) g :
  player_list g !! target = None →
  (validate_action this ;;; validate_target target ;;; k) g = Undefined
  ∨ ∃ e, (validate_action this ;;; validate_target target ;;; k) g
         = Throw e g.
Proof.
  intros Hq. pose proof (validate_action_wp this g) as Hwp.
  unfold wp in Hwp.
  destruct (validate_action this g) as [[] g1|e g1|] eqn:Hv.
  - destruct Hwp as [-> _]. left. rewrite (bind_run _ _ _ _ _ Hv).
    unfold validate_target, is_active, bind, deref. by rewrite Hq.
  - subst g1. right. exists e. unfold bind at 1. by rewrite Hv.
  - left. unfold bind at 1. by rewrite Hv.
Qed.

Section Outcomes.
Context (g : Game) (this target : nat).

Lemma gather_unchanged e g' : gather this g = Throw e g' → g' = g.
Proof.
  intros H. destruct (player_list g !! this) as [p|] eqn:Hp.
  - by destruct (wp_Throw _ _ _ _ _ _ _ (gather_checks g this p Hp) H).
  - unfold gather in H. by rewrite actor_missing in H.
Qed.

Lemma tax_unchanged e g' : tax this g = Throw e g' → g' = g.
Proof.
  intros H. destruct (player_list g !! this) as [p|] eqn:Hp.
  - by destruct (wp_Throw _ _ _ _ _ _ _ (tax_checks g this p Hp) H).
  - unfold tax in H. by rewrite actor_missing in H.
Qed.

Lemma bribe_unchanged e g' : bribe this g = Throw e g' → g' = g.
Proof.
  intros H. destruct (player_list g !! this) as [p|] eqn:Hp.
  - by destruct (wp_Throw _ _ _ _ _ _ _ (bribe_checks g this p Hp) H).
  - unfold bribe in H. by rewrite actor_missing in H.
Qed.

Lemma invest_unchanged e g' : invest this g = Throw e g' → g' = g.
Proof.
  intros H. destruct (player_list g !! this) as [p|] eqn:Hp.
  - by destruct (wp_Throw _ _ _ _ _ _ _ (invest_checks g this p Hp) H).
  - unfold invest in H. by rewrite actor_missing in H.
Qed.

(** The same for the actions with a target. *)
Ltac target_unchanged H checks :=
  let p := fresh "p" in
  let q := fresh "q" in
  let Hp := fresh "Hp" in
  let Hq := fresh "Hq" in
  let Hu := fresh "Hu" in
  let e' := fresh "e" in
  destruct (player_list g !! this) as [p|] eqn:Hp;
  [ destruct (player_list g !! target) as [q|] eqn:Hq;
    [ by destruct (wp_Throw _ _ _ _ _ _ _ (checks g this target p q Hp Hq) H)
    | match type of H with
      | (validate_action _ ;;; validate_target _ ;;; ?k) _ = _ =>
          destruct (target_missing this target k g Hq) as [Hu|[e' Hu]]
      end;
      [ rewrite Hu in H; discriminate H
      | rewrite Hu in H; by injection H as _ <- ] ]
  | by rewrite actor_missing in H ].

Lemma arrest_unchanged e g' : arrest this target g = Throw e g' → g' = g.
Proof. intros H. unfold arrest in H. target_unchanged H arrest_checks. Qed.

Lemma sanction_unchanged e g' : sanction this target g = Throw e g' → g' = g.
Proof. intros H. unfold sanction in H. target_unchanged H sanction_checks. Qed.

Lemma coup_unchanged e g' : coup this target g = Throw e g' → g' = g.
Proof. intros H. unfold coup in H. target_unchanged H coup_checks. Qed.

Lemma investigate_unchanged e g' :
  investigate this target g = Throw e g' → g' = g.
Proof.
  intros H. unfold investigate in H. target_unchanged H investigate_checks.
Qed.

Lemma block_arrest_ability_unchanged e g' :
  block_arrest_ability this target g = Throw e g' → g' = g.
Proof.
  intros H. unfold block_arrest_ability in H.
  target_unchanged H block_arrest_ability_checks.
Qed.
End Outcomes.

Lemma performAction_unchanged action actor target g e g' :
  performAction action actor target g = Throw e g' → g' = g.
Proof.
  unfold performAction.
  destruct (String.eqb action "Gather"); [apply gather_unchanged|].
  destruct (String.eqb action "Tax"); [apply tax_unchanged|].
  destruct (String.eqb action "Bribe"); [apply bribe_unchanged|].
  destruct (String.eqb action "Invest").
  { unfold bind at 1, deref. destruct (player_list g !! actor) as [p|]; [|done].
    destruct (kind p); try by intros [= _ <-]. apply invest_unchanged. }
  destruct target as [t|]; [|done].
  destruct (String.eqb action "Arrest"); [apply arrest_unchanged|].
  destruct (String.eqb action "Sanction"); [apply sanction_unchanged|].
  destruct (String.eqb action "Coup"); [apply coup_unchanged|done].
Qed.

(** The closed form of each action in a playable state. *)
Section ClosedForms.
Context (g : Game) (this target : nat) (p q : Player).
Hypothesis Hg : playable g.
Hypothesis Hp : player_list g !! this = Some p.
Hypothesis Hq : player_list g !! target = Some q.

Lemma gather_outcome :
  gather this g = match gather_error g this p with
                  | None => Ret tt (after_action (gather_post g this p))
                  | Some e => Throw e g
                  end.
Proof. exact (checks_outcome _ _ _ _ _ (gather_checks g this p Hp) Hg). Qed.

Lemma tax_outcome :
  tax this g = match tax_error g this p with
               | None => Ret tt (after_action (tax_post g this p))
               | Some e => Throw e g
               end.
Proof. exact (checks_outcome _ _ _ _ _ (tax_checks g this p Hp) Hg). Qed.

Lemma bribe_outcome :
  bribe this g = match bribe_error g this p with
                 | None => Ret tt (after_action (bribe_post g this p))
                 | Some e => Throw e g
                 end.
Proof. exact (checks_outcome _ _ _ _ _ (bribe_checks g this p Hp) Hg). Qed.

Lemma invest_outcome :
  invest this g = match invest_error g this p with
                  | None => Ret tt (after_action (invest_post g this p))
                  | Some e => Throw e g
                  end.
Proof. exact (checks_outcome _ _ _ _ _ (invest_checks g this p Hp) Hg). Qed.

Lemma arrest_outcome :
  arrest this target g
  = match arrest_error g this target p q with
    | None => Ret tt (after_action (arrest_post g this target p q))
    | Some e => Throw e g
    end.
Proof.
  exact (checks_outcome _ _ _ _ _ (arrest_checks g this target p q Hp Hq) Hg).
Qed.

Lemma sanction_outcome :
  sanction this target g
  = match sanction_error g this target p q with
    | None => Ret tt (after_action (sanction_post g this target p q))
    | Some e => Throw e g
    end.
Proof.
  exact (checks_outcome _ _ _ _ _
           (sanction_checks g this target p q Hp Hq) Hg).
Qed.

Lemma coup_outcome :
  coup this target g
  = match coup_error g this target p q with
    | None => Ret tt (after_action (coup_post g this target p))
    | Some e => Throw e g
    end.
Proof.
  exact (checks_outcome _ _ _ _ _ (coup_checks g this target p q Hp Hq) Hg).
Qed.

Lemma investigate_outcome :
  investigate this target g
  = match spy_error g this target p q "Cannot investigate yourself" with
    | None => Ret tt g
    | Some e => Throw e g
    end.
Proof.
  exact (checks_outcome _ _ _ _ _
           (investigate_checks g this target p q Hp Hq)
           (playable_turn_in_range g Hg)).
Qed.

Lemma block_arrest_ability_outcome :
  block_arrest_ability this target g
  = match spy_error g this target p q
            "Cannot block your own arrest ability" with
    | None => Ret tt (block_arrest_post g target)
    | Some e => Throw e g
    end.
Proof.
  exact (checks_outcome _ _ _ _ _
           (block_arrest_ability_checks g this target p q Hp Hq)
           (playable_turn_in_range g Hg)).
Qed.
End ClosedForms.

(** ** What a committed action has done *)

Lemma act_error_None g this p :
  act_error g this p = None →
  active p = true ∧ current_turn g = this ∧ game_started g = true.
Proof.
  unfold act_error. destruct (active p); [|done].
  destruct (Nat.eqb_spec (current_turn g) this); [|done].
  by destruct (game_started g).
Qed.

Lemma or_else_None a b : or_else a b = None → a = None ∧ b = None.
Proof. by destruct a. Qed.

Section Effects.
Context (g g' : Game) (this target : nat).

Lemma gather_committed :
  gather this g = Ret tt g' →
  ∃ p, player_list g !! this = Some p ∧ gather_error g this p = None
       ∧ g' = after_action (gather_post g this p).
Proof.
  intros H. destruct (player_list g !! this) as [p|] eqn:Hp.
  - exists p. split; [done|].
    exact (wp_Ret _ _ _ _ _ _ _ (gather_checks g this p Hp) H).
  - unfold gather in H. by rewrite actor_missing in H.
Qed.

Lemma tax_committed :
  tax this g = Ret tt g' →
  ∃ p, player_list g !! this = Some p ∧ tax_error g this p = None
       ∧ g' = after_action (tax_post g this p).
Proof.
  intros H. destruct (player_list g !! this) as [p|] eqn:Hp.
  - exists p. split; [done|].
    exact (wp_Ret _ _ _ _ _ _ _ (tax_checks g this p Hp) H).
  - unfold tax in H. by rewrite actor_missing in H.
Qed.

Lemma bribe_committed :
  bribe this g = Ret tt g' →
  ∃ p, player_list g !! this = Some p ∧ bribe_error g this p = None
       ∧ g' = after_action (bribe_post g this p).
Proof.
  intros H. destruct (player_list g !! this) as [p|] eqn:Hp.
  - exists p. split; [done|].
    exact (wp_Ret _ _ _ _ _ _ _ (bribe_checks g this p Hp) H).
  - unfold bribe in H. by rewrite actor_missing in H.
Qed.

Lemma invest_committed :
  invest this g = Ret tt g' →
  ∃ p, player_list g !! this = Some p ∧ invest_error g this p = None
       ∧ g' = after_action (invest_post g this p).
Proof.
  intros H. destruct (player_list g !! this) as [p|] eqn:Hp.
  - exists p. split; [done|].
    exact (wp_Ret _ _ _ _ _ _ _ (invest_checks g this p Hp) H).
  - unfold invest in H. by rewrite actor_missing in H.
Qed.

Ltac target_effect H checks :=
  let p := fresh "p" in
  let q := fresh "q" in
  let Hp := fresh "Hp" in
  let Hq := fresh "Hq" in
  let Hu := fresh "Hu" in
  let e' := fresh "e" in
  destruct (player_list g !! this) as [p|] eqn:Hp;
  [ destruct (player_list g !! target) as [q|] eqn:Hq;
    [ exists p, q; split; [done|]; split; [done|];
      exact (wp_Ret _ _ _ _ _ _ _ (checks g this target p q Hp Hq) H)
    | match type of H with
      | (validate_action _ ;;; validate_target _ ;;; ?k) _ = _ =>
          destruct (target_missing this target k g Hq) as [Hu|[e' Hu]]
      end; rewrite Hu in H; discriminate H ]
  | by rewrite actor_missing in H ].

Lemma arrest_committed :
  arrest this target g = Ret tt g' →
  ∃ p q, player_list g !! this = Some p ∧ player_list g !! target = Some q
         ∧ arrest_error g this target p q = None
         ∧ g' = after_action (arrest_post g this target p q).
Proof. intros H. unfold arrest in H. target_effect H arrest_checks. Qed.

Lemma sanction_committed :
  sanction this target g = Ret tt g' →
  ∃ p q, player_list g !! this = Some p ∧ player_list g !! target = Some q
         ∧ sanction_error g this target p q = None
         ∧ g' = after_action (sanction_post g this target p q).
Proof. intros H. unfold sanction in H. target_effect H sanction_checks. Qed.

Lemma coup_committed :
  coup this target g = Ret tt g' →
  ∃ p q, player_list g !! this = Some p ∧ player_list g !! target = Some q
         ∧ coup_error g this target p q = None
         ∧ g' = after_action (coup_post g this target p).
Proof. intros H. unfold coup in H. target_effect H coup_checks. Qed.

Lemma investigate_committed :
  investigate this target g = Ret tt g' →
  ∃ p q, player_list g !! this = Some p ∧ player_list g !! target = Some q
         ∧ spy_error g this target p q "Cannot investigate yourself" = None
         ∧ g' = g.
Proof.
  intros H. unfold investigate in H. target_effect H investigate_checks.
Qed.

Lemma block_arrest_ability_committed :
  block_arrest_ability this target g = Ret tt g' →
  ∃ p q, player_list g !! this = Some p ∧ player_list g !! target = Some q
         ∧ spy_error g this target p q
             "Cannot block your own arrest ability" = None
         ∧ g' = block_arrest_post g target.
Proof.
  intros H. unfold block_arrest_ability in H.
  target_effect H block_arrest_ability_checks.
Qed.
End Effects.

(** ** The seats across the end of an action *)

Lemma advance_turn_spec_lookup g i p :
  player_list g !! i = Some p →
  ∃ p', player_list (advance_turn_spec g) !! i = Some p'
        ∧ name p' = name p ∧ kind p' = kind p ∧ active p' = active p
        ∧ coins p ≤ coins p' ≤ coins p + 1
        ∧ (kind p ≠ Merchant → coins p' = coins p)
        ∧ (i ≠ current_turn g →
           sanctioned p' = sanctioned p
           ∧ arrest_blocked p' = arrest_blocked p).
Proof.
  intros Hp. unfold advance_turn_spec.
  destruct (_ <=? 1)%nat.
  { exists p. repeat split; try done; lia. }
  gsimpl.
  pose proof (lookup_alter_Some clear_flags (current_turn g) _ i p Hp) as Hp1.
  set (p1 := if decide (current_turn g = i) then clear_flags p else p) in *.
  assert (name p1 = name p ∧ kind p1 = kind p ∧ active p1 = active p
          ∧ coins p1 = coins p
          ∧ (i ≠ current_turn g →
             sanctioned p1 = sanctioned p
             ∧ arrest_blocked p1 = arrest_blocked p))
    as (Hn & Hk & Ha & Hc & Hf).
  { unfold p1. destruct (decide _) as [->|]; repeat split; try done.
    all: by intros []. }
  destruct (next_active_seat _ _) as [seat|]; gsimpl.
  - destruct (turn_begin_hook_lookup seat
                (with_current_turn seat
                   (with_player_list
                      (alter clear_flags (current_turn g) (player_list g)) g))
                i p1 Hp1) as (c & Hlook & Hc1 & Hm).
    exists (with_coins c p1). split; [exact Hlook|]. cbn. rewrite <- Hc, <- Hk.
    repeat split; try done; try lia; by apply Hf.
  - exists p1. rewrite Hc. repeat split; try done; try lia; by apply Hf.
Qed.

Lemma after_action_lookup g i p :
  player_list g !! i = Some p →
  ∃ p', player_list (after_action g) !! i = Some p'
        ∧ name p' = name p ∧ kind p' = kind p ∧ active p' = active p
        ∧ coins p ≤ coins p' ≤ coins p + 1
        ∧ (kind p ≠ Merchant → coins p' = coins p)
        ∧ (i ≠ current_turn g →
           sanctioned p' = sanctioned p
           ∧ arrest_blocked p' = arrest_blocked p).
Proof.
  intros Hp. unfold after_action.
  destruct (0 <? _); gsimpl; (destruct (_ =? 0);
    [|exists p; repeat split; try done; lia]).
  - by apply (advance_turn_spec_lookup
                (with_actions_remaining (actions_remaining g - 1) g)).
  - by apply advance_turn_spec_lookup.
Qed.

Lemma coins_at_lookup g i p : player_list g !! i = Some p → coins_at g i = coins p.
Proof. unfold coins_at. by intros ->. Qed.

(** The balance of the actor when the action closes. *)
Lemma after_action_actor g i c :
  current_turn g = i → coins_at g i = c → coins_at (after_action g) i = c.
Proof. intros <- <-. apply after_action_departing_coins. Qed.

Lemma treasury_moved_after_action g g1 delta :
  treasury g1 = treasury g + delta → current_turn g1 = current_turn g →
  treasury_moved g (after_action g1) delta.
Proof.
  intros Ht Hc. unfold treasury_moved. rewrite <- Ht, <- Hc.
  apply after_action_treasury.
Qed.

Lemma coins_at_set_coins g i c :
  is_Some (player_list g !! i) → coins_at (set_coins i c g) i = c.
Proof.
  intros [p Hp]. unfold coins_at, set_coins. gsimpl.
  by rewrite list_lookup_alter_eq, Hp.
Qed.

Lemma coins_at_set_coins_ne g i j c :
  i ≠ j → coins_at (set_coins i c g) j = coins_at g j.
Proof.
  intros Hne. unfold coins_at, set_coins. gsimpl.
  by rewrite list_lookup_alter_ne.
Qed.

Lemma playable_example g :
  (current_turn g <? length (player_list g))%nat
  && (- LIMIT <=? treasury g) && (treasury g <=? LIMIT)
  && (- LIMIT <=? actions_remaining g) && (actions_remaining g <=? LIMIT)
  && forallb (λ p, (- LIMIT <=? coins p) && (coins p <=? LIMIT))
       (player_list g) = true →
  playable g.
Proof.
  rewrite !andb_true_iff, Nat.ltb_lt, !Z.leb_le, forallb_forall.
  intros (((((Hr & ?) & ?) & ?) & ?) & Hall). repeat split; try done.
  apply Forall_forall. intros p Hin. apply list_elem_of_In, Hall in Hin.
  rewrite andb_true_iff, !Z.leb_le in Hin. lia.
Qed.

(** ** Who is active across the end of an action *)

Lemma active_participants_turn_begin_hook seat g :
  active_participants (player_list (turn_begin_hook seat g))
  = active_participants (player_list g).
Proof.
  unfold turn_begin_hook. destruct (_ !! seat) as [x|]; [|done].
  destruct (kind x); try done. destruct (_ && _); [|done].
  gsimpl. by apply active_participants_alter.
Qed.

Lemma active_participants_advance_turn_spec g :
  active_participants (player_list (advance_turn_spec g))
  = active_participants (player_list g).
Proof.
  unfold advance_turn_spec. destruct (_ <=? 1)%nat; [done|]. gsimpl.
  destruct (next_active_seat _ _); gsimpl;
    rewrite ?active_participants_turn_begin_hook; gsimpl;
    by apply active_participants_alter.
Qed.

Lemma active_participants_after_action g :
  active_participants (player_list (after_action g))
  = active_participants (player_list g).
Proof.
  unfold after_action. destruct (0 <? _); gsimpl;
    (destruct (_ =? 0);
     [by rewrite active_participants_advance_turn_spec|done]).
Qed.

Lemma active_participants_deactivate l : ∀ i q,
  l !! i = Some q → active q = true →
  S (active_participants (alter (with_active false) i l))
  = active_participants l.
Proof.
  induction l as [|x l IH]; intros [|i] q Hq Ha; try done.
  - injection Hq as ->.
    change (alter (with_active false) 0 (q :: l))
      with (with_active false q :: l).
    rewrite !active_participants_cons, Ha. done.
  - change (alter (with_active false) (S i) (x :: l))
      with (x :: alter (with_active false) i l).
    rewrite !active_participants_cons. specialize (IH i q Hq Ha).
    destruct (active x); lia.
Qed.

(** ** What the checks of an action have established *)

Lemma target_error_None q : target_error q = None → active q = true.
Proof. unfold target_error. by destruct (active q). Qed.

Lemma self_error_None this target message :
  self_error this target message = None → target ≠ this.
Proof. unfold self_error. by destruct (Nat.eqb_spec target this). Qed.

Lemma coins_error_None p required :
  coins_error p required = None → required ≤ coins p.
Proof. unfold coins_error. by destruct (Z.ltb_spec (coins p) required). Qed.

Lemma treasury_error_None g amount :
  treasury_error g amount = None → amount ≤ treasury g.
Proof. unfold treasury_error. by destruct (Z.ltb_spec (treasury g) amount). Qed.

Lemma sanctioned_error_None p :
  sanctioned_error p = None → sanctioned p = false.
Proof. unfold sanctioned_error. by destruct (sanctioned p). Qed.

Lemma arrest_error_None g this target p q :
  arrest_error g this target p q = None →
  act_error g this p = None ∧ active q = true ∧ target ≠ this
  ∧ arrest_blocked p = false
  ∧ last_arrested_player g ≠ name q.
Proof.
  unfold arrest_error.
  intros (Hact & (Ht%target_error_None
                  & (Hs%self_error_None & Hb)%or_else_None)%or_else_None)
           %or_else_None.
  destruct (arrest_blocked p); [done|].
  by destruct (String.eqb_spec (last_arrested_player g) (name q)).
Qed.

Lemma sanction_error_None g this target p q :
  sanction_error g this target p q = None →
  act_error g this p = None ∧ active q = true ∧ target ≠ this
  ∧ sanction_cost q ≤ coins p.
Proof.
  unfold sanction_error.
  by intros (Hact & (Ht%target_error_None
                     & (Hs%self_error_None & Hc%coins_error_None)
                         %or_else_None)%or_else_None)%or_else_None.
Qed.

Lemma coup_error_None g this target p q :
  coup_error g this target p q = None →
  act_error g this p = None ∧ active q = true ∧ 7 ≤ coins p
  ∧ target ≠ this.
Proof.
  unfold coup_error.
  by intros (Hact & (Ht%target_error_None
                     & (Hc%coins_error_None & Hs%self_error_None)
                         %or_else_None)%or_else_None)%or_else_None.
Qed.

Lemma spy_error_None g this target p q message :
  spy_error g this target p q message = None →
  act_error g this p = None ∧ active q = true ∧ target ≠ this.
Proof.
  unfold spy_error.
  by intros (Hact & (Ht%target_error_None & Hs%self_error_None)
                      %or_else_None)%or_else_None.
Qed.

(** An action that passes its checks raises nothing. *)
Lemma or_else_None_2 a b : a = None → b = None → or_else a b = None.
Proof. by intros -> ->. Qed.

Lemma target_error_active q : active q = true → target_error q = None.
Proof. unfold target_error. by intros ->. Qed.

Lemma self_error_other this target message :
  target ≠ this → self_error this target message = None.
Proof. unfold self_error. by destruct (Nat.eqb_spec target this). Qed.

Lemma coins_error_enough p required :
  required ≤ coins p → coins_error p required = None.
Proof.
  unfold coins_error. by destruct (Z.ltb_spec (coins p) required); [lia|].
Qed.

(** ** Balances when an action has closed *)

Lemma after_action_other g i x :
  player_list g !! i = Some x → kind x ≠ Merchant →
  coins_at (after_action g) i = coins x.
Proof.
  intros Hx Hk.
  destruct (after_action_lookup g i x Hx) as (x' & Hx' & _ & _ & _ & _ & Hc & _).
  by rewrite (coins_at_lookup _ _ _ Hx'), Hc.
Qed.

Lemma after_action_merchant g i x :
  player_list g !! i = Some x →
  coins x ≤ coins_at (after_action g) i ≤ coins x + 1.
Proof.
  intros Hx.
  destruct (after_action_lookup g i x Hx) as (x' & Hx' & _ & _ & _ & Hc & _).
  by rewrite (coins_at_lookup _ _ _ Hx').
Qed.

Lemma after_action_actor_coins g i x :
  player_list g !! i = Some x → current_turn g = i →
  coins_at (after_action g) i = coins x.
Proof.
  intros Hx Hi. apply after_action_actor; [done|]. by apply coins_at_lookup.
Qed.

(** Seats of a roster under several updates. *)
Ltac lookups :=
  gsimpl;
  repeat first [rewrite list_lookup_alter_ne by done
               |rewrite list_lookup_alter_eq];
  repeat match goal with
    | H : ?l !! ?i = Some _ |- context [?l !! ?i] => rewrite H
    end;
  try reflexivity.

(** ** The seats across the commands *)

Lemma evolves_refl p : evolves p p.
Proof. by repeat split. Qed.

Lemma evolves_trans p1 p2 p3 : evolves p1 p2 → evolves p2 p3 → evolves p1 p3.
Proof.
  intros (Hn & Hk & Ha & Hc) (Hn' & Hk' & Ha' & Hc').
  repeat split; [congruence|congruence|auto|auto].
Qed.

Lemma roster_evolves_refl (l : list Player) : Forall2 evolves l l.
Proof.
  apply Forall2_same_length_lookup_2; [done|].
  intros i x y Hx Hy. rewrite Hx in Hy. injection Hy as <-.
  apply evolves_refl.
Qed.

Lemma roster_evolves_trans (l1 l2 l3 : list Player) :
  Forall2 evolves l1 l2 → Forall2 evolves l2 l3 → Forall2 evolves l1 l3.
Proof. apply Forall2_trans, evolves_trans. Qed.

Lemma roster_evolves_advance_turn_spec g :
  Forall2 evolves (player_list g) (player_list (advance_turn_spec g)).
Proof.
  apply Forall2_same_length_lookup_2;
    [by rewrite length_advance_turn_spec|].
  intros i x y Hx Hy.
  destruct (advance_turn_spec_lookup g i x Hx)
    as (x' & Hx' & Hn & Hk & Ha & Hc & _).
  rewrite Hx' in Hy. injection Hy as <-.
  repeat split; [done|done|congruence|lia].
Qed.

Lemma roster_evolves_after_action g :
  Forall2 evolves (player_list g) (player_list (after_action g)).
Proof.
  apply Forall2_same_length_lookup_2; [by rewrite length_after_action|].
  intros i x y Hx Hy.
  destruct (after_action_lookup g i x Hx)
    as (x' & Hx' & Hn & Hk & Ha & Hc & _).
  rewrite Hx' in Hy. injection Hy as <-.
  repeat split; [done|done|congruence|lia].
Qed.

(** An update of one seat that the relation allows. *)
Lemma roster_evolves_alter (l k : list Player) f i :
  Forall2 evolves l k →
  (∀ x y, l !! i = Some x → evolves x y → evolves x (f y)) →
  Forall2 evolves l (alter f i k).
Proof. intros Hl Hf. apply Forall2_alter_r; [done|]. eauto. Qed.

Lemma evolves_with_coins x y c :
  evolves x y → (0 ≤ coins x → 0 ≤ c) → evolves x (with_coins c y).
Proof. intros (Hn & Hk & Ha & Hc) Hcoins. by repeat split. Qed.

Lemma evolves_with_sanctioned x y b :
  evolves x y → evolves x (with_sanctioned b y).
Proof. by intros (Hn & Hk & Ha & Hc). Qed.

Lemma evolves_with_arrest_blocked x y b :
  evolves x y → evolves x (with_arrest_blocked b y).
Proof. by intros (Hn & Hk & Ha & Hc). Qed.

Lemma evolves_with_active_false x y :
  evolves x y → evolves x (with_active false y).
Proof. by intros (Hn & Hk & Ha & Hc). Qed.

(** The state that an action has built, seat by seat. *)
Ltac evolve :=
  unfold set_coins; cbv zeta; gsimpl;
  repeat match goal with
    | |- Forall2 evolves _ (alter (with_coins _) _ _) =>
        apply roster_evolves_alter;
        [|let Hx := fresh in
          intros ? ? Hx ?; apply evolves_with_coins; [done|];
          rewrite Hx in *; simplify_eq; intros; lia]
    | |- Forall2 evolves _ (alter (with_sanctioned _) _ _) =>
        apply roster_evolves_alter;
        [|intros ? ? _ ?; by apply evolves_with_sanctioned]
    | |- Forall2 evolves _ (alter (with_arrest_blocked _) _ _) =>
        apply roster_evolves_alter;
        [|intros ? ? _ ?; by apply evolves_with_arrest_blocked]
    | |- Forall2 evolves _ (alter (with_active false) _ _) =>
        apply roster_evolves_alter;
        [|intros ? ? _ ?; by apply evolves_with_active_false]
    end;
  try apply roster_evolves_refl.

Section PostStates.
Context (g : Game) (this target : nat) (p q : Player).
Hypothesis Hp : player_list g !! this = Some p.
Hypothesis Hq : player_list g !! target = Some q.

Lemma gather_post_evolves :
  Forall2 evolves (player_list g) (player_list (gather_post g this p)).
Proof. unfold gather_post. evolve. Qed.

Lemma tax_post_evolves :
  Forall2 evolves (player_list g) (player_list (tax_post g this p)).
Proof. unfold tax_post. pose proof (tax_amount_bounds p). evolve. Qed.

Lemma bribe_post_evolves :
  bribe_error g this p = None →
  Forall2 evolves (player_list g) (player_list (bribe_post g this p)).
Proof.
  intros (_ & Hc%coins_error_None)%or_else_None. unfold bribe_post. evolve.
Qed.

Lemma invest_post_evolves :
  invest_error g this p = None →
  Forall2 evolves (player_list g) (player_list (invest_post g this p)).
Proof.
  intros (_ & (Hc%coins_error_None & _)%or_else_None)%or_else_None.
  unfold invest_post. evolve.
Qed.

Lemma coup_post_evolves :
  coup_error g this target p q = None →
  Forall2 evolves (player_list g) (player_list (coup_post g this target p)).
Proof.
  intros (_ & _ & Hc & _)%coup_error_None. unfold coup_post. evolve.
Qed.

Lemma sanction_post_evolves :
  sanction_error g this target p q = None →
  Forall2 evolves (player_list g)
    (player_list (sanction_post g this target p q)).
Proof.
  intros (_ & _ & _ & Hc)%sanction_error_None. unfold sanction_post.
  cbv zeta. destruct (kind q); try destruct (1 <=? _); evolve.
Qed.

Lemma arrest_post_evolves :
  Forall2 evolves (player_list g)
    (player_list (arrest_post g this target p q)).
Proof.
  unfold arrest_post.
  destruct (kind q); try destruct (Z.ltb_spec 0 (coins q)); evolve.
Qed.

Lemma block_arrest_post_evolves :
  Forall2 evolves (player_list g) (player_list (block_arrest_post g target)).
Proof. unfold block_arrest_post. evolve. Qed.
End PostStates.

(** ** Countering an action *)

Lemma paid_in_refl g : paid_in g g.
Proof. repeat split; try done. apply roster_evolves_refl. Qed.

Lemma paid_in_trans g1 g2 g3 : paid_in g1 g2 → paid_in g2 g3 → paid_in g1 g3.
Proof.
  intros (Hw & Ht & Hl & Hc & Hs & Ha & Hr)
         (Hw' & Ht' & Hl' & Hc' & Hs' & Ha' & Hr').
  repeat split; try congruence; [lia|].
  by eapply roster_evolves_trans.
Qed.

Lemma wp_try_catch {A} (m : M A) h Q E (U : Prop) g :
  wp m Q (λ e g', wp (h e) Q E U g') U g → wp (try_catch m h) Q E U g.
Proof. unfold wp, try_catch. by destruct (m g). Qed.

(** A payment to the treasury: all of it or nothing. *)
Lemma payment_wp seat n g :
  0 ≤ n →
  wp (remove_coins seat n ;;; add_to_treasury n)
     (λ _ g', paid_in g g') (λ _ g', g' = g) True g.
Proof.
  intros Hn. apply wp_bind. unfold remove_coins. apply wp_bind, wp_deref.
  destruct (player_list g !! seat) as [p|] eqn:Hp; [|done].
  destruct (Z.ltb_spec (coins p) n); [by apply wp_throw|].
  apply wp_bind, wp_int_result. destruct (in_int _); [|done].
  apply wp_assign. rewrite Hp. apply wp_add_to_treasury; [done|].
  destruct (in_int _); [|done]. unfold paid_in. gsimpl.
  split; [|split; [lia|split; [|done]]].
  - unfold wealth. gsimpl. rewrite (total_coins_alter _ _ _ _ Hp). simpl. lia.
  - apply roster_evolves_alter; [apply roster_evolves_refl|].
    intros x y Hx Hxy. apply evolves_with_coins; [done|].
    rewrite Hp in Hx. injection Hx as <-. lia.
Qed.

Lemma payment_then seat n (k : M unit) Q E g :
  0 ≤ n →
  (∀ e, E e g) →
  (∀ g', paid_in g g' → wp k Q E True g') →
  wp (remove_coins seat n ;;; add_to_treasury n ;;; k) Q E True g.
Proof.
  intros Hn HE Hk. apply wp_bind. unfold remove_coins.
  apply wp_bind, wp_deref.
  destruct (player_list g !! seat) as [p|] eqn:Hp; [|done].
  destruct (Z.ltb_spec (coins p) n); [by apply wp_throw|].
  apply wp_bind, wp_int_result. destruct (in_int _); [|done].
  apply wp_assign. rewrite Hp. apply wp_bind, wp_add_to_treasury; [done|].
  destruct (in_int _); [|done]. apply Hk. unfold paid_in. gsimpl.
  split; [|split; [lia|split; [|done]]].
  - unfold wealth. gsimpl. rewrite (total_coins_alter _ _ _ _ Hp). simpl. lia.
  - apply roster_evolves_alter; [apply roster_evolves_refl|].
    intros x y Hx Hxy. apply evolves_with_coins; [done|].
    rewrite Hp in Hx. injection Hx as <-. lia.
Qed.

Lemma onBlockClicked_pays action actor blocker g :
  wp (onBlockClicked action actor blocker)
     (λ _ g', ∃ g1, paid_in g g1 ∧ g' = advance_turn_spec g1)
     (λ _ _, False) True g.
Proof.
  unfold onBlockClicked. apply wp_bind, wp_try_catch.
  assert (∀ g1, paid_in g g1 →
            wp next_turn
               (λ _ g', ∃ g1, paid_in g g1 ∧ g' = advance_turn_spec g1)
               (λ _ _, False) True g1) as Hnext.
  { intros g1 Hg1. eapply wp_mono; [apply next_turn_wp| |done..].
    intros _ g' ->. by exists g1. }
  assert (∀ seat n g0, 0 ≤ n → paid_in g g0 →
            wp (remove_coins seat n ;;; add_to_treasury n)
               (λ _ g', paid_in g g')
               (λ _ g', wp (ret tt)
                          (λ _ g', wp next_turn
                             (λ _ g', ∃ g1, paid_in g g1
                                            ∧ g' = advance_turn_spec g1)
                             (λ _ _, False) True g')
                          (λ _ _, False) True g')
               True g0) as Hpay.
  { intros seat n g0 Hn Hg0. eapply wp_mono; [by apply payment_wp| |..|done].
    - intros ? g' Hg'. by eapply paid_in_trans.
    - intros ? g' ->. apply wp_ret. by apply Hnext. }
  destruct (String.eqb action "Bribe").
  { eapply wp_mono; [apply Hpay; [done|apply paid_in_refl]| |done..].
    intros ? g'. apply Hnext. }
  destruct (String.eqb action "Sanction").
  { eapply wp_mono; [apply Hpay; [done|apply paid_in_refl]| |done..].
    intros ? g'. apply Hnext. }
  destruct (String.eqb action "Coup"); [|apply wp_ret, Hnext, paid_in_refl].
  apply payment_then; [done|by intros; apply wp_ret, Hnext, paid_in_refl|].
  intros g1 Hg1. apply wp_bind. unfold get_role. apply wp_bind, wp_deref.
  destruct (player_list g1 !! blocker) as [b|]; [|done]. apply wp_ret.
  destruct (String.eqb (role b) "General"); [|by apply wp_ret, Hnext].
  eapply wp_mono; [apply Hpay; [done|exact Hg1]| |done..].
  intros ? g'. apply Hnext.
Qed.

(** ** Every command, seat by seat *)

Lemma performAction_evolves action actor target g g' :
  performAction action actor target g = Ret tt g' →
  Forall2 evolves (player_list g) (player_list g').
Proof.
  unfold performAction.
  destruct (String.eqb action "Gather").
  { intros (p & Hp & _ & ->)%gather_committed.
    eapply roster_evolves_trans;
      [by apply (gather_post_evolves g actor p)|apply roster_evolves_after_action]. }
  destruct (String.eqb action "Tax").
  { intros (p & Hp & _ & ->)%tax_committed.
    eapply roster_evolves_trans;
      [by apply (tax_post_evolves g actor p)|apply roster_evolves_after_action]. }
  destruct (String.eqb action "Bribe").
  { intros (p & Hp & Herr & ->)%bribe_committed.
    eapply roster_evolves_trans;
      [by apply (bribe_post_evolves g actor p)|apply roster_evolves_after_action]. }
  destruct (String.eqb action "Invest").
  { unfold bind at 1, deref.
    destruct (player_list g !! actor) as [x|]; [|done].
    destruct (kind x); try done.
    intros (p & Hp & Herr & ->)%invest_committed.
    eapply roster_evolves_trans;
      [by apply (invest_post_evolves g actor p)|apply roster_evolves_after_action]. }
  destruct target as [t|]; [|intros [= <-]; apply roster_evolves_refl].
  destruct (String.eqb action "Arrest").
  { intros (p & q & Hp & Hq & Herr & ->)%arrest_committed.
    eapply roster_evolves_trans;
      [by apply (arrest_post_evolves g actor t p q)|apply roster_evolves_after_action]. }
  destruct (String.eqb action "Sanction").
  { intros (p & q & Hp & Hq & Herr & ->)%sanction_committed.
    eapply roster_evolves_trans;
      [by apply (sanction_post_evolves g actor t p q)|apply roster_evolves_after_action]. }
  destruct (String.eqb action "Coup").
  { intros (p & q & Hp & Hq & Herr & ->)%coup_committed.
    eapply roster_evolves_trans;
      [by apply (coup_post_evolves g actor t p q)|apply roster_evolves_after_action]. }
  intros [= <-]. apply roster_evolves_refl.
Qed.

Lemma execute_follows c g g' :
  (∀ k n, c ≠ AddPlayer k n) →
  execute c g = Ret tt g' ∨ (∃ e, execute c g = Throw e g') →
  wealth g' = wealth g ∧ Forall2 evolves (player_list g) (player_list g').
Proof.
  intros Hc Hrun.
  assert (g' = g → wealth g' = wealth g
                   ∧ Forall2 evolves (player_list g) (player_list g'))
    as Hsame by (intros ->; split; [done|apply roster_evolves_refl]).
  destruct c as [k n| |action actor target|spy target|spy target
                |action actor blocker|]; cbn [execute] in Hrun.
  - by destruct (Hc k n).
  - unfold start_game, bind, get in Hrun.
    destruct (_ <? 2)%nat; destruct Hrun as [Hrun|[e Hrun]]; try done.
    + apply Hsame. by injection Hrun as _ <-.
    + injection Hrun as <-. split; [done|apply roster_evolves_refl].
  - destruct Hrun as [Hrun|[e Hrun]].
    + split; [|by eapply performAction_evolves].
      by destruct (wp_Ret _ _ _ _ _ _ _
                     (conserves_performAction action actor target g) Hrun).
    + apply Hsame. by eapply performAction_unchanged.
  - destruct Hrun as [Hrun|[e Hrun]]; unfold bind at 1, deref in Hrun;
      (destruct (player_list g !! spy) as [x|]; [|done]);
      destruct (kind x); try done; apply Hsame.
    + by destruct (investigate_committed _ _ _ _ Hrun)
        as (? & ? & _ & _ & _ & ->).
    + by eapply investigate_unchanged.
  - destruct Hrun as [Hrun|[e Hrun]]; unfold bind at 1, deref in Hrun;
      (destruct (player_list g !! spy) as [x|]; [|done]);
      destruct (kind x); try done;
      try (apply Hsame; by injection Hrun as <-).
    + destruct (block_arrest_ability_committed _ _ _ _ Hrun)
        as (p & q & Hp & Hq & _ & ->).
      split; [|by apply block_arrest_post_evolves].
      unfold wealth, block_arrest_post. gsimpl.
      by rewrite total_coins_alter_same.
    + apply Hsame. by eapply block_arrest_ability_unchanged.
  - pose proof (onBlockClicked_pays action actor blocker g) as Hwp.
    destruct Hrun as [Hrun|[e Hrun]].
    + destruct (wp_Ret _ _ _ _ _ _ _ Hwp Hrun)
        as (g1 & (Hw & _ & Hl & _) & ->).
      rewrite wealth_advance_turn_spec. split; [done|].
      eapply roster_evolves_trans;
        [exact Hl|apply roster_evolves_advance_turn_spec].
    + destruct (wp_Throw _ _ _ _ _ _ _ Hwp Hrun).
  - pose proof (next_turn_wp g) as Hwp.
    destruct Hrun as [Hrun|[e Hrun]].
    + rewrite (wp_Ret _ _ _ _ _ _ _ Hwp Hrun), wealth_advance_turn_spec.
      split; [done|apply roster_evolves_advance_turn_spec].
    + destruct (wp_Throw _ _ _ _ _ _ _ Hwp Hrun).
Qed.

Lemma command_cases c :
  (∃ k n, c = AddPlayer k n) ∨ (∀ k n, c ≠ AddPlayer k n).
Proof. destruct c; eauto. Qed.

Lemma add_player_outcome player g :
  add_player player g
  = if (6 <=? length (player_list g))%nat then
      Throw (TooManyPlayersException "Maximum 6 players allowed") g
    else Ret tt (with_player_list (player_list g ++ [player]) g).
Proof.
  unfold add_player, validate_player_count, bind, get.
  by destruct (6 <=? _)%nat.
Qed.

Lemma total_coins_app l k : total_coins (l ++ k) = total_coins l + total_coins k.
Proof. induction l as [|p l IH]; simpl; lia. Qed.

Lemma coins_le_total l :
  Forall (λ p, 0 ≤ coins p) l → 0 ≤ total_coins l
  ∧ Forall (λ p, coins p ≤ total_coins l) l.
Proof.
  induction 1 as [|p l Hp Hl [IH0 IH]]; [by split|]. simpl. split; [lia|].
  constructor; [lia|]. eapply Forall_impl; [exact IH|]. simpl. intros. lia.
Qed.

Lemma coins_nonneg_evolves l l' :
  Forall2 evolves l l' →
  Forall (λ p, 0 ≤ coins p) l → Forall (λ p, 0 ≤ coins p) l'.
Proof.
  induction 1 as [|p p' l l' (_ & _ & _ & Hc) _ IH]; [done|].
  intros [Hp Hl]%Forall_cons. constructor; auto.
Qed.

Lemma reachable_fifty g :
  reachable g → wealth g = 50 ∧ Forall (λ p, 0 ≤ coins p) (player_list g).
Proof.
  assert (∀ c g g',
            wealth g = 50 ∧ Forall (λ p, 0 ≤ coins p) (player_list g) →
            execute c g = Ret tt g' ∨ (∃ e, execute c g = Throw e g') →
            wealth g' = 50 ∧ Forall (λ p, 0 ≤ coins p) (player_list g'))
    as Hstep.
  { intros c g0 g' [Hw Hc] Hrun.
    destruct (command_cases c) as [(k & n & ->)|Hother].
    - simpl in Hrun. rewrite add_player_outcome in Hrun.
      destruct (6 <=? _)%nat; destruct Hrun as [Hrun|[e Hrun]]; try done.
      + by injection Hrun as _ <-.
      + injection Hrun as <-. unfold wealth in *. gsimpl.
        rewrite total_coins_app. simpl. split; [lia|].
        apply Forall_app. split; [done|]. by repeat constructor.
    - destruct (execute_follows c g0 g') as [Hw' Hl]; [done..|].
      split; [congruence|]. by eapply coins_nonneg_evolves. }
  induction 1 as [|g c g' _ IH Hc|g c e g' _ IH Hc].
  - split; [done|constructor].
  - eapply Hstep; eauto.
  - eapply Hstep; eauto.
Qed.

(** ** The validator is a function of the state *)

Lemma validateTarget_run g action actor target :
  target_seated g target →
  validateTarget action actor target g
  = Ret (target_verdict g action actor target) g.
Proof.
  intros Ht. unfold validateTarget, target_verdict, seat_active.
  destruct target as [t|]; [|done].
  destruct (Ht t eq_refl) as [q Hq].
  rewrite (bind_run _ _ _ _ _ (is_active_run _ _ _ Hq)), Hq.
  destruct (active q); [|done]. simpl. by destruct (actor =? t)%nat.
Qed.

Lemma getValidationResult_run g action actor target p :
  player_list g !! actor = Some p → turn_in_range g →
  target_seated g target →
  getValidationResult action (Some actor) target g
  = Ret (verdict g action actor target p) g.
Proof.
  intros Hp Hr Ht. unfold getValidationResult, verdict, must_coup.
  rewrite (bind_run _ _ _ _ _ (get_coins_run _ _ _ Hp)).
  destruct (_ && _ && _); [done|].
  rewrite (bind_run _ _ _ _ _ (validatePlayerState_run _ _ _ Hp)).
  destruct (active p); [|done]. cbn [negb isValid valid invalid].
  rewrite (bind_run _ _ _ _ _ (validateGameState_run _ _ Hr)).
  destruct (current_turn g =? actor)%nat; [|done].
  cbn [negb isValid valid invalid].
  destruct (game_started g); [|done]. cbn [negb isValid valid invalid].
  rewrite (bind_run _ _ _ _ _ (validateCoins_run _ _ _ _ Hp)).
  fold (coin_verdict action p).
  destruct (isValid (coin_verdict action p)); [|done]. cbn [negb].
  rewrite (bind_run _ _ _ _ _
             (validateRoleSpecificRequirements_run _ _ _ _ Hp)).
  fold (role_verdict action p).
  destruct (isValid (role_verdict action p)); [|done]. cbn [negb].
  destruct (requiresTarget action); [|done].
  rewrite (bind_run _ _ _ _ _ (validateTarget_run _ _ _ _ Ht)).
  cbn [andb]. by destruct (isValid (target_verdict g action actor target)).
Qed.

Lemma isActionAvailableForButton_run g action actor p :
  player_list g !! actor = Some p → turn_in_range g →
  isActionAvailableForButton action (Some actor) g
  = Ret (button g action actor p) g.
Proof.
  intros Hp Hr. unfold isActionAvailableForButton, button, must_coup.
  rewrite (bind_run _ _ _ _ _ (get_coins_run _ _ _ Hp)).
  destruct (_ && _ && _); [done|].
  rewrite (bind_run _ _ _ _ _ (validatePlayerState_run _ _ _ Hp)).
  destruct (active p); [|done]. cbn [negb isValid valid invalid].
  rewrite (bind_run _ _ _ _ _ (validateGameState_run _ _ Hr)).
  destruct (current_turn g =? actor)%nat; [|done].
  cbn [negb isValid valid invalid].
  destruct (game_started g); [|done]. cbn [negb isValid valid invalid].
  rewrite (bind_run _ _ _ _ _ (validateCoins_run _ _ _ _ Hp)).
  fold (coin_verdict action p).
  destruct (isValid (coin_verdict action p)); [|done]. cbn [negb].
  rewrite (bind_run _ _ _ _ _
             (validateRoleSpecificRequirements_run _ _ _ _ Hp)).
  fold (role_verdict action p).
  by destruct (isValid (role_verdict action p)).
Qed.

Lemma isValid_verdict g action actor target p :
  isValid (verdict g action actor target p)
  = button g action actor p
    && (negb (requiresTarget action)
        || isValid (target_verdict g action actor target)).
Proof.
  unfold verdict, button.
  destruct (must_coup action p); [done|].
  destruct (active p); [|done].
  destruct (current_turn g =? actor)%nat; [|done].
  destruct (game_started g); [|done]. cbn [negb andb].
  destruct (isValid (coin_verdict action p)) eqn:Hc;
    [|cbn [negb andb]; by rewrite Hc].
  destruct (isValid (role_verdict action p)) eqn:Hro;
    [|cbn [negb andb]; by rewrite Hro].
  cbn [negb andb]. destruct (requiresTarget action); [|done].
  cbn [negb andb orb].
  destruct (isValid (target_verdict g action actor target)) eqn:Hta; [done|].
  cbn [negb]. by rewrite Hta.
Qed.

(** ** The classes of the validation exceptions *)

(** Splits on the name of the action, one known name after the other. *)
Ltac action_cases action :=
  repeat match goal with
    | |- context [String.eqb action ?s] =>
        destruct (String.eqb_spec action s) as [->|?]
    end.

(** Evaluates the tests on action names and the costs of named actions. *)
Ltac literals :=
  repeat match goal with
    | |- context [getActionCost ?s] =>
        let v := eval vm_compute in (getActionCost s) in
        change (getActionCost s) with v
    | |- context [String.eqb ?a ?b] =>
        lazymatch a with
        | role _ => fail
        | _ => let v := eval vm_compute in (String.eqb a b) in
               change (String.eqb a b) with v
        end
    | |- context [0 <? ?k] =>
        let v := eval vm_compute in (0 <? k) in change (0 <? k) with v
    | |- context [?k =? 3] =>
        let v := eval vm_compute in (k =? 3) in change (k =? 3) with v
    end;
  cbn [andb orb negb].

(** Splits on the tests that depend on the player. *)
Ltac player_cases p :=
  repeat match goal with
    | |- context [coins p <? ?k] => destruct (coins p <? k)
    | |- context [sanctioned p] => destruct (sanctioned p)
    | |- context [arrest_blocked p] => destruct (arrest_blocked p)
    | |- context [String.eqb (role p) ?s] => destruct (String.eqb (role p) s)
    end;
  cbn [andb orb negb].

Lemma validateActionExecution_run g action actor target p :
  player_list g !! actor = Some p → turn_in_range g →
  target_seated g target →
  validateActionExecution action (Some actor) target g
  = match validation_exception g action actor target p with
    | None => Ret tt g
    | Some e => Throw e g
    end.
Proof.
  intros Hp Hr Ht. unfold validateActionExecution.
  rewrite (bind_run _ _ _ _ _ (getValidationResult_run _ _ _ _ _ Hp Hr Ht)).
  unfold verdict, validation_exception.
  destruct (must_coup action p); [done|].
  destruct (active p); [|done].
  destruct (current_turn g =? actor)%nat; [|done].
  destruct (game_started g); [|done]. cbn [negb].
  destruct (isValid (coin_verdict action p)) eqn:Hc; cbn [negb].
  2:{ rewrite Hc. cbn [negb]. revert Hc.
      unfold coin_verdict, getActionCost. action_cases action; literals;
        player_cases p;
        try done; by vm_compute. }
  destruct (isValid (role_verdict action p)) eqn:Hro; cbn [negb].
  2:{ rewrite Hro. cbn [negb]. revert Hro.
      unfold role_verdict. action_cases action; literals; player_cases p;
        try done; by vm_compute. }
  destruct (requiresTarget action) eqn:Hreq; [|done]. cbn [andb].
  destruct (isValid (target_verdict g action actor target)) eqn:Hta; [done|].
  cbn [negb]. rewrite Hta. cbn [negb]. revert Hta.
  apply requiresTarget_cases in Hreq.
  unfold target_verdict.
  destruct target as [t|];
    [destruct (seat_active _ _); [destruct (actor =? t)%nat|]|];
    try done; intros _;
    destruct Hreq as [-> | [-> | [-> | [-> | ->]]]]; by vm_compute.
Qed.

Lemma validation_exception_None g action actor target p :
  validation_exception g action actor target p = None ↔
  must_coup action p = false ∧ act_error g actor p = None
  ∧ isValid (coin_verdict action p) = true
  ∧ isValid (role_verdict action p) = true
  ∧ (requiresTarget action = true →
     isValid (target_verdict g action actor target) = true).
Proof.
  unfold validation_exception, act_error.
  destruct (must_coup action p); [by split; [|intros [? _]]|].
  destruct (active p); cbn [negb]; [|by split; [|intros (_ & ? & _)]].
  destruct (current_turn g =? actor)%nat; cbn [negb];
    [|by split; [|intros (_ & ? & _)]].
  destruct (game_started g); cbn [negb]; [|by split; [|intros (_ & ? & _)]].
  destruct (isValid (coin_verdict action p)); cbn [negb];
    [|by split; [|intros (_ & _ & ? & _)]].
  destruct (isValid (role_verdict action p)); cbn [negb].
  2:{ split; [by destruct (String.eqb action "Arrest")|].
      by intros (_ & _ & _ & ? & _). }
  destruct (requiresTarget action); cbn [andb]; [|done].
  destruct (isValid (target_verdict g action actor target)); cbn [negb];
    [done|]. split; [done|]. intros (_ & _ & _ & _ & H). by specialize (H eq_refl).
Qed.

Lemma target_verdict_valid g action actor target :
  isValid (target_verdict g action actor target) = true ↔
  ∃ t q, target = Some t ∧ player_list g !! t = Some q ∧ active q = true
         ∧ t ≠ actor.
Proof.
  unfold target_verdict, seat_active. destruct target as [t|].
  2:{ split; [done|]. by intros (t & q & ? & _). }
  destruct (player_list g !! t) as [q|] eqn:Hq.
  2:{ split; [done|]. intros (t' & q & [= <-] & ? & _). congruence. }
  destruct (active q) eqn:Ha; cbn [negb].
  2:{ split; [done|]. intros (t' & q' & [= <-] & ? & ? & _). congruence. }
  destruct (Nat.eqb_spec actor t) as [->|Hne].
  - split; [done|]. by intros (t' & q' & [= <-] & _ & _ & ?).
  - split; [|done]. intros _. exists t, q. repeat split; congruence.
Qed.

(** What the validator asks of the actor, action by action. *)
Lemma coin_verdict_Bribe p :
  isValid (coin_verdict "Bribe" p) = true ↔ 4 ≤ coins p.
Proof.
  unfold coin_verdict. literals.
  destruct (Z.ltb_spec (coins p) 4); cbn [isValid]; split; (done || lia).
Qed.

Lemma coin_verdict_Coup p :
  isValid (coin_verdict "Coup" p) = true ↔ 7 ≤ coins p.
Proof.
  unfold coin_verdict. literals.
  destruct (Z.ltb_spec (coins p) 7); cbn [isValid]; split; (done || lia).
Qed.

Lemma coin_verdict_Invest p :
  isValid (coin_verdict "Invest" p) = true ↔ 3 ≤ coins p.
Proof.
  unfold coin_verdict. literals.
  destruct (Z.ltb_spec (coins p) 3); cbn [isValid]; split; (done || lia).
Qed.

Lemma coin_verdict_Sanction p :
  isValid (coin_verdict "Sanction" p) = true ↔ 3 ≤ coins p.
Proof.
  unfold coin_verdict. literals.
  destruct (Z.ltb_spec (coins p) 3); cbn [isValid]; split; (done || lia).
Qed.

Lemma coin_verdict_free action p :
  action = "Gather" ∨ action = "Tax" ∨ action = "Arrest" →
  isValid (coin_verdict action p) = true.
Proof. unfold coin_verdict. by intros [->|[->| ->]]; literals. Qed.

Lemma role_verdict_income action p :
  action = "Gather" ∨ action = "Tax" →
  isValid (role_verdict action p) = true ↔ sanctioned p = false.
Proof.
  unfold role_verdict. by intros [->| ->]; literals; destruct (sanctioned p).
Qed.

Lemma role_verdict_Arrest p :
  isValid (role_verdict "Arrest" p) = true ↔ arrest_blocked p = false.
Proof. unfold role_verdict. literals. by destruct (arrest_blocked p). Qed.

Lemma role_verdict_Invest p :
  isValid (role_verdict "Invest" p) = true ↔ kind p = Baron.
Proof.
  unfold role_verdict. literals. unfold role.
  by destruct (kind p); vm_compute; split.
Qed.

Lemma role_verdict_any action p :
  action = "Bribe" ∨ action = "Sanction" ∨ action = "Coup" →
  isValid (role_verdict action p) = true.
Proof. unfold role_verdict. by intros [->|[->| ->]]; literals. Qed.

Lemma act_error_ok g this p :
  active p = true → current_turn g = this → game_started g = true →
  act_error g this p = None.
Proof.
  unfold act_error. intros -> -> ->. by rewrite Nat.eqb_refl.
Qed.

Lemma treasury_error_enough g amount :
  amount ≤ treasury g → treasury_error g amount = None.
Proof.
  unfold treasury_error. by destruct (Z.ltb_spec (treasury g) amount); [lia|].
Qed.

Lemma sanctioned_error_clear p :
  sanctioned p = false → sanctioned_error p = None.
Proof. unfold sanctioned_error. by intros ->. Qed.

Lemma validated_commits g action actor target p :
  playable g → player_list g !! actor = Some p →
  committable action →
  validation_exception g action actor target p = None →
  engine_only g action p target →
  ∃ g', performAction action actor target g = Ret tt g'.
Proof.
  intros Hg Hp Hc (_ & Hact & Hcv & Hrv & Htv)%validation_exception_None
    (Hga & Hta & Hin & Har & Hsa).
  destruct Hc as [->|[->|[->|[->|[->|[->| ->]]]]]].
  - change (performAction "Gather" actor target g) with (gather actor g).
    rewrite (gather_outcome g actor p Hg Hp). unfold gather_error.
    apply role_verdict_income in Hrv; [|by left].
    rewrite Hact, (sanctioned_error_clear _ Hrv),
      (treasury_error_enough _ _ (Hga eq_refl)). by eexists.
  - change (performAction "Tax" actor target g) with (tax actor g).
    rewrite (tax_outcome g actor p Hg Hp). unfold tax_error.
    apply role_verdict_income in Hrv; [|by right].
    rewrite Hact, (sanctioned_error_clear _ Hrv),
      (treasury_error_enough _ _ (Hta eq_refl)). by eexists.
  - change (performAction "Bribe" actor target g) with (bribe actor g).
    rewrite (bribe_outcome g actor p Hg Hp). unfold bribe_error.
    apply coin_verdict_Bribe in Hcv.
    rewrite Hact, (coins_error_enough _ _ Hcv). by eexists.
  - apply role_verdict_Invest in Hrv. apply coin_verdict_Invest in Hcv.
    change (performAction "Invest" actor target g)
      with ((q <- deref actor ;;
             match kind q with
             | Baron => invest actor
             | _ => throw (IllegalMoveException "Only Baron can invest")
             end) g).
    rewrite (bind_run _ _ _ _ _ (deref_run _ _ _ Hp)), Hrv.
    rewrite (invest_outcome g actor p Hg Hp). unfold invest_error.
    rewrite Hact, (coins_error_enough _ _ Hcv). cbn [or_else].
    specialize (Hin eq_refl).
    destruct (Z.ltb_spec (treasury g) 6); [lia|]. by eexists.
  - destruct (proj1 (target_verdict_valid _ _ _ _) (Htv eq_refl))
      as (t & q & -> & Hq & Haq & Hne).
    change (performAction "Arrest" actor (Some t) g) with (arrest actor t g).
    rewrite (arrest_outcome g actor t p q Hg Hp Hq). unfold arrest_error.
    apply role_verdict_Arrest in Hrv.
    rewrite Hact, (target_error_active _ Haq), (self_error_other _ _ _ Hne),
      Hrv. cbn [or_else].
    destruct (String.eqb_spec (last_arrested_player g) (name q)) as [He|_];
      [by destruct (Har eq_refl t q eq_refl Hq)|]. by eexists.
  - destruct (proj1 (target_verdict_valid _ _ _ _) (Htv eq_refl))
      as (t & q & -> & Hq & Haq & Hne).
    change (performAction "Sanction" actor (Some t) g)
      with (sanction actor t g).
    rewrite (sanction_outcome g actor t p q Hg Hp Hq). unfold sanction_error.
    apply coin_verdict_Sanction in Hcv.
    assert (sanction_cost q ≤ coins p) as Hcost.
    { unfold sanction_cost.
      destruct (kind q) eqn:Hk; try lia. exact (Hsa eq_refl t q eq_refl Hq Hk). }
    rewrite Hact, (target_error_active _ Haq), (self_error_other _ _ _ Hne),
      (coins_error_enough _ _ Hcost). by eexists.
  - destruct (proj1 (target_verdict_valid _ _ _ _) (Htv eq_refl))
      as (t & q & -> & Hq & Haq & Hne).
    change (performAction "Coup" actor (Some t) g) with (coup actor t g).
    rewrite (coup_outcome g actor t p q Hg Hp Hq). unfold coup_error.
    apply coin_verdict_Coup in Hcv.
    rewrite Hact, (target_error_active _ Haq), (coins_error_enough _ _ Hcv),
      (self_error_other _ _ _ Hne). by eexists.
Qed.

Lemma must_coup_false action p :
  coins p < 10 ∨ action = "Coup" → must_coup action p = false.
Proof.
  unfold must_coup. intros [H| ->].
  - by destruct (Z.leb_spec 10 (coins p)); [lia|].
  - by destruct (10 <=? coins p).
Qed.

Lemma committed_validates g g' action actor target p :
  performAction action actor target g = Ret tt g' →
  committable action →
  (requiresTarget action = true → is_Some target) →
  player_list g !! actor = Some p →
  coins p < 10 ∨ action = "Coup" →
  validation_exception g action actor target p = None ∧ turn_in_range g.
Proof.
  intros Hrun Hc Htgt Hp Hcoins.
  apply must_coup_false in Hcoins.
  assert (act_error g actor p = None → turn_in_range g) as Hin.
  { intros (_ & Ht & _)%act_error_None.
    unfold turn_in_range. rewrite Ht. by eapply lookup_lt_Some. }
  rewrite validation_exception_None.
  destruct Hc as [->|[->|[->|[->|[->|[->| ->]]]]]].
  - change (performAction "Gather" actor target g) with (gather actor g)
      in Hrun.
    apply gather_committed in Hrun as (p' & Hp' & Herr & _).
    assert (p' = p) as -> by congruence. unfold gather_error in Herr.
    apply or_else_None in Herr as (Hact & (Hs%sanctioned_error_None & _)
                                            %or_else_None).
    refine (conj (conj Hcoins (conj Hact (conj _ (conj _ _)))) (Hin Hact)).
    + by apply coin_verdict_free; left.
    + by apply role_verdict_income; [left|].
    + done.
  - change (performAction "Tax" actor target g) with (tax actor g) in Hrun.
    apply tax_committed in Hrun as (p' & Hp' & Herr & _).
    assert (p' = p) as -> by congruence. unfold tax_error in Herr.
    apply or_else_None in Herr as (Hact & (Hs%sanctioned_error_None & _)
                                            %or_else_None).
    refine (conj (conj Hcoins (conj Hact (conj _ (conj _ _)))) (Hin Hact)).
    + by apply coin_verdict_free; right; left.
    + by apply role_verdict_income; [right|].
    + done.
  - change (performAction "Bribe" actor target g) with (bribe actor g)
      in Hrun.
    apply bribe_committed in Hrun as (p' & Hp' & Herr & _).
    assert (p' = p) as -> by congruence. unfold bribe_error in Herr.
    apply or_else_None in Herr as (Hact & Hc%coins_error_None).
    refine (conj (conj Hcoins (conj Hact (conj _ (conj _ _)))) (Hin Hact)).
    + by apply coin_verdict_Bribe.
    + by apply role_verdict_any; left.
    + done.
  - change (performAction "Invest" actor target g)
      with ((q <- deref actor ;;
             match kind q with
             | Baron => invest actor
             | _ => throw (IllegalMoveException "Only Baron can invest")
             end) g) in Hrun.
    rewrite (bind_run _ _ _ _ _ (deref_run _ _ _ Hp)) in Hrun.
    destruct (kind p) eqn:Hk; try done.
    apply invest_committed in Hrun as (p' & Hp' & Herr & _).
    assert (p' = p) as -> by congruence. unfold invest_error in Herr.
    apply or_else_None in Herr as (Hact & (Hc%coins_error_None & _)
                                            %or_else_None).
    refine (conj (conj Hcoins (conj Hact (conj _ (conj _ _)))) (Hin Hact)).
    + by apply coin_verdict_Invest.
    + by apply role_verdict_Invest.
    + done.
  - destruct (Htgt eq_refl) as [t ->].
    change (performAction "Arrest" actor (Some t) g) with (arrest actor t g)
      in Hrun.
    apply arrest_committed in Hrun as (p' & q & Hp' & Hq & Herr & _).
    assert (p' = p) as -> by congruence.
    apply arrest_error_None in Herr as (Hact & Haq & Hne & Hb & _).
    refine (conj (conj Hcoins (conj Hact (conj _ (conj _ _)))) (Hin Hact)).
    + by apply coin_verdict_free; right; right.
    + by apply role_verdict_Arrest.
    + intros _. apply target_verdict_valid. by exists t, q.
  - destruct (Htgt eq_refl) as [t ->].
    change (performAction "Sanction" actor (Some t) g)
      with (sanction actor t g) in Hrun.
    apply sanction_committed in Hrun as (p' & q & Hp' & Hq & Herr & _).
    assert (p' = p) as -> by congruence.
    apply sanction_error_None in Herr as (Hact & Haq & Hne & Hc).
    refine (conj (conj Hcoins (conj Hact (conj _ (conj _ _)))) (Hin Hact)).
    + apply coin_verdict_Sanction.
      pose proof (sanction_cost_bounds q). lia.
    + by apply role_verdict_any; right; left.
    + intros _. apply target_verdict_valid. by exists t, q.
  - destruct (Htgt eq_refl) as [t ->].
    change (performAction "Coup" actor (Some t) g) with (coup actor t g)
      in Hrun.
    apply coup_committed in Hrun as (p' & q & Hp' & Hq & Herr & _).
    assert (p' = p) as -> by congruence.
    apply coup_error_None in Herr as (Hact & Haq & Hc & Hne).
    refine (conj (conj Hcoins (conj Hact (conj _ (conj _ _)))) (Hin Hact)).
    + by apply coin_verdict_Coup.
    + by apply role_verdict_any; right; right.
    + intros _. apply target_verdict_valid. by exists t, q.
Qed.

Lemma validation_exception_verdict g action actor target p :
  match validation_exception g action actor target p with
  | None => isValid (verdict g action actor target p) = true
  | Some e => isValid (verdict g action actor target p) = false
              ∧ what e = errorMessage (verdict g action actor target p)
  end.
Proof.
  unfold validation_exception, verdict.
  destruct (must_coup action p); [done|].
  destruct (active p); [|done].
  destruct (current_turn g =? actor)%nat; [|done].
  destruct (game_started g); [|done]. cbn [negb].
  destruct (isValid (coin_verdict action p)) eqn:Hc; [|by rewrite ?Hc].
  cbn [negb].
  destruct (isValid (role_verdict action p)) eqn:Hro;
    [|by rewrite ?Hro; destruct (String.eqb action "Arrest")].
  cbn [negb]. destruct (requiresTarget action); [|done]. cbn [andb].
  by destruct (isValid (target_verdict g action actor target)) eqn:Hta;
    rewrite ?Hta.
Qed.

(** ** Countering an action *)

Lemma can_block_run g this action p :
  player_list g !! this = Some p →
  can_block this action g = Ret (counters p action) g.
Proof.
  intros Hp. unfold can_block, counters.
  rewrite (bind_run _ _ _ _ _ (deref_run _ _ _ Hp)). by destruct (kind p).
Qed.

Lemma collect_blockers_run g action actor allPlayers blockers :
  Forall (λ i, i < length (player_list g))%nat allPlayers →
  collect_blockers action actor allPlayers blockers g
  = Ret (blockers
         ++ filter (λ seat, blocks g action actor seat = true) allPlayers)%list
      g.
Proof.
  intros Hall. revert blockers.
  induction Hall as [|player rest Hlt _ IH]; intros blockers.
  { by rewrite app_nil_r. }
  cbn [collect_blockers].
  destruct (Nat.eqb_spec player actor) as [He|Hne].
  { rewrite filter_cons_False; [apply IH|].
    unfold blocks. by rewrite (proj2 (Nat.eqb_eq _ _) He). }
  destruct (lookup_lt_is_Some_2 _ _ Hlt) as [p Hp].
  assert (blocks g action actor player = active p && counters p action)
    as Hb.
  { unfold blocks. by rewrite (proj2 (Nat.eqb_neq _ _) Hne), Hp. }
  rewrite (bind_run _ _ _ _ _ (is_active_run _ _ _ Hp)).
  destruct (active p); cbn [negb andb] in *.
  2:{ rewrite filter_cons_False; [apply IH|]. by rewrite Hb. }
  rewrite (bind_run _ _ _ _ _ (can_block_run _ _ _ _ Hp)).
  destruct (counters p action).
  - rewrite filter_cons_True by done. rewrite IH. by rewrite <- app_assoc.
  - rewrite filter_cons_False; [apply IH|]. by rewrite Hb.
Qed.

Lemma GUI_performAction_run action actor target g :
  GUI_performAction action actor target g
  = match performAction action actor target g with
    | Ret _ g' => Ret tt g'
    | Throw _ _ => Ret tt g
    | Undefined => Undefined
    end.
Proof.
  unfold GUI_performAction, try_catch.
  destruct (performAction action actor target g) as [[] g'|e g'|] eqn:Hrun;
    [done| |done].
  by rewrite (performAction_unchanged _ _ _ _ _ _ Hrun).
Qed.

Lemma startBlockPhase_run g action actor target :
  startBlockPhase action actor target g
  = match blockers_of g action actor with
    | [] => (GUI_performAction action actor target ;;; ret []) g
    | blockers => Ret blockers g
    end.
Proof.
  unfold startBlockPhase, all_players, blockers_of.
  assert (Forall (λ i, i < length (player_list g))%nat
            (seq 0 (length (player_list g)))) as Hall.
  { apply Forall_forall. intros i Hi%list_elem_of_In%in_seq. lia. }
  unfold bind at 1 2 3. unfold get, ret.
  rewrite (collect_blockers_run g action actor _ [] Hall). cbn [app].
  by destruct (filter _ _).
Qed.

Lemma blockers_of_spec g action actor i :
  i ∈ blockers_of g action actor ↔
  i ≠ actor ∧ ∃ p, player_list g !! i = Some p ∧ active p = true
                   ∧ counters p action = true.
Proof.
  unfold blockers_of. rewrite list_elem_of_filter, list_elem_of_In, in_seq.
  unfold blocks. split.
  - intros [H _]. destruct (Nat.eqb_spec i actor); [done|].
    destruct (player_list g !! i) as [p|]; [|done].
    cbn [negb andb] in H. apply andb_true_iff in H as [Ha Hc].
    split; [done|]. by exists p.
  - intros (Hne & p & Hp & Ha & Hc). rewrite Hp, Ha, Hc.
    destruct (Nat.eqb_spec i actor); [done|]. split; [done|].
    apply lookup_lt_Some in Hp. lia.
Qed.

Lemma counters_cases p action :
  counters p action = true →
  (kind p = Governor ∧ transform tolower action = "tax")
  ∨ (kind p = General ∧ transform tolower action = "coup" ∧ 5 ≤ coins p)
  ∨ (kind p = Judge ∧ transform tolower action = "bribe").
Proof.
  unfold counters. destruct (kind p); try done.
  - intros ?%String.eqb_eq. by left.
  - intros [?%String.eqb_eq ?%Z.leb_le]%andb_true_iff. by right; left.
  - intros ?%String.eqb_eq. by right; right.
Qed.

Lemma counters_lower p action :
  counters p action = true →
  transform tolower action = "tax" ∨ transform tolower action = "coup"
  ∨ transform tolower action = "bribe".
Proof. intros H%counters_cases. tauto. Qed.

Lemma blockers_of_nil g action actor :
  transform tolower action ≠ "tax" → transform tolower action ≠ "coup" →
  transform tolower action ≠ "bribe" →
  blockers_of g action actor = [].
Proof.
  intros H1 H2 H3. destruct (blockers_of g action actor) as [|i l] eqn:Hb;
    [done|].
  assert (i ∈ blockers_of g action actor) as Hi by (rewrite Hb; left).
  apply blockers_of_spec in Hi as (_ & p & _ & _ & Hc%counters_lower). tauto.
Qed.

(** ** The payments of a countered action *)

Lemma playable_bounded g : playable g → bounded 0 g.
Proof. intros (? & ? & _ & ?). unfold bounded. by rewrite Z.add_0_r. Qed.

Lemma remove_coins_run g seat n p b :
  bounded b g → 0 ≤ n ≤ 7 → player_list g !! seat = Some p →
  remove_coins seat n g
  = if coins p <? n then
      Throw (NotEnoughCoinsException "Not enough coins for action") g
    else Ret tt (set_coins seat (coins p - n) g).
Proof.
  intros (_ & _ & Hc) Hn Hp. unfold remove_coins.
  rewrite (bind_run _ _ _ _ _ (deref_run _ _ _ Hp)).
  destruct (Z.ltb_spec (coins p) n); [done|].
  pose proof (Forall_lookup_1 _ _ _ _ Hc Hp) as Hb. cbn beta in Hb.
  unfold bind, int_result. rewrite in_int_true.
  2:{ unfold INT_MIN, INT_MAX, LIMIT in *. lia. }
  unfold ret, assign. by rewrite Hp.
Qed.

Lemma add_to_treasury_run g n b :
  bounded b g → 0 ≤ n ≤ 7 → 0 ≤ b ≤ 7 →
  add_to_treasury n g = Ret tt (with_treasury (treasury g + n) g).
Proof.
  intros (_ & Ht & _) Hn Hb. unfold add_to_treasury.
  destruct (Z.ltb_spec n 0); [lia|].
  unfold bind, get, int_result. rewrite in_int_true; [done|].
  unfold INT_MIN, INT_MAX, LIMIT in *. lia.
Qed.

Lemma bounded_set_coins g seat c b :
  bounded b g → - LIMIT ≤ c ≤ LIMIT → bounded b (set_coins seat c g).
Proof.
  intros (Hr & Ht & Hc) Hb. unfold bounded, set_coins, turn_in_range in *.
  gsimpl. rewrite length_alter. repeat split; try done; try lia.
  by apply Forall_alter; [|intros ? _ ?].
Qed.

Lemma pay_then_run {A} g seat n p b (k : M A) :
  bounded b g → 0 ≤ n ≤ 7 → 0 ≤ b ≤ 7 → player_list g !! seat = Some p →
  (remove_coins seat n ;;; add_to_treasury n ;;; k) g
  = if coins p <? n then
      Throw (NotEnoughCoinsException "Not enough coins for action") g
    else k (pay seat n g).
Proof.
  intros Hg Hn Hb Hp. unfold bind at 1.
  rewrite (remove_coins_run _ _ _ _ _ Hg Hn Hp). unfold pay. rewrite Hp.
  destruct (Z.ltb_spec (coins p) n); [done|].
  assert (bounded b (set_coins seat (coins p - n) g)) as Hg1.
  { apply bounded_set_coins; [done|]. destruct Hg as (_ & _ & Hc).
    pose proof (Forall_lookup_1 _ _ _ _ Hc Hp) as Hcp. cbn beta in Hcp.
    unfold LIMIT in *. lia. }
  unfold bind at 1. by rewrite (add_to_treasury_run _ _ _ Hg1 Hn Hb).
Qed.

Lemma pay_run g seat n p b :
  bounded b g → 0 ≤ n ≤ 7 → 0 ≤ b ≤ 7 → player_list g !! seat = Some p →
  (remove_coins seat n ;;; add_to_treasury n) g
  = if coins p <? n then
      Throw (NotEnoughCoinsException "Not enough coins for action") g
    else Ret tt (pay seat n g).
Proof.
  intros Hg Hn Hb Hp. unfold bind at 1.
  rewrite (remove_coins_run _ _ _ _ _ Hg Hn Hp). unfold pay. rewrite Hp.
  destruct (Z.ltb_spec (coins p) n); [done|].
  assert (bounded b (set_coins seat (coins p - n) g)) as Hg1.
  { apply bounded_set_coins; [done|]. destruct Hg as (_ & _ & Hc).
    pose proof (Forall_lookup_1 _ _ _ _ Hc Hp) as Hcp. cbn beta in Hcp.
    unfold LIMIT in *. lia. }
  by rewrite (add_to_treasury_run _ _ _ Hg1 Hn Hb).
Qed.

Lemma pay_refused g seat n p :
  player_list g !! seat = Some p → coins p < n → pay seat n g = g.
Proof.
  intros Hp Hlt. unfold pay. rewrite Hp.
  by destruct (Z.ltb_spec (coins p) n); [|lia].
Qed.

Lemma bounded_pay g seat n b :
  bounded b g → 0 ≤ n → bounded (b + n) (pay seat n g).
Proof.
  intros Hg Hn. unfold pay.
  assert (bounded (b + n) g) as Hweak.
  { destruct Hg as (? & ? & ?). unfold bounded. repeat split; try done; lia. }
  destruct (player_list g !! seat) as [p|] eqn:Hp; [|done].
  destruct (Z.ltb_spec (coins p) n); [done|].
  destruct Hg as (Hr & Ht & Hc).
  pose proof (Forall_lookup_1 _ _ _ _ Hc Hp) as Hcp. cbn beta in Hcp.
  unfold bounded, set_coins, turn_in_range in *. gsimpl.
  rewrite length_alter. repeat split; try done; try lia.
  apply Forall_alter; [done|]. intros ? _ ?. cbn [coins with_coins].
  unfold LIMIT in *. lia.
Qed.

Lemma pay_lookup g seat n i :
  is_Some (player_list g !! i) → is_Some (player_list (pay seat n g) !! i).
Proof.
  unfold pay. destruct (player_list g !! seat) as [p|]; [|done].
  destruct (coins p <? n); [done|]. unfold set_coins. gsimpl.
  rewrite !lookup_lt_is_Some. by rewrite length_alter.
Qed.

Lemma next_turn_run g b :
  bounded b g → 0 ≤ b ≤ 100 →
  next_turn g = Ret tt (advance_turn_spec g).
Proof.
  intros (Hr & Ht & Hc) Hb. pose proof (next_turn_wp g) as Hwp.
  unfold wp in Hwp. destruct (next_turn g) as [[] g'|e g'|];
    [by subst|done|].
  destruct Hwp. split; [done|]. split.
  - unfold INT_MAX, LIMIT in *. lia.
  - eapply Forall_impl; [exact Hc|]. cbn beta. intros p ?.
    unfold INT_MAX, LIMIT in *. lia.
Qed.

Lemma onBlockClicked_run g action actor blocker :
  playable g → is_Some (player_list g !! actor) →
  is_Some (player_list g !! blocker) →
  onBlockClicked action actor blocker g
  = Ret tt (advance_turn_spec (block_post g action actor blocker)).
Proof.
  intros Hg%playable_bounded [a Ha] Hbl.
  unfold onBlockClicked, block_post.
  assert (∀ n, 0 ≤ n ≤ 7 →
            try_catch (remove_coins actor n ;;; add_to_treasury n)
              (λ _, ret tt) g = Ret tt (pay actor n g)) as Hpay.
  { intros n Hn. unfold try_catch.
    rewrite (pay_run _ _ _ _ _ Hg Hn ltac:(lia) Ha).
    destruct (Z.ltb_spec (coins a) n); [|done].
    by rewrite (pay_refused _ _ _ _ Ha). }
  destruct (String.eqb action "Bribe").
  { rewrite (bind_run _ _ _ _ _ (Hpay 4 ltac:(lia))).
    apply (next_turn_run _ (0 + 4)); [by apply bounded_pay|lia]. }
  destruct (String.eqb action "Sanction").
  { rewrite (bind_run _ _ _ _ _ (Hpay 3 ltac:(lia))).
    apply (next_turn_run _ (0 + 3)); [by apply bounded_pay|lia]. }
  destruct (String.eqb action "Coup").
  2:{ unfold bind, try_catch, ret. apply (next_turn_run _ 0); [done|lia]. }
  unfold bind at 1. unfold try_catch.
  rewrite (pay_then_run g actor 7 a 0 _ Hg ltac:(lia) ltac:(lia) Ha).
  unfold can_pay. rewrite Ha.
  destruct (Z.ltb_spec (coins a) 7) as [Hlt|Hge].
  { destruct (Z.leb_spec 7 (coins a)); [lia|]. cbn [ret].
    apply (next_turn_run _ 0); [done|lia]. }
  destruct (Z.leb_spec 7 (coins a)); [|lia].
  pose proof (bounded_pay _ actor 7 _ Hg ltac:(lia)) as Hg1.
  destruct (pay_lookup g actor 7 blocker Hbl) as [b Hb]. rewrite Hb.
  rewrite (bind_run _ _ _ _ _ (get_role_run _ _ _ Hb)).
  unfold role.
  destruct (kind b); cbn [String.eqb Ascii.eqb Bool.eqb];
    try (cbn [ret]; apply (next_turn_run _ (0 + 7)); [done|lia]).
  rewrite (pay_run _ blocker 5 b (0 + 7) Hg1 ltac:(lia) ltac:(lia) Hb).
  destruct (Z.ltb_spec (coins b) 5).
  - rewrite (pay_refused _ _ _ _ Hb) by done. cbn [ret].
    apply (next_turn_run _ (0 + 7)); [done|lia].
  - apply (next_turn_run _ (0 + 7 + 5)); [by apply bounded_pay|lia].
Qed.

(** ** A started match stays started *)

Lemma preserves_started_next_turn : preserves started next_turn.
Proof.
  intros g Hg. eapply wp_mono; [apply next_turn_wp| |done..].
  intros _ g' ->. unfold started in *.
  by rewrite game_started_advance_turn_spec.
Qed.

Lemma preserves_started_end_of_action : preserves started end_of_action.
Proof.
  intros g Hg. eapply wp_mono; [apply end_of_action_wp| |done..].
  intros _ g' ->. unfold started in *.
  by rewrite game_started_after_action.
Qed.

Lemma preserves_started_execute c : preserves started (execute c).
Proof.
  assert (∀ l g, length l = length (player_list g) →
                 started g → started (with_player_list l g)) by done.
  pose proof preserves_started_next_turn.
  pose proof preserves_started_end_of_action.
  assert (∀ n, preserves started (add_extra_actions n))
    by (intros; by apply preserves_add_extra_actions).
  destruct c as [k n| |action actor target|spy target|spy target
                |action actor blocker|]; simpl.
  - intros g Hg. unfold add_player, validate_player_count.
    apply wp_bind, wp_bind, wp_get.
    destruct (Nat.leb_spec 6 (length (player_list g))); [done|].
    by apply wp_ret, wp_bind, wp_get, wp_put.
  - intros g Hg. unfold start_game. apply wp_bind, wp_get.
    destruct (Nat.ltb_spec (length (player_list g)) 2); [done|].
    by apply wp_put.
  - unfold performAction, gather, tax, bribe, invest, arrest, sanction, coup.
    preserves_auto.
  - preserves_auto; by intros g Hg.
  - preserves_auto.
  - unfold onBlockClicked. apply preserves_bind; [|intros; eauto with preserves].
    apply preserves_try_catch; [|intros ?]; preserves_auto.
  - eauto with preserves.
Qed.

(** ** The names of the players, in a match that the interface sets up *)

Lemma name_create_random_player role_index n :
  name (create_random_player role_index n) = n.
Proof.
  unfold create_random_player.
  repeat match goal with
    | |- context [match ?x with _ => _ end] => destruct x
    end; done.
Qed.

Lemma string_empty_spec s : string_empty s = true ↔ s = "".
Proof. by destruct s. Qed.

Lemma find_if_name_None n l :
  find_if (String.eqb n) (map name l) = None → n ∉ map name l.
Proof.
  intros Hf%find_if_None Hin. rewrite Forall_forall in Hf.
  specialize (Hf n Hin). by rewrite String.eqb_refl in Hf.
Qed.

Lemma names_evolve l l' :
  Forall2 evolves l l' → map name l' = map name l.
Proof.
  induction 1 as [|p p' l l' (Hn & _) _ IH]; [done|]. simpl.
  by rewrite Hn, IH.
Qed.

Lemma names_ok_seat s g n k :
  names_ok s g → isSetupPhase s = true → n ≠ "" →
  n ∉ map name (player_list g) →
  let g1 := with_player_list
              (player_list g ++ [create_random_player k n]) g in
  names_ok
    (mkSetup "" (length (player_list g1) <? 6)%nat)
    (if (length (player_list g1) <? 6)%nat then g1
     else with_game_started true g1).
Proof.
  intros (Hnd & Hne & Hsix & Hphase) Hs Hn Hnew. rewrite Hs in Hphase.
  destruct Hphase as [Hst Hlt]. cbn zeta. gsimpl.
  rewrite length_app. cbn [length].
  assert (NoDup (map name (player_list g ++ [create_random_player k n])))
    as Hnd'.
  { rewrite map_app. cbn [map]. rewrite name_create_random_player.
    apply NoDup_app. split; [done|]. split.
    - intros x Hx ->%list_elem_of_singleton. done.
    - apply NoDup_singleton. }
  assert ("" ∉ map name (player_list g ++ [create_random_player k n]))
    as Hne'.
  { rewrite map_app. cbn [map]. rewrite name_create_random_player.
    rewrite not_elem_of_app. split; [done|].
    intros H%list_elem_of_singleton. congruence. }
  destruct (Nat.ltb_spec (length (player_list g) + 1) 6); unfold names_ok;
    gsimpl; rewrite length_app; cbn [length isSetupPhase];
    repeat split; try done; lia.
Qed.

Lemma handleEvents_Space_run s g :
  handleEvents_Space s g
  = if isSetupPhase s && (2 <=? length (player_list g))%nat then
      Ret (mkSetup (currentInput s) false) (with_game_started true g)
    else Ret s g.
Proof.
  unfold handleEvents_Space. destruct (isSetupPhase s); [|done].
  cbn [negb andb]. unfold try_catch at 1, bind at 1, players, bind at 1.
  unfold get, ret. rewrite length_map.
  destruct (Nat.ltb_spec (length (player_list g)) 2) as [Hlt|Hge];
    destruct (Nat.leb_spec 2 (length (player_list g))); try lia; [done|].
  unfold try_catch, bind, start_game, bind, get, put.
  by destruct (Nat.ltb_spec (length (player_list g)) 2); [lia|].
Qed.

Lemma handleEvents_TextEntered_run unicode role_index s g :
  ∃ s', (isSetupPhase s' = isSetupPhase s) ∧
  handleEvents_TextEntered unicode role_index s g
  = if isSetupPhase s && (unicode <? 128)%nat
       && ((unicode =? 13)%nat || (unicode =? 10)%nat)
       && negb (string_empty (currentInput s))
       && match find_if (String.eqb (currentInput s))
                  (map name (player_list g)) with
          | Some _ => false
          | None => true
          end
       && (length (player_list g) <? 6)%nat
    then
      let g1 := with_player_list
                  (player_list g
                   ++ [create_random_player role_index (currentInput s)]) g in
      if (length (player_list g1) <? 6)%nat then Ret (mkSetup "" true) g1
      else Ret (mkSetup "" false) (with_game_started true g1)
    else Ret s' g.
Proof.
  unfold handleEvents_TextEntered.
  destruct (isSetupPhase s) eqn:Hs; cbn [negb andb]; [|by exists s].
  destruct (unicode <? 128)%nat; cbn [negb andb]; [|by exists s].
  destruct (Nat.eqb_spec unicode 8) as [->|H8].
  { cbn [Nat.eqb orb andb negb].
    destruct (string_empty (currentInput s)); cbn [negb andb];
      [by exists s|].
    by exists (mkSetup (pop_back (currentInput s)) true). }
  cbn [andb negb].
  destruct ((unicode =? 13)%nat || (unicode =? 10)%nat); cbn [andb].
  2:{ by exists (mkSetup (push_back (currentInput s) (ascii_of_nat unicode))
                  true). }
  exists s. split; [done|]. unfold try_catch at 1.
  destruct (string_empty (currentInput s)); cbn [negb andb]; [done|].
  unfold bind at 1, players, bind at 1, get, ret.
  destruct (find_if _ _); cbn [andb]; [done|].
  unfold bind at 1, add_player, bind at 1, validate_player_count, bind at 1.
  unfold get. cbn zeta. gsimpl.
  destruct (Nat.leb_spec 6 (length (player_list g))) as [Hge|Hlt];
    destruct (Nat.ltb_spec (length (player_list g)) 6); try lia; [done|].
  unfold ret, bind at 1, bind at 1, get, put, bind at 1. gsimpl.
  rewrite length_map, length_app. cbn [length].
  destruct (Nat.ltb_spec (length (player_list g) + 1) 2) as [H2|H2];
    destruct (Nat.ltb_spec (length (player_list g) + 1) 6) as [H6|H6];
    try lia; [done|..].
  - by destruct (Nat.leb_spec 6 (length (player_list g) + 1)); [lia|].
  - destruct (Nat.leb_spec 6 (length (player_list g) + 1)); [|lia].
    unfold try_catch, bind, start_game, bind, get, put. gsimpl.
    rewrite length_app. cbn [length].
    by destruct (Nat.ltb_spec (length (player_list g) + 1) 2); [lia|].
Qed.

Lemma names_ok_phase s s' g :
  isSetupPhase s' = isSetupPhase s → names_ok s g → names_ok s' g.
Proof. unfold names_ok. by intros ->. Qed.

Lemma names_ok_command s g c g' :
  names_ok s g → isSetupPhase s = false → in_game c = true →
  execute c g = Ret tt g' ∨ (∃ e, execute c g = Throw e g') →
  names_ok s g'.
Proof.
  intros (Hnd & Hne & Hsix & Hphase) Hs Hc Hrun. rewrite Hs in Hphase.
  destruct Hphase as [Hst Htwo].
  assert (∀ k n, c ≠ AddPlayer k n) as Hadd by (by intros k n ->).
  destruct (execute_follows c g g' Hadd Hrun) as [_ Hev].
  assert (started g') as Hst'.
  { destruct Hrun as [Hrun|[e Hrun]].
    - exact (wp_Ret _ _ _ _ _ _ _ (preserves_started_execute c g Hst) Hrun).
    - exact (wp_Throw _ _ _ _ _ _ _ (preserves_started_execute c g Hst) Hrun). }
  unfold names_ok. rewrite (names_evolve _ _ Hev), Hs.
  rewrite <- (Forall2_length _ _ _ Hev). done.
Qed.

Lemma gui_reachable_names_ok s g : gui_reachable s g → names_ok s g.
Proof.
  induction 1 as [|s g unicode k s' g' _ IH Hrun|s g s' g' _ IH Hrun
                 |s g c g' _ IH Hs Hc Hrun|s g c e g' _ IH Hs Hc Hrun].
  - unfold names_ok. cbn. repeat split; try lia; try done.
    + apply NoDup_nil_2.
    + apply not_elem_of_nil.
  - destruct (handleEvents_TextEntered_run unicode k s g) as (s1 & Hs1 & Heq).
    rewrite Heq in Hrun. clear Heq.
    destruct (isSetupPhase s) eqn:Hs; cbn [andb] in Hrun.
    2:{ injection Hrun as <- <-. apply (names_ok_phase s); congruence. }
    destruct (unicode <? 128)%nat; cbn [andb] in Hrun.
    2:{ injection Hrun as <- <-. apply (names_ok_phase s); congruence. }
    destruct ((unicode =? 13)%nat || (unicode =? 10)%nat); cbn [andb] in Hrun.
    2:{ injection Hrun as <- <-. apply (names_ok_phase s); congruence. }
    destruct (string_empty (currentInput s)) eqn:He; cbn [negb andb] in Hrun.
    { injection Hrun as <- <-. apply (names_ok_phase s); congruence. }
    destruct (find_if _ _) eqn:Hf; cbn [andb] in Hrun.
    { injection Hrun as <- <-. apply (names_ok_phase s); congruence. }
    destruct (length (player_list g) <? 6)%nat; cbn [andb] in Hrun.
    2:{ injection Hrun as <- <-. apply (names_ok_phase s); congruence. }
    apply find_if_name_None in Hf.
    assert (currentInput s ≠ "") as Hn.
    { intros H0%string_empty_spec. congruence. }
    pose proof (names_ok_seat s g (currentInput s) k IH Hs Hn Hf) as Hok.
    cbn zeta in Hrun, Hok.
    destruct (length _ <? 6)%nat; by injection Hrun as <- <-.
  - rewrite handleEvents_Space_run in Hrun.
    destruct (isSetupPhase s) eqn:Hs; cbn [andb] in Hrun;
      [|by injection Hrun as <- <-].
    destruct (Nat.leb_spec 2 (length (player_list g)));
      [|by injection Hrun as <- <-].
    injection Hrun as <- <-. destruct IH as (Hnd & Hne & Hsix & Hphase).
    by unfold names_ok.
  - by eapply names_ok_command; [| | |left].
  - eapply names_ok_command; [done..|]. right. by exists e.
Qed.

(** ** The name of the action, whatever the case of its letters *)

Lemma tolower_same c d : same_letter c d → tolower c = tolower d.
Proof.
  assert (∀ x y, (65 ≤ nat_of_ascii x ≤ 90)%nat →
                 nat_of_ascii y = (nat_of_ascii x + 32)%nat →
                 tolower x = tolower y) as Hup.
  { intros x y Hx Hy. unfold tolower. rewrite Hy.
    destruct (Nat.leb_spec 65 (nat_of_ascii x)); [|lia].
    destruct (Nat.leb_spec (nat_of_ascii x) 90); [|lia].
    destruct (Nat.leb_spec (nat_of_ascii x + 32) 90); [lia|].
    rewrite andb_false_r. cbn [andb].
    by rewrite <- Hy, ascii_nat_embedding. }
  intros [->|[[Hc Hd]|[Hd Hc]]]; [done|by apply Hup|].
  symmetry. by apply Hup.
Qed.

Lemma transform_same a b :
  same_ignoring_case a b → transform tolower a = transform tolower b.
Proof.
  revert b. induction a as [|c a IH]; intros [|d b]; try done.
  cbn [same_ignoring_case transform]. intros [Hc Hab].
  by rewrite (tolower_same _ _ Hc), (IH _ Hab).
Qed.

Lemma blockers_of_same g a b actor :
  same_ignoring_case a b → blockers_of g a actor = blockers_of g b actor.
Proof.
  intros Hab%transform_same. unfold blockers_of, blocks, counters.
  by rewrite Hab.
Qed.

Lemma counters_named p :
  counters p "Tax" = match kind p with Governor => true | _ => false end
  ∧ counters p "Bribe" = match kind p with Judge => true | _ => false end
  ∧ counters p "Coup"
    = match kind p with General => 5 <=? coins p | _ => false end.
Proof. unfold counters. by destruct (kind p). Qed.

Lemma performAction_changes action actor target g g' :
  performAction action actor target g = Ret tt g' → g' ≠ g →
  committable action ∧ (requiresTarget action = true → is_Some target).
Proof.
  intros Hrun Hne. unfold performAction in Hrun.
  destruct (String.eqb_spec action "Gather") as [->|?].
  { split; [by left|done]. }
  destruct (String.eqb_spec action "Tax") as [->|?].
  { split; [by right; left|done]. }
  destruct (String.eqb_spec action "Bribe") as [->|?].
  { split; [by right; right; left|done]. }
  destruct (String.eqb_spec action "Invest") as [->|?].
  { split; [by right; right; right; left|done]. }
  destruct target as [t|]; [|by injection Hrun as <-].
  destruct (String.eqb_spec action "Arrest") as [->|?].
  { split; [by do 4 right; left|by eexists]. }
  destruct (String.eqb_spec action "Sanction") as [->|?].
  { split; [by do 5 right; left|by eexists]. }
  destruct (String.eqb_spec action "Coup") as [->|?];
    [|by injection Hrun as <-].
  split; [by do 6 right|by eexists].
Qed.

(** * Properties of the engine, the validator and the interface *)

(** ** The roster *)

(** X1.  [Game::get_player_by_name] returns the first seat of the roster
    whose player has the name asked for and leaves the match as it is; a
    name that no player has raises [PlayerNotFoundException] with the name
    in its message; and when the names that [Game::players] returns are
    pairwise distinct, looking up the name at position [i] of that list
    gives seat [i] back. *)
Theorem player_lookup_by_name :
  (∀ g n i g',
      get_player_by_name n g = Ret i g' →
      g' = g
      ∧ ∃ p, player_list g !! i = Some p ∧ name p = n
             ∧ ∀ j q, (j < i)%nat → player_list g !! j = Some q →
                      name q ≠ n)
  ∧ (∀ g n,
        n ∉ map name (player_list g) →
        get_player_by_name n g
        = Throw (PlayerNotFoundException ("Player not found: " ++ n)) g)
  ∧ (∀ g names i n,
        players g = Ret names g → NoDup names → names !! i = Some n →
        get_player_by_name n g = Ret i g).
Proof.
  split; [apply get_player_by_name_first|].
  split; [apply get_player_by_name_missing|].
  intros g names i n [= <-] Hnd Hn.
  rewrite map_fmap, list_lookup_fmap in Hn.
  destruct (player_list g !! i) as [p|] eqn:Hp; [|done].
  injection Hn as <-. by apply get_player_by_name_seat.
Qed.

Lemma player_lookup_by_name_witness :
  get_player_by_name "Jo" jo_just_arrested = Ret 1%nat jo_just_arrested
  ∧ get_player_by_name "Zed" jo_just_arrested
    = Throw (PlayerNotFoundException "Player not found: Zed")
        jo_just_arrested.
Proof.
  destruct player_lookup_by_name as (_ & Hmissing & Hseat). split.
  - apply (Hseat jo_just_arrested ["Sam"; "Jo"; "Bea"] 1%nat "Jo");
      [reflexivity| |reflexivity].
    rewrite !NoDup_cons, !not_elem_of_cons. repeat split; try discriminate;
      first [apply not_elem_of_nil|apply NoDup_nil_2].
  - apply (Hmissing jo_just_arrested "Zed"). simpl.
    rewrite !not_elem_of_cons. repeat split; try discriminate.
    apply not_elem_of_nil.
Defined.

(** X2.  In every state that the commands of the engine reach from a new
    match the roster holds at most six players, and at least two once the
    match has started; [Game::add_player] on a full roster raises
    [TooManyPlayersException] and seats nobody. *)
Theorem roster_size_bounds g :
  reachable g →
  (length (player_list g) ≤ 6)%nat
  ∧ (game_started g = true → (2 ≤ length (player_list g))%nat)
  ∧ (∀ k n, (length (player_list g) = 6)%nat →
            add_player (new_player k n) g
            = Throw (TooManyPlayersException "Maximum 6 players allowed") g).
Proof.
  intros Hg. destruct (reachable_roster_ok g Hg) as [H6 H2].
  split; [done|]. split; [done|].
  intros k n Hl. unfold add_player, validate_player_count, bind, get.
  by rewrite Hl.
Qed.

Lemma roster_size_bounds_witness :
  ∃ g, play scenario_a new_game = Ret tt g
       ∧ (length (player_list g) ≤ 6)%nat
       ∧ (game_started g = true → (2 ≤ length (player_list g))%nat).
Proof.
  assert (∃ g, play scenario_a new_game = Ret tt g) as [g Hg]
    by (eexists; by vm_compute).
  exists g. split; [exact Hg|].
  destruct (roster_size_bounds g
              (reachable_play scenario_a new_game g reachable_new Hg))
    as (H6 & H2 & _).
  by split.
Defined.

(** X3.  [Game::turn] raises a [GameException] while nobody is seated; in
    every state that the commands of the engine reach from a new match with
    somebody seated, the turn pointer designates a seat of the roster and
    [Game::turn] returns the name of the player seated there. *)
Theorem turn_names_current_player :
  (∀ g, player_list g = [] →
        turn g = Throw (GameException "No players in game") g)
  ∧ (∀ g, reachable g → player_list g ≠ [] →
          ∃ p, player_list g !! current_turn g = Some p
               ∧ turn g = Ret (name p) g).
Proof.
  split.
  - intros g Hl. unfold turn, bind, get. by rewrite Hl.
  - intros g Hg Hne. destruct (reachable_well_formed g Hg) as (_ & _ & Hr).
    specialize (Hr Hne). apply lookup_lt_is_Some_2 in Hr as [p Hp].
    exists p. split; [done|]. unfold turn, bind, get.
    rewrite <- (get_name_run _ _ _ Hp). by destruct (player_list g).
Qed.

Lemma turn_names_current_player_witness :
  turn new_game = Throw (GameException "No players in game") new_game
  ∧ ∃ g, play scenario_a new_game = Ret tt g ∧ turn g = Ret "Bob" g.
Proof.
  destruct turn_names_current_player as [Hnone Hsome].
  split; [by apply (Hnone new_game)|].
  assert (∃ g, play scenario_a new_game = Ret tt g) as [g Hg]
    by (eexists; by vm_compute).
  exists g. split; [exact Hg|].
  destruct (Hsome g (reachable_play scenario_a new_game g reachable_new Hg))
    as (p & Hp & Hturn).
  - vm_compute in Hg. by injection Hg as <-.
  - rewrite Hturn. vm_compute in Hg. injection Hg as <-.
    vm_compute in Hp. by injection Hp as <-.
Defined.

(** ** The end of the match *)

(** X4.  [Game::is_game_over] answers yes exactly when at most one player
    is active.  [Game::winner] raises "Game is not over yet" while two
    players or more are active and "No winner - all players eliminated"
    when none is; when exactly one player is active it returns the name
    of that player, wherever they sit. *)
Theorem winner_of_the_match :
  (∀ g, (2 ≤ active_participants (player_list g))%nat →
        is_game_over g = Ret false g
        ∧ winner g = Throw (GameException "Game is not over yet") g)
  ∧ (∀ g, active_participants (player_list g) = 0%nat →
          is_game_over g = Ret true g
          ∧ winner g
            = Throw (GameException "No winner - all players eliminated") g)
  ∧ (∀ g i p,
        player_list g !! i = Some p → active p = true →
        active_participants (player_list g) = 1%nat →
        is_game_over g = Ret true g ∧ winner g = Ret (name p) g).
Proof.
  split; [|split].
  - intros g H2. unfold winner.
    rewrite (bind_run _ _ _ _ _ (is_game_over_run g)), is_game_over_run.
    by destruct (Nat.leb_spec (active_participants (player_list g)) 1); [lia|].
  - intros g H0. unfold winner.
    rewrite (bind_run _ _ _ _ _ (is_game_over_run g)), is_game_over_run, H0.
    simpl. unfold bind, get. by rewrite find_active_None.
  - intros g i p Hp Ha H1. rewrite is_game_over_run, H1.
    split; [done|]. by eapply winner_last_active.
Qed.

Lemma winner_of_the_match_witness :
  winner duel_before_coup
  = Throw (GameException "Game is not over yet") duel_before_coup
  ∧ winner duel_decided = Ret "Gia" duel_decided.
Proof.
  destruct winner_of_the_match as (Htwo & _ & Hone). split.
  - apply (Htwo duel_before_coup). vm_compute. lia.
  - apply (Hone duel_decided 0%nat (seat Governor "Gia" 0)); reflexivity.
Defined.

(** ** Removing the eliminated players *)

(** X5.  [Game::cleanup_inactive_players] always returns.  It keeps exactly
    the active players, in their order, and touches nothing but the roster
    and the turn pointer.  The pointer then designates the first active
    player found from its old position onward, wrapping around to the
    front of the roster: an active current player stays the current player,
    and as long as anybody is left the pointer is a seat of the roster.
    Running the clean-up again changes nothing.  The coins of the removed
    players leave the system: they are not returned to the treasury. *)
Theorem cleanup_keeps_the_active g :
  ∃ g',
    cleanup_inactive_players g = Ret tt g'
    ∧ player_list g' = filter (λ p, active p = true) (player_list g)
    ∧ treasury g' = treasury g ∧ game_started g' = game_started g
    ∧ last_arrested_player g' = last_arrested_player g
    ∧ actions_remaining g' = actions_remaining g
    ∧ player_list g' !! current_turn g'
      = head (filter (λ p, active p = true)
                (drop (current_turn g) (player_list g) ++ player_list g)%list)
    ∧ (∀ p, player_list g !! current_turn g = Some p → active p = true →
            player_list g' !! current_turn g' = Some p)
    ∧ (player_list g' ≠ [] → turn_in_range g')
    ∧ cleanup_inactive_players g' = Ret tt g'
    ∧ wealth g'
      = wealth g
        - total_coins (filter (λ p, active p = false) (player_list g)).
Proof.
  eexists. split; [apply cleanup_inactive_players_run|].
  destruct (cleanup_pointer (player_list g) (current_turn g))
    as (Hhead & Hrange & Hwrap).
  cbv zeta in *. gsimpl.
  set (l' := filter (λ p, active p = true) (player_list g)) in *.
  set (ct' := if _ && _ then 0%nat else _) in *.
  do 5 (split; [done|]). split; [done|]. split; [|split; [done|split]].
  - intros p Hp Ha. rewrite Hhead, filter_app.
    rewrite <- (take_drop_middle _ _ _ Hp), drop_app_length'
      by (rewrite length_take; apply lookup_lt_Some in Hp; lia).
    rewrite filter_cons. by destruct (decide _).
  - rewrite cleanup_inactive_players_run. gsimpl. f_equal.
    pose proof (Forall_filter_active (player_list g)) as Hall. fold l' in Hall.
    rewrite (filter_all_active l' Hall), (removed_before_all_active l' ct' Hall).
    rewrite Nat.sub_0_r, Hwrap. done.
  - unfold wealth. gsimpl. unfold l'. rewrite total_coins_filter_active. lia.
Qed.

Lemma cleanup_keeps_the_active_witness :
  ∃ g', cleanup_inactive_players eliminated_rich = Ret tt g'
        ∧ player_list g' !! current_turn g' = Some (seat Spy "Sam" 0)
        ∧ wealth g' = wealth eliminated_rich - 10.
Proof.
  destruct (cleanup_keeps_the_active eliminated_rich)
    as (g' & Hrun & _ & _ & _ & _ & _ & _ & Hcur & _ & _ & Hw).
  exists g'. split; [exact Hrun|]. split.
  - by apply Hcur.
  - rewrite Hw. reflexivity.
Defined.

(** ** The actions *)

(** X6.  An action that raises an exception leaves the match as it was:
    this holds for every action that [GUI::performAction] dispatches
    (Gather, Tax, Bribe, Invest, Arrest, Sanction, Coup), whatever the
    exception, and for the two operations of the Spy. *)
Theorem failed_action_changes_nothing :
  (∀ action actor target g e g',
      performAction action actor target g = Throw e g' → g' = g)
  ∧ (∀ this target g e g',
        investigate this target g = Throw e g'
        ∨ block_arrest_ability this target g = Throw e g' →
        g' = g).
Proof.
  split; [apply performAction_unchanged|].
  intros this target g e g' [H|H].
  - by eapply investigate_unchanged.
  - by eapply block_arrest_ability_unchanged.
Qed.

Lemma failed_action_changes_nothing_witness :
  ∃ e, performAction "Coup" 0%nat (Some 1%nat) spy_faces_judge
       = Throw e spy_faces_judge.
Proof.
  assert (∃ e g', performAction "Coup" 0%nat (Some 1%nat) spy_faces_judge
                  = Throw e g') as (e & g' & Hrun)
    by (do 2 eexists; by vm_compute).
  exists e.
  by rewrite <- (proj1 failed_action_changes_nothing _ _ _ _ _ _ Hrun) at 2.
Defined.

(** X7.  Every action of a player opens with the same three checks, in
    this order: an eliminated actor raises [IllegalMoveException], an
    active actor who is not on turn raises [NotYourTurnException], and an
    active actor on turn in a match that has not started raises
    [GameException].  Whichever of the nine actions is asked for, and
    whatever else is wrong with it, that exception is the one raised. *)
Theorem every_action_checks_the_actor g this target p q e :
  playable g →
  player_list g !! this = Some p → player_list g !! target = Some q →
  act_error g this p = Some e →
  (active p = false ∧ e = IllegalMoveException "Player is not active"
   ∨ active p = true ∧ current_turn g ≠ this
     ∧ e = NotYourTurnException "Not your turn"
   ∨ active p = true ∧ current_turn g = this ∧ game_started g = false
     ∧ e = GameException "Game has not started")
  ∧ gather this g = Throw e g ∧ tax this g = Throw e g
  ∧ bribe this g = Throw e g ∧ invest this g = Throw e g
  ∧ arrest this target g = Throw e g ∧ sanction this target g = Throw e g
  ∧ coup this target g = Throw e g
  ∧ investigate this target g = Throw e g
  ∧ block_arrest_ability this target g = Throw e g.
Proof.
  intros Hg Hp Hq Herr. split.
  { unfold act_error in Herr. destruct (active p); [|left; naive_solver].
    right. destruct (Nat.eqb_spec (current_turn g) this);
      [|left; naive_solver].
    right. destruct (game_started g); naive_solver. }
  rewrite (gather_outcome g this p), (tax_outcome g this p),
    (bribe_outcome g this p), (invest_outcome g this p),
    (arrest_outcome g this target p q), (sanction_outcome g this target p q),
    (coup_outcome g this target p q),
    (investigate_outcome g this target p q),
    (block_arrest_ability_outcome g this target p q) by done.
  unfold gather_error, tax_error, bribe_error, invest_error, arrest_error,
    sanction_error, coup_error, spy_error.
  rewrite Herr. done.
Qed.

Lemma every_action_checks_the_actor_witness :
  gather 0 eliminated_rich
  = Throw (IllegalMoveException "Player is not active") eliminated_rich
  ∧ coup 0 1 eliminated_rich
    = Throw (IllegalMoveException "Player is not active") eliminated_rich.
Proof.
  destruct (every_action_checks_the_actor eliminated_rich 0%nat 1%nat
              (with_active false (seat Governor "Gia" 10))
              (seat Spy "Sam" 0)
              (IllegalMoveException "Player is not active"))
    as (_ & Hgather & _ & _ & _ & _ & _ & Hcoup & _).
  - by apply playable_example.
  - reflexivity.
  - reflexivity.
  - reflexivity.
  - by split.
Defined.

(** X8.  Gather and Tax of an actor who may act.  A sanctioned actor
    raises [IllegalMoveException].  Otherwise the treasury pays 1 coin for
    Gather and, for Tax, 3 coins to a Governor and 2 to everybody else: a
    treasury that holds less raises [GameException], and a treasury that
    holds enough pays exactly that amount to the actor. *)
Theorem income_from_the_treasury g this p :
  playable g → player_list g !! this = Some p →
  act_error g this p = None →
  tax_amount p = (match kind p with Governor => 3 | _ => 2 end)
  ∧ (sanctioned p = true →
     gather this g
     = Throw (IllegalMoveException "Player is under sanctions") g
     ∧ tax this g
       = Throw (IllegalMoveException "Player is under sanctions") g)
  ∧ (sanctioned p = false →
     (treasury g < 1 →
      gather this g
      = Throw (GameException "Not enough coins in treasury") g)
     ∧ (treasury g < tax_amount p →
        tax this g
        = Throw (GameException "Not enough coins in treasury") g)
     ∧ (1 ≤ treasury g →
        ∃ g', gather this g = Ret tt g'
              ∧ coins_at g' this = coins p + 1
              ∧ treasury_moved g g' (- 1))
     ∧ (tax_amount p ≤ treasury g →
        ∃ g', tax this g = Ret tt g'
              ∧ coins_at g' this = coins p + tax_amount p
              ∧ treasury_moved g g' (- tax_amount p))).
Proof.
  intros Hg Hp Herr. split; [done|].
  destruct (act_error_None _ _ _ Herr) as (Ha & Hturn & Hs).
  rewrite (gather_outcome g this p), (tax_outcome g this p) by done.
  unfold gather_error, tax_error, sanctioned_error, treasury_error.
  rewrite Herr. cbn [or_else]. split.
  - by intros ->.
  - intros ->. cbn [or_else]. split; [|split; [|split]].
    + intros Ht. by destruct (Z.ltb_spec (treasury g) 1); [|lia].
    + intros Ht. by destruct (Z.ltb_spec (treasury g) (tax_amount p)); [|lia].
    + intros Ht. destruct (Z.ltb_spec (treasury g) 1); [lia|].
      eexists. split; [done|]. split.
      * apply after_action_actor; [done|].
        apply (coins_at_set_coins (with_treasury _ g)). gsimpl. by rewrite Hp.
      * by apply treasury_moved_after_action.
    + intros Ht. destruct (Z.ltb_spec (treasury g) (tax_amount p)); [lia|].
      eexists. split; [done|]. split.
      * apply after_action_actor; [done|].
        apply (coins_at_set_coins (with_treasury _ g)). gsimpl. by rewrite Hp.
      * apply treasury_moved_after_action; [|done].
        unfold tax_post, set_coins. gsimpl. lia.
Qed.

Lemma income_from_the_treasury_witness :
  ∃ g', tax 0 duel_before_coup = Ret tt g'
        ∧ coins_at g' 0 = 7 + 3
        ∧ treasury_moved duel_before_coup g' (- 3).
Proof.
  destruct (income_from_the_treasury duel_before_coup 0%nat
              (seat Governor "Gia" 7))
    as (Hamount & _ & Hpays).
  - by apply playable_example.
  - reflexivity.
  - reflexivity.
  - destruct (Hpays eq_refl) as (_ & _ & _ & Htax).
    rewrite Hamount in Htax. apply Htax. by vm_compute.
Defined.

(** X9.  [Baron::invest] of an actor who may act: with fewer than 3 coins
    it raises [NotEnoughCoinsException]; with the 3 coins but a treasury
    that holds fewer than 6 it raises [IllegalMoveException], although the
    stake of 3 would be paid in before the return of 6 is taken out; and
    otherwise it commits, the actor gaining 3 coins net and the treasury
    losing 3. *)
Theorem investment_return g this p :
  playable g → player_list g !! this = Some p →
  act_error g this p = None →
  (coins p < 3 →
   invest this g
   = Throw (NotEnoughCoinsException "Not enough coins for action") g)
  ∧ (3 ≤ coins p → treasury g < 6 →
     invest this g
     = Throw (IllegalMoveException
                "Treasury doesn't have enough coins for investment return") g)
  ∧ (3 ≤ coins p → 6 ≤ treasury g →
     ∃ g', invest this g = Ret tt g'
           ∧ coins_at g' this = coins p + 3
           ∧ treasury_moved g g' (- 3)).
Proof.
  intros Hg Hp Herr.
  destruct (act_error_None _ _ _ Herr) as (Ha & Hturn & Hs).
  rewrite (invest_outcome g this p) by done.
  unfold invest_error, coins_error. rewrite Herr. cbn [or_else].
  split; [|split].
  - intros Hc. by destruct (Z.ltb_spec (coins p) 3); [|lia].
  - intros Hc Ht. destruct (Z.ltb_spec (coins p) 3); [lia|]. cbn [or_else].
    by destruct (Z.ltb_spec (treasury g) 6); [|lia].
  - intros Hc Ht. destruct (Z.ltb_spec (coins p) 3); [lia|]. cbn [or_else].
    destruct (Z.ltb_spec (treasury g) 6); [lia|].
    eexists. split; [done|]. split.
    + apply after_action_actor; [done|]. unfold invest_post.
      rewrite coins_at_set_coins; [lia|].
      unfold set_coins. gsimpl. by rewrite list_lookup_alter_eq, Hp.
    + apply treasury_moved_after_action; [|done].
      unfold invest_post, set_coins. gsimpl. lia.
Qed.

Lemma investment_return_witness :
  ∃ g', invest 0 baron_to_invest = Ret tt g'
        ∧ coins_at g' 0 = 3 + 3
        ∧ treasury_moved baron_to_invest g' (- 3).
Proof.
  destruct (investment_return baron_to_invest 0%nat (seat Baron "Bea" 3))
    as (_ & _ & Hcommit).
  - by apply playable_example.
  - reflexivity.
  - reflexivity.
  - apply Hcommit; by vm_compute.
Defined.

(** X10.  An actor who may act and aims an action at themselves is
    refused.  Arrest, Sanction, Investigate and Block Arrest raise
    [IllegalTargetException], each with its own message, before any coin is
    asked for.  Coup asks for the 7 coins first: an actor who holds fewer
    raises [NotEnoughCoinsException], and only an actor who holds them
    raises [IllegalTargetException]. *)
Theorem self_targeting_is_refused g this p :
  playable g → player_list g !! this = Some p →
  act_error g this p = None →
  arrest this this g
  = Throw (IllegalTargetException "Cannot arrest yourself") g
  ∧ sanction this this g
    = Throw (IllegalTargetException "Cannot sanction yourself") g
  ∧ investigate this this g
    = Throw (IllegalTargetException "Cannot investigate yourself") g
  ∧ block_arrest_ability this this g
    = Throw (IllegalTargetException "Cannot block your own arrest ability")
        g
  ∧ coup this this g
    = Throw (if coins p <? 7 then
               NotEnoughCoinsException "Not enough coins for action"
             else IllegalTargetException "Cannot coup yourself") g.
Proof.
  intros Hg Hp Herr.
  destruct (act_error_None _ _ _ Herr) as (Ha & Hturn & Hs).
  rewrite (arrest_outcome g this this p p), (sanction_outcome g this this p p),
    (investigate_outcome g this this p p),
    (block_arrest_ability_outcome g this this p p),
    (coup_outcome g this this p p) by done.
  unfold arrest_error, sanction_error, spy_error, coup_error, target_error,
    self_error, coins_error.
  rewrite Herr, Ha, Nat.eqb_refl. cbn [or_else negb].
  repeat split. by destruct (coins p <? 7).
Qed.

Lemma self_targeting_is_refused_witness :
  arrest 0 0 spy_faces_judge
  = Throw (IllegalTargetException "Cannot arrest yourself") spy_faces_judge
  ∧ coup 0 0 spy_faces_judge
    = Throw (NotEnoughCoinsException "Not enough coins for action")
        spy_faces_judge.
Proof.
  destruct (self_targeting_is_refused spy_faces_judge 0%nat
              (seat Spy "Sam" 3))
    as (Harrest & _ & _ & _ & Hcoup).
  - by apply playable_example.
  - reflexivity.
  - reflexivity.
  - by split.
Defined.

(** X11.  A committed arrest, by the role of the target.  A General pays
    nothing.  A Merchant who holds coins pays 2 of them, or the single
    coin they hold, to the treasury, and the actor gains nothing.  Any
    other target who holds coins pays 1 coin to the actor.  A target
    without coins pays nothing, and the arrest commits all the same. *)
Theorem arrest_by_role g this target p q :
  playable g →
  player_list g !! this = Some p → player_list g !! target = Some q →
  arrest_error g this target p q = None →
  ∃ g',
    arrest this target g = Ret tt g'
    ∧ match kind q with
      | General =>
          coins_at g' this = coins p ∧ coins_at g' target = coins q
          ∧ treasury_moved g g' 0
      | Merchant =>
          let paid := if 0 <? coins q then Z.min (coins q) 2 else 0 in
          coins_at g' this = coins p
          ∧ coins q - paid ≤ coins_at g' target ≤ coins q - paid + 1
          ∧ treasury_moved g g' paid
      | _ =>
          let taken := if 0 <? coins q then 1 else 0 in
          coins_at g' this = coins p + taken
          ∧ coins_at g' target = coins q - taken
          ∧ treasury_moved g g' 0
      end.
Proof.
  intros Hg Hp Hq Herr.
  rewrite (arrest_outcome g this target p q), Herr by done.
  eexists. split; [done|].
  destruct (arrest_error_None _ _ _ _ _ Herr) as (Hact & Ha & Hne & _ & _).
  destruct (act_error_None _ _ _ Hact) as (_ & Hturn & _).
  unfold arrest_post.
  destruct (kind q) eqn:Hk; cbv zeta; destruct (0 <? coins q);
    unfold set_coins; gsimpl;
    (split; [|split]);
    try (apply treasury_moved_after_action; gsimpl; [lia|done]);
    try (erewrite after_action_actor_coins; [|lookup_solve|done];
         cbn [coins with_coins]; lia);
    try (erewrite after_action_other;
         [|lookup_solve|cbn [kind with_coins]; congruence];
         cbn [coins with_coins]; lia).
  all: match goal with
       | |- _ ≤ coins_at (after_action ?g1) _ ≤ _ =>
           let H := fresh in
           eassert (_ ≤ coins_at (after_action g1) target ≤ _) as H
             by (eapply after_action_merchant; lookup_solve);
           cbn [coins with_coins] in H; lia
       end.
Qed.

Lemma arrest_by_role_witness :
  ∃ g', arrest 0 1 spy_faces_merchant = Ret tt g'
        ∧ coins_at g' 0 = 2
        ∧ treasury_moved spy_faces_merchant g' 2.
Proof.
  destruct (arrest_by_role spy_faces_merchant 0%nat 1%nat
              (seat Spy "Sam" 2) (seat Merchant "Mia" 2))
    as (g' & Hrun & Hspy & _ & Ht).
  - by apply playable_example.
  - reflexivity.
  - reflexivity.
  - reflexivity.
  - exists g'. split; [exact Hrun|]. split; [exact Hspy|exact Ht].
Defined.

(** X12.  A sanction against an active player other than the actor costs
    4 coins when the target is a Judge and 3 coins otherwise.  An actor who
    holds less raises [NotEnoughCoinsException]; an actor who holds the
    cost pays it, and the target is under sanctions when the action has
    closed, also when the action has passed the turn on.  Unless the target
    is a Baron, who is compensated, the treasury gains the cost. *)
Theorem sanction_costs_and_flags g this target p q :
  playable g →
  player_list g !! this = Some p → player_list g !! target = Some q →
  act_error g this p = None → active q = true → target ≠ this →
  sanction_cost q = (match kind q with Judge => 4 | _ => 3 end)
  ∧ (coins p < sanction_cost q →
     sanction this target g
     = Throw (NotEnoughCoinsException "Not enough coins for action") g)
  ∧ (sanction_cost q ≤ coins p →
     ∃ g' q',
       sanction this target g = Ret tt g'
       ∧ coins_at g' this = coins p - sanction_cost q
       ∧ player_list g' !! target = Some q' ∧ sanctioned q' = true
       ∧ (kind q ≠ Baron → treasury_moved g g' (sanction_cost q))).
Proof.
  intros Hg Hp Hq Hact Ha Hne. split; [done|].
  destruct (act_error_None _ _ _ Hact) as (_ & Hturn & _).
  rewrite (sanction_outcome g this target p q) by done.
  unfold sanction_error.
  rewrite Hact, (target_error_active _ Ha), (self_error_other _ _ _ Hne).
  cbn [or_else]. unfold coins_error. split.
  - intros Hc. by destruct (Z.ltb_spec (coins p) (sanction_cost q)); [|lia].
  - intros Hc. destruct (Z.ltb_spec (coins p) (sanction_cost q)); [lia|].
    set (g1 := sanction_post g this target p q).
    assert (current_turn g1 = this) as Hturn1.
    { unfold g1, sanction_post, set_coins. cbv zeta.
      by destruct (kind q); gsimpl; try destruct (1 <=? _). }
    assert (∃ q1, player_list g1 !! target = Some q1 ∧ sanctioned q1 = true)
      as (q1 & Hq1 & Hs1).
    { unfold g1, sanction_post, set_coins. cbv zeta.
      destruct (kind q); gsimpl; try destruct (1 <=? _); gsimpl;
        eexists; (split; [lookups|done]). }
    assert (coins_at g1 this = coins p - sanction_cost q) as Hc1.
    { unfold g1, sanction_post, set_coins, coins_at. cbv zeta.
      destruct (kind q); gsimpl; try destruct (1 <=? _); gsimpl;
        by rewrite ?list_lookup_alter_ne, list_lookup_alter_eq, Hp by done. }
    destruct (after_action_lookup g1 target q1 Hq1)
      as (q' & Hq' & _ & _ & _ & _ & _ & Hflags).
    exists (after_action g1), q'. split; [done|]. split; [|split; [done|split]].
    + by apply after_action_actor.
    + destruct Hflags as [-> _]; [congruence|done].
    + intros Hk. apply treasury_moved_after_action; [|congruence].
      unfold g1, sanction_post, set_coins. cbv zeta.
      by destruct (kind q) eqn:Ek.
Qed.

Lemma sanction_costs_and_flags_witness :
  sanction 0 1 spy_faces_judge
  = Throw (NotEnoughCoinsException "Not enough coins for action")
      spy_faces_judge.
Proof.
  destruct (sanction_costs_and_flags spy_faces_judge 0%nat 1%nat
              (seat Spy "Sam" 3) (seat Judge "Jo" 0))
    as (_ & Hshort & _).
  - by apply playable_example.
  - reflexivity.
  - reflexivity.
  - reflexivity.
  - reflexivity.
  - discriminate.
  - apply Hshort. by vm_compute.
Defined.

(** X13.  What a turn transition never does.  When [Game::next_turn]
    returns, every seat holds the player it held, with the same name, role
    and elimination status; only a Merchant can hold another balance, and
    then exactly 1 coin more; and the sanction and the arrest block of
    every player but the one whose turn ends are as they were: a status
    effect lasts until the end of the affected player's own turn. *)
Theorem status_effects_last_until_own_turn g g' i x :
  next_turn g = Ret tt g' → player_list g !! i = Some x →
  ∃ x', player_list g' !! i = Some x'
        ∧ name x' = name x ∧ kind x' = kind x ∧ active x' = active x
        ∧ coins x ≤ coins x' ≤ coins x + 1
        ∧ (kind x ≠ Merchant → coins x' = coins x)
        ∧ (i ≠ current_turn g →
           sanctioned x' = sanctioned x
           ∧ arrest_blocked x' = arrest_blocked x).
Proof.
  intros Hrun Hx.
  rewrite (wp_Ret _ _ _ _ _ _ _ (next_turn_wp g) Hrun).
  destruct (advance_turn_spec_lookup g i x Hx) as (x' & Hx' & Hfacts).
  by exists x'.
Qed.

Lemma status_effects_last_until_own_turn_witness :
  ∃ g' x', next_turn (with_current_turn 2 table_of_three) = Ret tt g'
           ∧ player_list g' !! 0%nat = Some x'
           ∧ sanctioned x' = true ∧ arrest_blocked x' = true.
Proof.
  assert (∃ g', next_turn (with_current_turn 2 table_of_three) = Ret tt g')
    as [g' Hrun] by (eexists; by vm_compute).
  destruct (status_effects_last_until_own_turn
              (with_current_turn 2 table_of_three) g' 0%nat
              (mkPlayer "Gia" 2 true true "" true Governor) Hrun eq_refl)
    as (x' & Hx' & _ & _ & _ & _ & _ & Hflags).
  exists g', x'. split; [exact Hrun|]. split; [exact Hx'|].
  destruct Hflags as [-> ->]; [discriminate|]. by split.
Defined.

(** X14.  A committed Coup eliminates its target: the target was active and
    is not any more, so that one active player less is left, and everybody
    keeps their seat.  A Coup between the last two active players decides
    the match: [Game::is_game_over] answers yes, and [Game::winner]
    returns the name of the actor. *)
Theorem coup_eliminates this target g g' :
  coup this target g = Ret tt g' →
  ∃ p q q',
    player_list g !! this = Some p ∧ player_list g !! target = Some q
    ∧ active q = true ∧ target ≠ this
    ∧ player_list g' !! target = Some q'
    ∧ active q' = false ∧ name q' = name q
    ∧ S (active_participants (player_list g'))
      = active_participants (player_list g)
    ∧ (active_participants (player_list g) = 2%nat →
       is_game_over g' = Ret true g' ∧ winner g' = Ret (name p) g').
Proof.
  intros Hrun.
  destruct (coup_committed g g' this target Hrun)
    as (p & q & Hp & Hq & Herr & ->).
  destruct (coup_error_None _ _ _ _ _ Herr) as (Hact & Ha & _ & Hne).
  destruct (act_error_None _ _ _ Hact) as (Hap & _ & _).
  set (g1 := coup_post g this target p).
  assert (player_list g1 !! target = Some (with_active false q)) as Hq1
    by (unfold g1, coup_post, set_coins; cbv zeta; lookups).
  assert (player_list g1 !! this = Some (with_coins (coins p - 7) p)) as Hp1
    by (unfold g1, coup_post, set_coins; cbv zeta; lookups).
  destruct (after_action_lookup g1 target _ Hq1)
    as (q' & Hq' & Hn & _ & Haq & _).
  destruct (after_action_lookup g1 this _ Hp1)
    as (p' & Hp' & Hnp & _ & Hap' & _).
  assert (S (active_participants (player_list (after_action g1)))
          = active_participants (player_list g)) as Hcount.
  { rewrite active_participants_after_action.
    unfold g1, coup_post, set_coins. cbv zeta. gsimpl.
    rewrite (active_participants_deactivate _ target q)
      by first [done|lookups].
    by apply active_participants_alter. }
  exists p, q, q'. do 7 (split; [done|]). split; [done|].
  intros H2. rewrite H2 in Hcount. injection Hcount as Hcount.
  rewrite is_game_over_run, Hcount. split; [done|].
  rewrite (winner_last_active _ this p' Hp'); [by rewrite Hnp|..|done].
  by rewrite Hap'.
Qed.

Lemma coup_eliminates_witness :
  ∃ g', coup 0 1 duel_before_coup = Ret tt g'
        ∧ is_game_over g' = Ret true g' ∧ winner g' = Ret "Gia" g'.
Proof.
  assert (∃ g', coup 0 1 duel_before_coup = Ret tt g') as [g' Hrun]
    by (eexists; by vm_compute).
  destruct (coup_eliminates 0%nat 1%nat duel_before_coup g' Hrun)
    as (p & q & q' & Hp & _ & _ & _ & _ & _ & _ & _ & Hdecides).
  exists g'. split; [exact Hrun|].
  injection Hp as <-. apply Hdecides. by vm_compute.
Defined.

(** X15.  The two operations of the Spy, for an actor who may act and an
    active target other than the actor.  Investigate returns and changes
    nothing at all.  Block Arrest returns, and then the target is
    arrest-blocked and is otherwise as before: every other seat, the
    treasury, the turn pointer, the action counter and the arrest record
    are untouched, so it costs no coin and no action.  A player who is
    arrest-blocked and who may act raises [IllegalMoveException] on every
    arrest of an active player other than themselves. *)
Theorem spy_operations g this target p q :
  turn_in_range g →
  player_list g !! this = Some p → player_list g !! target = Some q →
  act_error g this p = None → active q = true → target ≠ this →
  investigate this target g = Ret tt g
  ∧ block_arrest_ability this target g
    = Ret tt
        (with_player_list
           (alter (with_arrest_blocked true) target (player_list g)) g)
  ∧ (∃ g' q',
       block_arrest_ability this target g = Ret tt g'
       ∧ player_list g' !! target = Some q'
       ∧ arrest_blocked q' = true
       ∧ name q' = name q ∧ coins q' = coins q ∧ active q' = active q
       ∧ sanctioned q' = sanctioned q ∧ kind q' = kind q
       ∧ (∀ i, i ≠ target → player_list g' !! i = player_list g !! i)
       ∧ treasury g' = treasury g ∧ current_turn g' = current_turn g
       ∧ actions_remaining g' = actions_remaining g
       ∧ last_arrested_player g' = last_arrested_player g
       ∧ game_started g' = game_started g)
  ∧ (playable g → arrest_blocked p = true →
     arrest this target g
     = Throw (IllegalMoveException
                "You are blocked from using arrest this turn") g).
Proof.
  intros Hr Hp Hq Hact Ha Hne.
  rewrite (checks_outcome _ _ _ _ _
             (investigate_checks g this target p q Hp Hq) Hr),
    (checks_outcome _ _ _ _ _
       (block_arrest_ability_checks g this target p q Hp Hq) Hr).
  unfold spy_error.
  rewrite Hact, (target_error_active _ Ha), !(self_error_other _ _ _ Hne).
  cbn [or_else]. split; [done|]. split; [done|]. split.
  - exists (with_player_list
              (alter (with_arrest_blocked true) target (player_list g)) g),
      (with_arrest_blocked true q).
    split; [done|]. gsimpl.
    split; [by rewrite list_lookup_alter_eq, Hq|].
    do 6 (split; [done|]). split; [|done].
    intros i Hi. by rewrite list_lookup_alter_ne.
  - intros Hg Hblocked. rewrite (arrest_outcome g this target p q) by done.
    unfold arrest_error.
    rewrite Hact, (target_error_active _ Ha), (self_error_other _ _ _ Hne).
    cbn [or_else]. by rewrite Hblocked.
Qed.

Lemma spy_operations_witness :
  investigate 0 1 jo_just_arrested = Ret tt jo_just_arrested
  ∧ ∃ g' q', block_arrest_ability 0 1 jo_just_arrested = Ret tt g'
             ∧ player_list g' !! 1%nat = Some q'
             ∧ arrest_blocked q' = true ∧ name q' = "Jo" ∧ coins q' = 2
             ∧ treasury g' = 44 ∧ actions_remaining g' = 1.
Proof.
  destruct (spy_operations jo_just_arrested 0%nat 1%nat
              (seat Spy "Sam" 3) (seat Judge "Jo" 2))
    as (Hi & _ & (g' & q' & Hb & Hq' & Hflag & Hn & Hc & _ & _ & _ & _
                  & Ht & _ & Hcount & _) & _).
  - unfold turn_in_range. simpl. lia.
  - reflexivity.
  - reflexivity.
  - reflexivity.
  - reflexivity.
  - discriminate.
  - split; [exact Hi|]. exists g', q'. by repeat split.
Defined.

(** ** Invariants of the match *)

(** X16.  Seats are for life.  Whatever command the engine runs, and whether
    it returns or raises an exception, every seat of the roster still holds
    a player with the same name and the same role, and a player who was
    eliminated is eliminated still: no command moves, renames or revives
    anybody. *)
Theorem seats_are_for_life c g g' i x :
  execute c g = Ret tt g' ∨ (∃ e, execute c g = Throw e g') →
  player_list g !! i = Some x →
  ∃ x', player_list g' !! i = Some x'
        ∧ name x' = name x ∧ kind x' = kind x
        ∧ (active x = false → active x' = false).
Proof.
  intros Hrun Hx.
  destruct (command_cases c) as [(k & n & ->)|Hother].
  - simpl in Hrun. rewrite add_player_outcome in Hrun. exists x.
    destruct (6 <=? _)%nat; destruct Hrun as [Hrun|[e Hrun]]; try done.
    + by injection Hrun as _ <-.
    + injection Hrun as <-. gsimpl. split; [|done].
      by apply lookup_app_l_Some.
  - destruct (execute_follows c g g') as [_ Hl]; [done..|].
    destruct (Forall2_lookup_l _ _ _ _ _ Hl Hx) as (x' & Hx' & Hn & Hk & Ha & _).
    by exists x'.
Qed.

Lemma seats_are_for_life_witness :
  ∃ g' x', execute (Commit "Gather" 1%nat None) eliminated_rich = Ret tt g'
           ∧ player_list g' !! 0%nat = Some x'
           ∧ name x' = "Gia" ∧ active x' = false.
Proof.
  assert (∃ g', execute (Commit "Gather" 1%nat None) eliminated_rich
                = Ret tt g') as [g' Hrun] by (eexists; by vm_compute).
  destruct (seats_are_for_life (Commit "Gather" 1%nat None) eliminated_rich
              g' 0%nat (with_active false (seat Governor "Gia" 10)))
    as (x' & Hx' & Hn & _ & Ha); [by left|reflexivity|].
  exists g', x'. split; [exact Hrun|]. split; [exact Hx'|].
  split; [exact Hn|]. by apply Ha.
Defined.

(** X17.  Fifty coins.  In every state that the commands of the engine
    reach from a new match, the treasury and the players hold 50 coins
    between them, nobody is in debt, and so no balance exceeds 50. *)
Theorem fifty_coins g :
  reachable g →
  wealth g = 50 ∧ 0 ≤ treasury g ≤ 50
  ∧ Forall (λ p, 0 ≤ coins p ≤ 50) (player_list g).
Proof.
  intros Hg. destruct (reachable_fifty g Hg) as [Hw Hc].
  destruct (reachable_well_formed g Hg) as (Ht & _).
  destruct (coins_le_total _ Hc) as [H0 Hle]. unfold wealth in Hw.
  split; [done|]. split; [lia|].
  apply Forall_forall. intros p Hin.
  pose proof (proj1 (Forall_forall _ _) Hc p Hin).
  pose proof (proj1 (Forall_forall _ _) Hle p Hin). simpl in *. lia.
Qed.

Lemma fifty_coins_witness :
  ∃ g, play scenario_a new_game = Ret tt g
       ∧ wealth g = 50 ∧ 0 ≤ treasury g ≤ 50.
Proof.
  assert (∃ g, play scenario_a new_game = Ret tt g) as [g Hg]
    by (eexists; by vm_compute).
  destruct (fifty_coins g
              (reachable_play scenario_a new_game g reachable_new Hg))
    as (Hw & Ht & _).
  by exists g.
Defined.

(** ** The rule validator *)

(** X18.  The button of an action and its validation.
    [isActionAvailableForButton] runs the checks of [getValidationResult]
    but the one on the target.  So a valid action always has an enabled
    button; for an action that needs no target the button is enabled
    exactly when the action is valid, whatever target is passed; and for an
    action that needs one, the action is valid exactly when the button is
    enabled and a target is given that is active and is not the actor.
    [isActionAvailable], which validates without a target, therefore
    answers no for every action that needs one. *)
Theorem button_and_validation g action actor target p :
  player_list g !! actor = Some p → turn_in_range g →
  target_seated g target →
  ∃ r b,
    getValidationResult action (Some actor) target g = Ret r g
    ∧ isActionAvailableForButton action (Some actor) g = Ret b g
    ∧ (isValid r = true → b = true)
    ∧ (requiresTarget action = false →
       isValid r = b ∧ isActionAvailable action (Some actor) g = Ret b g)
    ∧ (requiresTarget action = true →
       isActionAvailable action (Some actor) g = Ret false g
       ∧ (isValid r = true ↔
          b = true
          ∧ ∃ t, target = Some t ∧ t ≠ actor
                 ∧ seat_active (player_list g) t = true)).
Proof.
  intros Hp Hr Ht.
  exists (verdict g action actor target p), (button g action actor p).
  split; [by apply getValidationResult_run|].
  split; [by apply isActionAvailableForButton_run|].
  assert (isActionAvailable action (Some actor) g
          = Ret (isValid (verdict g action actor None p)) g) as Havail.
  { unfold isActionAvailable.
    by rewrite (bind_run _ _ _ _ _
                  (getValidationResult_run g action actor None p Hp Hr
                     ltac:(by intros ? [=]))). }
  rewrite Havail, !isValid_verdict.
  split; [by intros [? _]%andb_true_iff|]. split.
  - intros ->. cbn [negb orb]. by rewrite andb_true_r.
  - intros ->. cbn [negb orb target_verdict isValid invalid].
    rewrite andb_false_r. split; [done|].
    rewrite andb_true_iff. apply and_iff_compat_l.
    unfold target_verdict. destruct target as [t|].
    + destruct (seat_active (player_list g) t) eqn:Hsa;
        cbn [negb isValid invalid].
      * destruct (Nat.eqb_spec actor t) as [->|Hne]; cbn [isValid valid invalid].
        -- split; [done|]. by intros (t' & [= <-] & ? & _).
        -- split; [|done]. intros _. exists t.
           split; [done|]. split; [congruence|done].
      * split; [done|]. intros (t' & [= <-] & _ & ?). congruence.
    + cbn [isValid invalid]. split; [done|]. by intros (? & [=] & _).
Qed.

Lemma button_and_validation_witness :
  isActionAvailableForButton "Sanction" (Some 0%nat) spy_faces_judge
  = Ret true spy_faces_judge
  ∧ isActionAvailable "Sanction" (Some 0%nat) spy_faces_judge
    = Ret false spy_faces_judge.
Proof.
  destruct (button_and_validation spy_faces_judge "Sanction" 0%nat
              (Some 1%nat) (seat Spy "Sam" 3))
    as (r & b & Hr & Hb & _ & _ & Htarget).
  - reflexivity.
  - unfold turn_in_range. simpl. lia.
  - intros t [= <-]. by eexists.
  - destruct (Htarget eq_refl) as [Havail _]. split; [|exact Havail].
    rewrite Hb. vm_compute in Hb. by injection Hb as <-.
Defined.

(** X19.  The exceptions of the validator.  [validateActionExecution]
    leaves the match as it is; it returns when [getValidationResult] finds
    the action valid and otherwise raises the message of the first check
    that fails, in a class that it picks by searching the message for
    "coins", "turn", "target" and "game".  So the player with 10 coins or
    more who asks for another action than Coup gets a
    [NotEnoughCoinsException], and the player whose arrests are blocked a
    [NotYourTurnException], in both cases because of the wording of the
    message. *)
Theorem validation_exception_classes g action actor target p :
  player_list g !! actor = Some p → turn_in_range g →
  target_seated g target →
  ∃ r,
    getValidationResult action (Some actor) target g = Ret r g
    ∧ validateActionExecution action (Some actor) target g
      = match validation_exception g action actor target p with
        | None => Ret tt g
        | Some e => Throw e g
        end
    ∧ match validation_exception g action actor target p with
      | None => isValid r = true
      | Some e => isValid r = false ∧ what e = errorMessage r
      end.
Proof.
  intros Hp Hr Ht. exists (verdict g action actor target p).
  split; [by apply getValidationResult_run|].
  split; [by apply validateActionExecution_run|].
  apply validation_exception_verdict.
Qed.

Lemma validation_exception_classes_witness :
  validateActionExecution "Tax" (Some 0%nat) None rich_governor
  = Throw (NotEnoughCoinsException
             "Must perform coup when having 10 or more coins")
      rich_governor.
Proof.
  destruct (validation_exception_classes rich_governor "Tax" 0%nat None
              (seat Governor "Gia" 10))
    as (r & _ & Hrun & _);
    [done|unfold turn_in_range; simpl; lia|by intros ? [=]|].
  exact Hrun.
Defined.

(** X20.  A validated action is committed.  In a match with balances
    within the bounds, when [validateActionExecution] returns for one of
    the seven actions that [GUI::performAction] dispatches, the action
    returns too, provided the conditions hold that only the engine checks:
    the treasury holds the coin of Gather, the coins of Tax and the six
    coins of the return of Invest, the target of Arrest is not the player
    arrested last, and a Sanction on a Judge finds 4 coins. *)
Theorem validated_actions_commit g action actor target p :
  playable g → player_list g !! actor = Some p →
  target_seated g target → committable action →
  validateActionExecution action (Some actor) target g = Ret tt g →
  engine_only g action p target →
  ∃ g', performAction action actor target g = Ret tt g'.
Proof.
  intros Hg Hp Ht Hc Hv Heng.
  rewrite (validateActionExecution_run _ _ _ _ _ Hp (proj1 Hg) Ht) in Hv.
  destruct (validation_exception g action actor target p) eqn:He; [done|].
  by eapply validated_commits.
Qed.

Lemma validated_actions_commit_witness :
  ∃ g', performAction "Coup" 0%nat (Some 1%nat) duel_before_coup = Ret tt g'.
Proof.
  apply (validated_actions_commit duel_before_coup "Coup" 0%nat
           (Some 1%nat) (seat Governor "Gia" 7)).
  - by apply playable_example.
  - done.
  - intros t [= <-]. by eexists.
  - unfold committable. tauto.
  - by vm_compute.
  - by repeat split; intros [=].
Defined.

(** X21.  An action that changed the match was valid.
    [GUI::performAction] reports the exception of a refused action and
    returns, so its return says nothing; but when it returns a match other
    than the one it was called on, the action has been committed, and
    [validateActionExecution] returns in the state before the action,
    unless the actor holds 10 coins or more and the action is not Coup:
    the rule of the mandatory Coup is the validator's alone. *)
Theorem committed_actions_are_valid g g' action actor target p :
  GUI_performAction action actor target g = Ret tt g' → g' ≠ g →
  player_list g !! actor = Some p →
  target_seated g target →
  coins p < 10 ∨ action = "Coup" →
  performAction action actor target g = Ret tt g'
  ∧ validateActionExecution action (Some actor) target g = Ret tt g.
Proof.
  intros Hgui Hne Hp Ht Hcoins. rewrite GUI_performAction_run in Hgui.
  destruct (performAction action actor target g) as [[] g1|e g1|] eqn:Hrun;
    [|by injection Hgui as <-|done].
  injection Hgui as ->. split; [done|].
  destruct (performAction_changes _ _ _ _ _ Hrun Hne) as [Hc Htgt].
  destruct (committed_validates _ _ _ _ _ _ Hrun Hc Htgt Hp Hcoins)
    as [He Hr].
  by rewrite (validateActionExecution_run _ _ _ _ _ Hp Hr Ht), He.
Qed.

Lemma committed_actions_are_valid_witness :
  validateActionExecution "Coup" (Some 0%nat) (Some 1%nat) duel_before_coup
  = Ret tt duel_before_coup.
Proof.
  apply (committed_actions_are_valid duel_before_coup duel_decided
           "Coup" 0%nat (Some 1%nat) (seat Governor "Gia" 7)).
  - by vm_compute.
  - intros [=].
  - done.
  - intros t [= <-]. by eexists.
  - by right.
Defined.

(** ** Countering an action *)

(** X22.  The block phase.  [GUI::startBlockPhase] never raises an
    exception and changes nothing when it finds a blocker; when it finds
    none it runs [GUI::performAction] at once.  The blockers are the seats
    other than the actor whose player is active and answers yes to
    [can_block]: for Tax exactly the Governors, for Bribe exactly the
    Judges and for Coup exactly the Generals who hold 5 coins or more, and
    the same seats for a name of the action that differs in the case of its
    letters only.  No block phase ever follows Arrest or Sanction, which
    the interface sends through this function too. *)
Theorem block_phase g action actor target :
  startBlockPhase action actor target g
  = match blockers_of g action actor with
    | [] => (GUI_performAction action actor target ;;; ret []) g
    | blockers => Ret blockers g
    end
  ∧ (∀ e g', startBlockPhase action actor target g ≠ Throw e g')
  ∧ (∀ i, i ∈ blockers_of g action actor ↔
          i ≠ actor
          ∧ ∃ p, player_list g !! i = Some p ∧ active p = true
                 ∧ can_block i action g = Ret true g)
  ∧ (∀ i p, i ∈ blockers_of g action actor →
            player_list g !! i = Some p →
            (kind p = Governor ∧ transform tolower action = "tax")
            ∨ (kind p = General ∧ transform tolower action = "coup"
               ∧ 5 ≤ coins p)
            ∨ (kind p = Judge ∧ transform tolower action = "bribe"))
  ∧ (∀ i, i ∈ blockers_of g "Tax" actor ↔
          i ≠ actor
          ∧ ∃ p, player_list g !! i = Some p ∧ active p = true
                 ∧ kind p = Governor)
  ∧ (∀ i, i ∈ blockers_of g "Bribe" actor ↔
          i ≠ actor
          ∧ ∃ p, player_list g !! i = Some p ∧ active p = true
                 ∧ kind p = Judge)
  ∧ (∀ i, i ∈ blockers_of g "Coup" actor ↔
          i ≠ actor
          ∧ ∃ p, player_list g !! i = Some p ∧ active p = true
                 ∧ kind p = General ∧ 5 ≤ coins p)
  ∧ (∀ action', same_ignoring_case action action' →
                blockers_of g action' actor = blockers_of g action actor)
  ∧ (action = "Arrest" ∨ action = "Sanction" →
     blockers_of g action actor = []
     ∧ startBlockPhase action actor target g
       = (GUI_performAction action actor target ;;; ret []) g).
Proof.
  split; [apply startBlockPhase_run|]. split.
  { intros e g'. rewrite startBlockPhase_run.
    destruct (blockers_of g action actor); [|done].
    unfold bind. rewrite GUI_performAction_run.
    by destruct (performAction action actor target g) as [[] ?|? ?|]. }
  split; [|split].
  - intros i. rewrite blockers_of_spec. apply and_iff_compat_l.
    split; intros (p & Hp & Ha & Hc); exists p; repeat split; try done.
    + by rewrite (can_block_run _ _ _ _ Hp), Hc.
    + rewrite (can_block_run _ _ _ _ Hp) in Hc. congruence.
  - intros i p (_ & p' & Hp' & _ & Hc)%blockers_of_spec Hp.
    assert (p' = p) as -> by congruence. by apply counters_cases.
  - split; [|split; [|split; [|split]]].
    + intros i. rewrite blockers_of_spec. apply and_iff_compat_l.
      split; intros (p & Hp & Ha & Hc); exists p; (split; [done|]);
        (split; [done|]); revert Hc;
        rewrite ?(proj1 (counters_named p)); by destruct (kind p).
    + intros i. rewrite blockers_of_spec. apply and_iff_compat_l.
      split; intros (p & Hp & Ha & Hc); exists p; (split; [done|]);
        (split; [done|]); revert Hc;
        rewrite ?(proj1 (proj2 (counters_named p))); by destruct (kind p).
    + intros i. rewrite blockers_of_spec. apply and_iff_compat_l.
      split.
      * intros (p & Hp & Ha & Hc). exists p. split; [done|]. split; [done|].
        rewrite (proj2 (proj2 (counters_named p))) in Hc.
        destruct (kind p); try done. split; [done|]. by apply Z.leb_le.
      * intros (p & Hp & Ha & Hk & Hc). exists p. split; [done|].
        split; [done|]. rewrite (proj2 (proj2 (counters_named p))), Hk.
        by apply Z.leb_le.
    + intros action' Hsame. symmetry. by apply blockers_of_same.
    + intros Ha.
      assert (blockers_of g action actor = []) as Hnone
        by (apply blockers_of_nil; by destruct Ha as [-> | ->]).
      split; [done|]. by rewrite startBlockPhase_run, Hnone.
Qed.

Lemma block_phase_witness :
  startBlockPhase "Coup" 0%nat (Some 2%nat) general_counters
  = Ret [1%nat] general_counters
  ∧ 1%nat ∈ blockers_of general_counters "COUP" 0%nat
  ∧ startBlockPhase "Sanction" 0%nat (Some 1%nat) spy_faces_judge
    = (GUI_performAction "Sanction" 0%nat (Some 1%nat) ;;; ret [])
        spy_faces_judge.
Proof.
  destruct (block_phase general_counters "Coup" 0%nat (Some 2%nat))
    as (Hrun & _ & _ & _ & _ & _ & Hcoup & Hcase & _).
  assert (1%nat ∈ blockers_of general_counters "Coup" 0%nat) as Hin.
  { apply Hcoup. split; [discriminate|].
    exists (seat General "Gus" 5). by repeat split. }
  split; [|split].
  - rewrite Hrun. by vm_compute.
  - rewrite (Hcase "COUP"); [exact Hin|].
    cbn [same_ignoring_case]. unfold same_letter.
    repeat split; try (by left); right; right; vm_compute; lia.
  - destruct (block_phase spy_faces_judge "Sanction" 0%nat (Some 1%nat))
      as (_ & _ & _ & _ & _ & _ & _ & _ & Hnone).
    apply Hnone. by right.
Defined.

(** X23.  A countered action.  [GUI::onBlockClicked] never raises an
    exception: what it changes are payments of players to the treasury,
    and then the turn passes to the next active player.  In a match with
    balances within the bounds, the blocked action itself is not carried
    out: the actor loses the price of the action (4 coins for Bribe, 3 for
    Sanction, 7 for Coup) if they hold it and nothing otherwise, the
    General who counters a Coup pays 5 coins if the actor has paid and the
    General holds them, and the turn passes even when actions remain. *)
Theorem countered_action g action actor blocker :
  (∀ e g', onBlockClicked action actor blocker g ≠ Throw e g')
  ∧ (∀ g', onBlockClicked action actor blocker g = Ret tt g' →
           ∃ g1, paid_in g g1 ∧ g' = advance_turn_spec g1)
  ∧ (playable g → is_Some (player_list g !! actor) →
     is_Some (player_list g !! blocker) →
     onBlockClicked action actor blocker g
     = Ret tt (advance_turn_spec (block_post g action actor blocker))).
Proof.
  pose proof (onBlockClicked_pays action actor blocker g) as Hwp.
  split; [|split].
  - intros e g' Hrun. exact (wp_Throw _ _ _ _ _ _ _ Hwp Hrun).
  - intros g' Hrun. exact (wp_Ret _ _ _ _ _ _ _ Hwp Hrun).
  - apply onBlockClicked_run.
Qed.

Lemma countered_action_witness :
  onBlockClicked "Coup" 0%nat 1%nat general_counters
  = Ret tt (mkGame [seat Governor "Gia" 0; seat General "Gus" 0;
                    seat Spy "Sam" 1] 1 true 49 "" 1).
Proof.
  rewrite (proj2 (proj2 (countered_action general_counters "Coup"
                           0%nat 1%nat)));
    [by vm_compute|by apply playable_example|by eexists..].
Defined.

(** ** Matches that the interface sets up *)

(** X24.  The names of the players.  In every state that the interface
    reaches, by the events of the setup phase and then by the commands of
    the clicks, the names of the roster are not empty and pairwise
    distinct, so that [Game::get_player_by_name], by which the interface
    finds the player of the name that was clicked, gives the seat of that
    very player.  As long as the interface is in its setup phase the match
    is not started and has fewer than 6 players; once it has left it, the
    match is started and has 2 to 6 players. *)
Theorem names_in_the_interface s g :
  gui_reachable s g →
  NoDup (map name (player_list g))
  ∧ ("" ∉ map name (player_list g))
  ∧ (if isSetupPhase s then
       game_started g = false ∧ (length (player_list g) < 6)%nat
     else game_started g = true ∧ (2 ≤ length (player_list g) ≤ 6)%nat)
  ∧ ∀ i p, player_list g !! i = Some p →
           get_player_by_name (name p) g = Ret i g.
Proof.
  intros (Hnd & Hne & Hsix & Hphase)%gui_reachable_names_ok.
  split; [done|]. split; [done|]. split.
  - destruct (isSetupPhase s); [done|]. by destruct Hphase.
  - intros i p Hp. by apply get_player_by_name_seat.
Qed.

Lemma names_in_the_interface_witness :
  get_player_by_name "B" typed_in = Ret 1%nat typed_in.
Proof.
  pose proof gui_new as H0.
  pose proof (gui_text _ _ 65%nat 0 (mkSetup "A" true) new_game H0 eq_refl)
    as H1.
  pose proof (gui_text _ _ 13%nat 0 (mkSetup "" true)
                (with_player_list [new_player Governor "A"] new_game)
                H1 eq_refl) as H2.
  pose proof (gui_text _ _ 66%nat 0 (mkSetup "B" true) _ H2 eq_refl) as H3.
  pose proof (gui_text _ _ 13%nat 1 (mkSetup "" true)
                (with_player_list
                   [new_player Governor "A"; new_player Spy "B"] new_game)
                H3 eq_refl) as H4.
  pose proof (gui_space _ _ (mkSetup "" false) typed_in H4 eq_refl) as H5.
  exact (proj2 (proj2 (proj2 (names_in_the_interface _ _ H5)))
           1%nat (new_player Spy "B") eq_refl).
Defined.
